(** * Slack integration layer: a shallow embedding and its verified properties

  The development follows the TypeScript sources:
  - [common/types.ts]            error codes, [IntegrationUtils] (validateInput, retry)
  - [common/base-integration.ts] [BaseIntegrationClass] (createResponse, createError)
  - [common/index.ts]            [IntegrationRegistry]
  - [slack/types.ts]             request schemas, [SlackTransformer]
  - [slack/service.ts]           [SlackService]
  - [slack/index.ts]             [createSlackIntegration]
  - [app/api/integrations/slack] the POST handlers of the users, channels,
                                 user-info and health routes
  - the frontend utilities       [SlackErrorHandler], [RetryManager]

  Values that cross the adapter boundary are untyped at run time (the
  provider's JSON, thrown values, request bodies), so they are modelled by a
  single type of JavaScript values with the language's truthiness, property
  access and string conversion written out.  Numbers are doubles: a finite
  one is the rational it denotes, and arithmetic rounds to the nearest. *)

From Stdlib Require Import String List ZArith QArith Lia.
From stdpp Require Import gmap strings pretty.

Set Warnings "-register-all".

Local Open Scope Z_scope.

(* ===================================================================== *)
(** * JavaScript values *)
(* ===================================================================== *)

Module Js.

(** A JS number: the two non-finite families and the finite ones, the
    latter as exact rationals (every finite double is one). *)
Inductive JsNumber :=
| NaN
| Infinity (negative : bool)
| Finite (q : Q).

(** JSON-like values.  An object is the list of its own properties in
    insertion order; a property is read at its first occurrence.  A
    string is the sequence of its UTF-16 code units, each of them below
    256: strings with other characters are outside the model. *)
Inductive JsVal :=
| JUndefined
| JNull
| JBool (b : bool)
| JNum (n : JsNumber)
| JStr (s : string)
| JArr (items : list JsVal)
| JObj (fields : list (string * JsVal)).

Definition num (z : Z) : JsVal := JNum (Finite (inject_Z z)).

(** Results of evaluating code that may throw; a thrown value is any
    JS value. *)
Inductive Res (A : Type) :=
| Ok (a : A)
| Throw (e : JsVal).
Arguments Ok {A} a.
Arguments Throw {A} e.

Definition bind {A B} (r : Res A) (k : A -> Res B) : Res B :=
  match r with
  | Ok a => k a
  | Throw e => Throw e
  end.

(** [new Error(msg)] and the run-time's [TypeError]. *)
Definition Error (msg : string) : JsVal := JObj [("message", JStr msg)].
Definition TypeError (msg : string) : JsVal :=
  JObj [("name", JStr "TypeError"); ("message", JStr msg)].

(** ToBoolean. *)
Definition truthy (v : JsVal) : bool :=
  match v with
  | JUndefined | JNull => false
  | JBool b => b
  | JNum NaN => false
  | JNum (Infinity _) => true
  | JNum (Finite q) => negb (Qeq_bool q 0)
  | JStr s => negb (String.eqb s "")
  | JArr _ | JObj _ => true
  end.

Definition nullish (v : JsVal) : bool :=
  match v with
  | JUndefined | JNull => true
  | _ => false
  end.

Fixpoint lookup_field (k : string) (fs : list (string * JsVal)) : JsVal :=
  match fs with
  | [] => JUndefined
  | (k', v) :: rest => if String.eqb k k' then v else lookup_field k rest
  end.

Definition describe (v : JsVal) : string :=
  match v with
  | JNull => "null"
  | _ => "undefined"
  end.

(** The value of [v.k] when [v] is neither [undefined] nor [null]: an
    object yields its own property or [undefined]; the other values
    (primitives, arrays) only have the properties of their prototypes,
    none of which is among the names read by this code base, so they
    yield [undefined]. *)
Definition prop (v : JsVal) (k : string) : JsVal :=
  match v with
  | JObj fs => lookup_field k fs
  | _ => JUndefined
  end.

(** [v.k]: reading a property of [undefined] or [null] throws a
    TypeError. *)
Definition get_prop (v : JsVal) (k : string) : Res JsVal :=
  if nullish v then
    Throw (TypeError ("Cannot read properties of " +:+ describe v
                        +:+ " (reading '" +:+ k +:+ "')"))
  else Ok (prop v k).

(** [v?.k] *)
Definition get_opt (v : JsVal) (k : string) : Res JsVal :=
  if nullish v then Ok JUndefined else get_prop v k.

(** The value of [v?.k], which cannot throw. *)
Definition opt (v : JsVal) (k : string) : JsVal :=
  if nullish v then JUndefined else prop v k.

(** [a || b], with [b] evaluated only when [a] is falsy. *)
Definition or_else (a : JsVal) (b : Res JsVal) : Res JsVal :=
  if truthy a then Ok a else b.

(** [v === "s"] for a string literal. *)
Definition is_string (v : JsVal) (s : string) : bool :=
  match v with
  | JStr s' => String.eqb s' s
  | _ => false
  end.

(** [v === n] for an integer literal. *)
Definition is_number (v : JsVal) (n : Z) : bool :=
  match v with
  | JNum (Finite q) => Qeq_bool q (inject_Z n)
  | _ => false
  end.

(** Number::toString is left to the run-time: the code only ever
    concatenates its result into messages. *)
Class NumberPrinter := number_to_string : JsNumber -> string.

Section ToString.
Context {printer : NumberPrinter}.

(** ToString, as used by template literals.  Inside an array,
    [undefined] and [null] print as the empty string. *)
Fixpoint to_string (v : JsVal) : string :=
  match v with
  | JUndefined => "undefined"
  | JNull => "null"
  | JBool true => "true"
  | JBool false => "false"
  | JNum n => number_to_string n
  | JStr s => s
  | JArr items =>
      (fix join (l : list JsVal) : string :=
         match l with
         | [] => ""
         | x :: rest =>
             (if nullish x then "" else to_string x) +:+
             match rest with
             | [] => ""
             | _ => "," +:+ join rest
             end
         end) items
  | JObj _ => "[object Object]"
  end.
End ToString.

End Js.

Import Js.

Declare Scope res_scope.
Delimit Scope res_scope with res.
Notation "'let?' x ':=' r 'in' k" := (bind r (fun x => k))
  (at level 10, x name, r at level 100, k at level 200) : res_scope.

(* ===================================================================== *)
(** * JavaScript numbers: the arithmetic of doubles *)
(* ===================================================================== *)

(** A finite number of the model is the rational that the double
    denotes; the result of an operation is the exact result rounded to
    the nearest double.  The sign of zero is not kept. *)
Module Double.

(** An integer, as a number. *)
Definition of_Z (z : Z) : JsNumber := Finite (inject_Z z).

(** [num / den] rounded to the nearest integer, ties to the even one. *)
Definition nearest_even (num den : Z) : Z :=
  let fl := num / den in
  match 2 * (num mod den) ?= den with
  | Lt => fl
  | Gt => fl + 1
  | Eq => if Z.even fl then fl else fl + 1
  end.

(** The exponent [e] of a positive [n / d]: [2^e <= n / d < 2^(e+1)]. *)
Definition exponent (n d : Z) : Z :=
  let e := Z.log2 n - Z.log2 d in
  if n * 2 ^ Z.max 0 (- e) <? d * 2 ^ Z.max 0 e then e - 1 else e.

(** [m * 2^s] *)
Definition scaled (m s : Z) : Q :=
  if 0 <=? s then inject_Z (m * 2 ^ s) else Qred (m # Z.to_pos (2 ^ (- s))).

(** The double nearest to a positive [n / d], ties to even: 53 binary
    digits from the exponent down, exponents from -1022 (below that the
    subnormal numbers, with the unit [2^-1074]) up to 1023; [None] when
    the result is beyond the largest double. *)
Definition round_positive (n d : Z) : option Q :=
  let s := Z.max (exponent n d) (- 1022) - 52 in
  let m := nearest_even (n * 2 ^ Z.max 0 (- s)) (d * 2 ^ Z.max 0 s) in
  if (0 <=? s) && (2 ^ 1024 <=? m * 2 ^ s) then None else Some (scaled m s).

(** The double that an exact result is rounded to. *)
Definition round (q : Q) : JsNumber :=
  match Qnum (Qred q) with
  | 0 => Finite 0
  | Zpos n =>
      match round_positive (Zpos n) (Zpos (Qden (Qred q))) with
      | Some r => Finite r
      | None => Infinity false
      end
  | Zneg n =>
      match round_positive (Zpos n) (Zpos (Qden (Qred q))) with
      | Some r => Finite (- r)
      | None => Infinity true
      end
  end.

Definition negative (q : Q) : bool := Qnum q <? 0.

(** [a * b] *)
Definition mul (a b : JsNumber) : JsNumber :=
  match a, b with
  | NaN, _ | _, NaN => NaN
  | Infinity s, Infinity t => Infinity (xorb s t)
  | Infinity s, Finite q | Finite q, Infinity s =>
      if Qeq_bool q 0 then NaN else Infinity (xorb s (negative q))
  | Finite p, Finite q => round (p * q)
  end.

(** [a + b] *)
Definition add (a b : JsNumber) : JsNumber :=
  match a, b with
  | NaN, _ | _, NaN => NaN
  | Infinity s, Infinity t => if Bool.eqb s t then Infinity s else NaN
  | Infinity s, Finite _ | Finite _, Infinity s => Infinity s
  | Finite p, Finite q => round (p + q)
  end.

Definition opp (a : JsNumber) : JsNumber :=
  match a with
  | NaN => NaN
  | Infinity s => Infinity (negb s)
  | Finite q => Finite (- q)
  end.

(** [a - b] *)
Definition sub (a b : JsNumber) : JsNumber := add a (opp b).

(** [a <= b] *)
Definition le (a b : JsNumber) : bool :=
  match a, b with
  | NaN, _ | _, NaN => false
  | Infinity true, _ | _, Infinity false => true
  | Infinity false, _ | _, Infinity true => false
  | Finite p, Finite q => Qle_bool p q
  end.

(** [a === b] *)
Definition eq (a b : JsNumber) : bool :=
  match a, b with
  | Infinity s, Infinity t => Bool.eqb s t
  | Finite p, Finite q => Qeq_bool p q
  | _, _ => false
  end.

(** [Math.min(a, b)] *)
Definition min (a b : JsNumber) : JsNumber :=
  match a, b with
  | NaN, _ | _, NaN => NaN
  | _, _ => if le a b then a else b
  end.

(** [Math.pow] is the run-time's: the standard fixes its value where an
    argument is [NaN], infinite or zero, and elsewhere only asks for an
    approximation of the power. *)
Class MathLibrary := approximate_pow : JsNumber -> JsNumber -> JsNumber.

(** [Math.pow(base, exponent)]: [NaN] for an exponent that is [NaN],
    [1] for an exponent that is zero, [NaN] for a base that is [NaN],
    and the value of the run-time for the other arguments. *)
Definition pow {math : MathLibrary} (base exponent : JsNumber) : JsNumber :=
  match exponent with
  | NaN => NaN
  | Finite e =>
      if Qeq_bool e 0 then Finite 1
      else match base with
           | NaN => NaN
           | _ => approximate_pow base exponent
           end
  | Infinity _ =>
      match base with
      | NaN => NaN
      | _ => approximate_pow base exponent
      end
  end.

End Double.

(* ===================================================================== *)
(** * The schema library (zod), as far as the schemas of this code base
      use it *)
(* ===================================================================== *)

Module Zod.

(** Schema constructors.  A bound carries the message of the issue it
    raises: the one given in the schema, or the library's default text. *)
Inductive ZodType :=
| ZString (min max : option (nat * string))
| ZNumber (min max : option (Q * string))
| ZBoolean
| ZAny
| ZArray (element : ZodType)
| ZOptional (inner : ZodType)
| ZDefault (inner : ZodType) (value : JsVal)
| ZObject (shape : list (string * ZodType)).

Definition parsed_type (v : JsVal) : string :=
  match v with
  | JUndefined => "undefined"
  | JNull => "null"
  | JBool _ => "boolean"
  | JNum NaN => "nan"
  | JNum _ => "number"
  | JStr _ => "string"
  | JArr _ => "array"
  | JObj _ => "object"
  end.

(** The default message of an [invalid_type] issue. *)
Definition invalid_type (expected : string) (v : JsVal) : string :=
  match v with
  | JUndefined => "Required"
  | _ => "Expected " +:+ expected +:+ ", received " +:+ parsed_type v
  end.

(** [s.length < n] and [s.length > n]; a string is counted in the units
    of its representation. *)
Definition too_short (bound : option (nat * string)) (s : string) : list string :=
  match bound with
  | Some (n, msg) => if (String.length s <? n)%nat then [msg] else []
  | None => []
  end.

Definition too_long (bound : option (nat * string)) (s : string) : list string :=
  match bound with
  | Some (n, msg) => if (n <? String.length s)%nat then [msg] else []
  | None => []
  end.

(** [x < lo] and [x > hi] on numbers other than NaN. *)
Definition number_lt (n : JsNumber) (q : Q) : bool :=
  match n with
  | NaN => false
  | Infinity negative => negative
  | Finite x => negb (Qle_bool q x)
  end.

Definition number_gt (n : JsNumber) (q : Q) : bool :=
  match n with
  | NaN => false
  | Infinity negative => negb negative
  | Finite x => negb (Qle_bool x q)
  end.

Definition too_small (bound : option (Q * string)) (n : JsNumber) : list string :=
  match bound with
  | Some (lo, msg) => if number_lt n lo then [msg] else []
  | None => []
  end.

Definition too_big (bound : option (Q * string)) (n : JsNumber) : list string :=
  match bound with
  | Some (hi, msg) => if number_gt n hi then [msg] else []
  | None => []
  end.

Fixpoint has_field (k : string) (fs : list (string * JsVal)) : bool :=
  match fs with
  | [] => false
  | (k', _) :: rest => String.eqb k k' || has_field k rest
  end.

(** A parsed key is kept when its value is defined or the key was given. *)
Definition keep_key (k : string) (v : JsVal) (fs : list (string * JsVal))
  : list (string * JsVal) :=
  match v with
  | JUndefined => if has_field k fs then [(k, v)] else []
  | _ => [(k, v)]
  end.

(** [schema.safeParse(data)]: the parsed value and the messages of all
    the issues found; the input is valid when there is no issue.  An
    object schema reads its declared keys only, drops the others, and
    collects the issues of every key. *)
Fixpoint parse (t : ZodType) (v : JsVal) {struct t} : JsVal * list string :=
  match t with
  | ZString lo hi =>
      match v with
      | JStr s => (v, too_short lo s ++ too_long hi s)
      | _ => (v, [invalid_type "string" v])
      end
  | ZNumber lo hi =>
      match v with
      | JNum NaN => (v, [invalid_type "number" v])
      | JNum n => (v, too_small lo n ++ too_big hi n)
      | _ => (v, [invalid_type "number" v])
      end
  | ZBoolean =>
      match v with
      | JBool _ => (v, [])
      | _ => (v, [invalid_type "boolean" v])
      end
  | ZAny => (v, [])
  | ZArray element =>
      match v with
      | JArr items =>
          let results := List.map (parse element) items in
          (JArr (List.map fst results), List.concat (List.map snd results))
      | _ => (v, [invalid_type "array" v])
      end
  | ZOptional inner =>
      match v with
      | JUndefined => (JUndefined, [])
      | _ => parse inner v
      end
  | ZDefault inner value =>
      match v with
      | JUndefined => parse inner value
      | _ => parse inner v
      end
  | ZObject shape =>
      match v with
      | JObj fields =>
          let '(out, issues) :=
            (fix keys (sh : list (string * ZodType))
               : list (string * JsVal) * list string :=
               match sh with
               | [] => ([], [])
               | (k, tk) :: rest =>
                   let '(vk, ik) := parse tk (lookup_field k fields) in
                   let '(out, issues) := keys rest in
                   (keep_key k vk fields ++ out, ik ++ issues)
               end) shape in
          (JObj out, issues)
      | _ => (v, [invalid_type "object" v])
      end
  end.

(** [issues.map(e => e.message).join(', ')] *)
Fixpoint join (sep : string) (l : list string) : string :=
  match l with
  | [] => ""
  | [x] => x
  | x :: rest => x +:+ sep +:+ join sep rest
  end.

End Zod.

Import Zod.

(* ===================================================================== *)
(** * common/types.ts *)
(* ===================================================================== *)

(** [messageContentSchema] *)
Definition messageContentSchema : ZodType :=
  ZString (Some (1%nat, "Message content is required"))
          (Some (4000%nat, "Message too long")).

Module IntegrationErrorCodes.
(* Authentication errors *)
Definition AUTHENTICATION_FAILED := "AUTHENTICATION_FAILED".
Definition TOKEN_EXPIRED := "TOKEN_EXPIRED".
Definition INVALID_CREDENTIALS := "INVALID_CREDENTIALS".
Definition INSUFFICIENT_PERMISSIONS := "INSUFFICIENT_PERMISSIONS".
(* API errors *)
Definition API_ERROR := "API_ERROR".
Definition RATE_LIMITED := "RATE_LIMITED".
Definition SERVICE_UNAVAILABLE := "SERVICE_UNAVAILABLE".
(* Validation errors *)
Definition INVALID_REQUEST := "INVALID_REQUEST".
Definition MISSING_REQUIRED_FIELD := "MISSING_REQUIRED_FIELD".
Definition INVALID_FORMAT := "INVALID_FORMAT".
(* Resource errors *)
Definition RESOURCE_NOT_FOUND := "RESOURCE_NOT_FOUND".
Definition RESOURCE_CONFLICT := "RESOURCE_CONFLICT".
(* Configuration errors *)
Definition CONFIGURATION_ERROR := "CONFIGURATION_ERROR".
Definition INTEGRATION_DISABLED := "INTEGRATION_DISABLED".

(** The codes listed under "Validation errors". *)
Definition validation_codes : list string :=
  [INVALID_REQUEST; MISSING_REQUIRED_FIELD; INVALID_FORMAT].
End IntegrationErrorCodes.

Module IntegrationUtils.

(** [validateInput(schema, data)]: the parsed data, or an [Error] whose
    message joins the messages of all the issues. *)
Definition validateInput (schema : ZodType) (data : JsVal) : Res JsVal :=
  match parse schema data with
  | (v, []) => Ok v
  | (_, issues) => Throw (Error ("Validation failed: " +:+ join ", " issues))
  end.

(** ** retry *)

(** What [retry] does to the outside, in order: it invokes [fn] and it
    sleeps ([this.delay(ms)], with the number that it passes). *)
Inductive Event :=
| Invoke
| Sleep (ms : JsNumber).

(** The [options] argument; an absent field takes its default in the
    destructuring.  The fields are numbers, of any kind. *)
Record RetryOptions := {
  maxAttempts : option JsNumber;
  baseDelay : option JsNumber;
  maxDelay : option JsNumber;
  backoffFactor : option JsNumber
}.

Definition no_options : RetryOptions :=
  {| maxAttempts := None; baseDelay := None; maxDelay := None; backoffFactor := None |}.

Section Retry.
(** [fn] is an operation on some state [St] of the outside world: each
    invocation resolves or rejects, and changes the state. *)
Context {math : Double.MathLibrary} {St T : Type}.
Variable fn : St -> Res T * St.
Variable options : RetryOptions.

Definition max_attempts : JsNumber := default (Double.of_Z 3) (maxAttempts options).
Definition base_delay : JsNumber := default (Double.of_Z 1000) (baseDelay options).
Definition max_delay : JsNumber := default (Double.of_Z 10000) (maxDelay options).
Definition backoff_factor : JsNumber := default (Double.of_Z 2) (backoffFactor options).

(** [Math.min(baseDelay * Math.pow(backoffFactor, attempt - 1), maxDelay)] *)
Definition backoff (attempt : JsNumber) : JsNumber :=
  Double.min
    (Double.mul base_delay
       (Double.pow backoff_factor (Double.sub attempt (Double.of_Z 1))))
    max_delay.

(** The [for] loop from its test [attempt <= maxAttempts], together with
    the final [throw lastError].  The loop need not end (with a
    [maxAttempts] that the counter never reaches): [fuel] bounds the
    iterations that are followed, and the result is [None] when they do
    not suffice.  A result carries the final state and the events in the
    order they happened. *)
Fixpoint retry_from (fuel : nat) (attempt : JsNumber) (lastError : JsVal) (s : St)
    (trace : list Event) : option (Res T * St * list Event) :=
  if Double.le attempt max_attempts then
    match fuel with
    | O => None
    | S fuel' =>
        match fn s with
        | (Ok v, s') => Some (Ok v, s', trace ++ [Invoke])
        | (Throw error, s') =>
            if Double.eq attempt max_attempts then
              Some (Throw error, s', trace ++ [Invoke])
            else
              retry_from fuel' (Double.add attempt (Double.of_Z 1)) error s'
                (trace ++ [Invoke; Sleep (backoff attempt)])
        end
    end
  else Some (Throw lastError, s, trace).

(** [retry(fn, options)] *)
Definition retry (fuel : nat) (s : St) : option (Res T * St * list Event) :=
  retry_from fuel (Double.of_Z 1) JUndefined s [].

End Retry.

End IntegrationUtils.

(* ===================================================================== *)
(** * slack/types.ts: SlackTransformer *)
(* ===================================================================== *)

Module SlackTransformer.
Local Open Scope res_scope.

(** [toStandardUser(slackUser)] *)
Definition toStandardUser (slackUser : JsVal) : Res JsVal :=
  let? id := get_prop slackUser "id" in
  let? profile := get_prop slackUser "profile" in
  let? display_name := get_opt profile "display_name" in
  let? name :=
    or_else display_name
      (let? real_name := get_prop slackUser "real_name" in
       or_else real_name (get_prop slackUser "name")) in
  let? profile_email := get_opt profile "email" in
  let? email := or_else profile_email (get_prop slackUser "email") in
  let? profile_image := get_opt profile "image_192" in
  let? avatar := or_else profile_image (get_prop slackUser "image_192") in
  let? presence := get_prop slackUser "presence" in
  let? is_bot := get_prop slackUser "is_bot" in
  let? is_app_user := get_prop slackUser "is_app_user" in
  let? status_text := get_opt profile "status_text" in
  let? status_emoji := get_opt profile "status_emoji" in
  Ok (JObj
        [("id", id);
         ("name", name);
         ("email", email);
         ("avatar", avatar);
         ("status", JStr (if is_string presence "active" then "online" else "offline"));
         ("metadata",
           JObj [("isBot", is_bot);
                 ("isAppUser", is_app_user);
                 ("statusText", status_text);
                 ("statusEmoji", status_emoji)])]).

(** [toStandardChannel(slackChannel)] *)
Definition toStandardChannel (slackChannel : JsVal) : Res JsVal :=
  let? is_im := get_prop slackChannel "is_im" in
  let? type :=
    if truthy is_im then Ok "direct"
    else
      let? is_mpim := get_prop slackChannel "is_mpim" in
      let? group := or_else is_mpim (get_prop slackChannel "is_group") in
      if truthy group then Ok "group"
      else
        let? is_private := get_prop slackChannel "is_private" in
        if truthy is_private then Ok "private" else Ok "public" in
  let? id := get_prop slackChannel "id" in
  let? name := get_prop slackChannel "name" in
  let? purpose := get_prop slackChannel "purpose" in
  let? purpose_value := get_opt purpose "value" in
  let? description :=
    or_else purpose_value
      (let? topic := get_prop slackChannel "topic" in get_opt topic "value") in
  let? num_members := get_prop slackChannel "num_members" in
  let? is_archived := get_prop slackChannel "is_archived" in
  let? is_general := get_prop slackChannel "is_general" in
  let? is_shared := get_prop slackChannel "is_shared" in
  let? is_member := get_prop slackChannel "is_member" in
  Ok (JObj
        [("id", id);
         ("name", name);
         ("description", description);
         ("type", JStr type);
         ("memberCount", num_members);
         ("metadata",
           JObj [("isArchived", is_archived);
                 ("isGeneral", is_general);
                 ("isShared", is_shared);
                 ("isMember", is_member)])]).

(** [array.forEach(f)], with [f] building one element of the result; a
    value that is not an array has no [forEach] method. *)
Fixpoint each (f : JsVal -> Res JsVal) (items : list JsVal) : Res (list JsVal) :=
  match items with
  | [] => Ok []
  | x :: rest => let? y := f x in let? ys := each f rest in Ok (y :: ys)
  end.

(** The attachment that [toStandardMessage] pushes for a file. *)
Definition toAttachment (file : JsVal) : Res JsVal :=
  let? id := get_prop file "id" in
  let? file_name := get_prop file "name" in
  let? name :=
    or_else file_name
      (let? title := get_prop file "title" in or_else title (Ok (JStr "Untitled"))) in
  let? mimetype := get_prop file "mimetype" in
  let? type :=
    or_else mimetype
      (let? filetype := get_prop file "filetype" in or_else filetype (Ok (JStr "unknown"))) in
  let? url_private := get_prop file "url_private" in
  let? url :=
    or_else url_private
      (let? permalink := get_prop file "permalink" in or_else permalink (Ok (JStr ""))) in
  let? size := get_prop file "size" in
  let? pretty_type := get_prop file "pretty_type" in
  let? thumb_64 := get_prop file "thumb_64" in
  let? thumb_360 := get_prop file "thumb_360" in
  Ok (JObj
        [("id", id);
         ("name", name);
         ("type", type);
         ("url", url);
         ("size", size);
         ("metadata",
           JObj [("prettyType", pretty_type);
                 ("thumb64", thumb_64);
                 ("thumb360", thumb_360)])]).

Section Message.
(** [new Date(parseFloat(ts) * 1000).toISOString()] is left to the
    run-time: from the value of [ts] it gives a string, or throws a
    RangeError when the date is invalid. *)
Variable toISOString : JsVal -> Res JsVal.

(** [toStandardMessage(slackMessage, user, channel)] *)
Definition toStandardMessage (slackMessage user channel : JsVal) : Res JsVal :=
  let? files := get_prop slackMessage "files" in
  let? attachments :=
    if truthy files then
      match files with
      | JArr items => each toAttachment items
      | _ => Throw (TypeError "slackMessage.files.forEach is not a function")
      end
    else Ok [] in
  let? ts := get_prop slackMessage "ts" in
  let? text := get_prop slackMessage "text" in
  let? timestamp := toISOString ts in
  let? thread_ts := get_prop slackMessage "thread_ts" in
  let? reply_count := get_prop slackMessage "reply_count" in
  let? reactions := get_prop slackMessage "reactions" in
  let? subtype := get_prop slackMessage "subtype" in
  Ok (JObj
        [("id", ts);
         ("content", text);
         ("sender", user);
         ("channel", channel);
         ("timestamp", timestamp);
         ("type", JStr "text");
         ("attachments", JArr attachments);
         ("metadata",
           JObj [("threadTs", thread_ts);
                 ("replyCount", reply_count);
                 ("reactions", reactions);
                 ("subtype", subtype)])]).

End Message.

End SlackTransformer.

(* ===================================================================== *)
(** * The world around an adapter *)
(* ===================================================================== *)

Module Runtime.

(** The two entry points of the connector SDK that the adapter uses:
    [nango.proxy(config)] and
    [nango.triggerAction(providerConfigKey, connectionId, actionName, input)]. *)
Inductive ExternalCall :=
| Proxy (config : JsVal)
| TriggerAction (providerConfigKey connectionId actionName input : JsVal).

(** Everything an operation reads or changes besides its arguments: the
    adapter's [config] field, the external calls issued so far (oldest
    first), how the SDK answers a call given the calls before it ([Ok]:
    the promise resolves, [Throw]: it rejects), the wall clock as read by
    successive [new Date().toISOString()], [process.env.NODE_ENV] and the
    text of [new Error().stack]. *)
Record World := {
  this_config : JsVal;
  calls : list ExternalCall;
  nango : list ExternalCall -> ExternalCall -> Res JsVal;
  clock : nat -> string;
  ticks : nat;
  NODE_ENV : JsVal;
  stack_trace : JsVal
}.

Definition with_config (c : JsVal) (w : World) : World :=
  {| this_config := c; calls := calls w; nango := nango w; clock := clock w;
     ticks := ticks w; NODE_ENV := NODE_ENV w; stack_trace := stack_trace w |}.

Definition with_calls (cs : list ExternalCall) (w : World) : World :=
  {| this_config := this_config w; calls := cs; nango := nango w; clock := clock w;
     ticks := ticks w; NODE_ENV := NODE_ENV w; stack_trace := stack_trace w |}.

Definition with_ticks (n : nat) (w : World) : World :=
  {| this_config := this_config w; calls := calls w; nango := nango w; clock := clock w;
     ticks := n; NODE_ENV := NODE_ENV w; stack_trace := stack_trace w |}.

(** Computations that read and change the world and may throw. *)
Definition M (A : Type) : Type := World -> Res A * World.

Definition ret {A} (a : A) : M A := fun w => (Ok a, w).

Definition throw {A} (e : JsVal) : M A := fun w => (Throw e, w).

Definition mbind {A B} (m : M A) (k : A -> M B) : M B :=
  fun w =>
    match m w with
    | (Ok a, w') => k a w'
    | (Throw e, w') => (Throw e, w')
    end.

Definition lift {A} (r : Res A) : M A := fun w => (r, w).

(** [try { body } catch (error) { handler }] *)
Definition try_catch {A} (body : M A) (handler : JsVal -> M A) : M A :=
  fun w =>
    match body w with
    | (Ok a, w') => (Ok a, w')
    | (Throw error, w') => handler error w'
    end.

Definition get_config : M JsVal := fun w => (Ok (this_config w), w).

Definition set_config (c : JsVal) : M unit := fun w => (Ok tt, with_config c w).

(** An awaited SDK call: it is recorded, and answered by the SDK. *)
Definition external (c : ExternalCall) : M JsVal :=
  fun w => (nango w (calls w) c, with_calls (calls w ++ [c]) w).

(** [new Date().toISOString()]: the next reading of the clock. *)
Definition read_clock (w : World) : string * World :=
  (clock w (ticks w), with_ticks (S (ticks w)) w).

Definition now : M string :=
  fun w => let '(t, w') := read_clock w in (Ok t, w').

End Runtime.

Import Runtime.

Declare Scope m_scope.
Delimit Scope m_scope with M.
Notation "'let!' x ':=' m 'in' k" := (mbind m (fun x => k))
  (at level 10, x name, m at level 100, k at level 200) : m_scope.
Notation "m ';;' k" := (mbind m (fun _ => k))
  (at level 100, k at level 200, right associativity) : m_scope.

(* ===================================================================== *)
(** * common/base-integration.ts *)
(* ===================================================================== *)

Record IntegrationError := {
  code : string;
  message : string;
  details : JsVal;
  stack : JsVal
}.

Record ResponseMeta := {
  timestamp : string;
  integration : string;
  version : string
}.

(** [IntegrationResponse<T>]; an absent [data] is [undefined], an absent
    [error] is [None]. *)
Record IntegrationResponse := {
  success : bool;
  data : JsVal;
  error : option IntegrationError;
  meta : ResponseMeta
}.

Inductive HealthStatus := healthy | degraded | unhealthy.

Record HealthChecks := {
  authentication : bool;
  apiAccess : bool;
  permissions : bool
}.

Record IntegrationHealthCheck := {
  status : HealthStatus;
  health_timestamp : string;
  checks : HealthChecks;
  health_details : JsVal
}.

(** The data members of the [BaseIntegration] interface. *)
Record BaseIntegration := {
  id : string;
  name : string;
  description : string;
  integration_version : string;
  enabled : bool
}.

Module BaseIntegrationClass.
Local Open Scope m_scope.

Section This.
(** [this.id] and [this.version] *)
Variable this_id this_version : string.

(** [createResponse(data?, error?)] *)
Definition createResponse (data : JsVal) (error : option IntegrationError)
  : M IntegrationResponse :=
  let! timestamp := now in
  ret {| success := match error with Some _ => false | None => true end;
         data := match error with Some _ => JUndefined | None => data end;
         error := error;
         meta := {| timestamp := timestamp;
                    integration := this_id;
                    version := this_version |} |}.

(** [createError(code, message, details?)] *)
Definition createError (code message : string) (details : JsVal) : M IntegrationError :=
  fun w =>
    (Ok {| code := code;
           message := message;
           details := details;
           stack := if is_string (NODE_ENV w) "development"
                    then stack_trace w else JUndefined |}, w).

End This.
End BaseIntegrationClass.

(* ===================================================================== *)
(** * common/index.ts: IntegrationRegistry *)
(* ===================================================================== *)

Module IntegrationRegistry.

(** The [integrations] map of the registry instance. *)
Abbreviation integrations := (gmap string BaseIntegration).

(** [register(integration)] *)
Definition register (integration : BaseIntegration) (this : integrations)
  : Res unit * integrations :=
  if bool_decide (is_Some (this !! id integration)) then
    (Throw (Error ("Integration " +:+ id integration +:+ " is already registered")), this)
  else
    (Ok tt, <[id integration := integration]> this).

(** [get(id)] *)
Definition get (i : string) (this : integrations) : option BaseIntegration :=
  this !! i.

(** [unregister(id)]: [Map.delete] tells whether the key was present. *)
Definition unregister (i : string) (this : integrations) : bool * integrations :=
  (bool_decide (is_Some (this !! i)), delete i this).

(** [has(id)] *)
Definition has (i : string) (this : integrations) : bool :=
  bool_decide (is_Some (this !! i)).

End IntegrationRegistry.

(* ===================================================================== *)
(** * slack/types.ts: configuration and request schemas *)
(* ===================================================================== *)

Definition z_string : ZodType := ZString None None.

Definition SlackConfigSchema : ZodType :=
  ZObject
    [("nangoConnectionId", ZString (Some (1%nat, "Nango connection ID is required")) None);
     ("botToken", ZOptional z_string);
     ("appToken", ZOptional z_string);
     ("signingSecret", ZOptional z_string);
     ("defaultChannel", ZOptional z_string)].

Definition SendMessageSchema : ZodType :=
  ZObject
    [("channel", ZString (Some (1%nat, "Channel is required")) None);
     ("text", ZString (Some (1%nat, "Message text is required")) None);
     ("thread_ts", ZOptional z_string);
     ("reply_broadcast", ZOptional ZBoolean);
     ("username", ZOptional z_string);
     ("icon_emoji", ZOptional z_string);
     ("icon_url", ZOptional z_string);
     ("attachments", ZOptional (ZArray ZAny));
     ("blocks", ZOptional (ZArray ZAny))].

(** [z.number().min(1).max(1000).optional().default(100)] *)
Definition limit_schema : ZodType :=
  ZDefault
    (ZOptional
       (ZNumber (Some (1%Q, "Number must be greater than or equal to 1"))
                (Some (1000%Q, "Number must be less than or equal to 1000"))))
    (num 100).

Definition GetUsersSchema : ZodType :=
  ZObject
    [("cursor", ZOptional z_string);
     ("limit", limit_schema);
     ("include_locale", ZOptional ZBoolean)].

Definition GetChannelsSchema : ZodType :=
  ZObject
    [("cursor", ZOptional z_string);
     ("limit", limit_schema);
     ("exclude_archived", ZDefault (ZOptional ZBoolean) (JBool true));
     ("types", ZDefault (ZOptional z_string) (JStr "public_channel,private_channel"))].

Definition GetUserInfoSchema : ZodType :=
  ZObject
    [("user", ZString (Some (1%nat, "User ID is required")) None);
     ("include_locale", ZOptional ZBoolean)].

(* ===================================================================== *)
(** * slack/service.ts: SlackService *)
(* ===================================================================== *)

Module SlackService.
Import IntegrationErrorCodes IntegrationUtils.
Local Open Scope m_scope.

Definition id : string := "slack".
Definition version : string := "1.0.0".
Definition configSchema : ZodType := SlackConfigSchema.

Definition createResponse := BaseIntegrationClass.createResponse id version.
Definition createError := BaseIntegrationClass.createError.

(** [array.map(f)]: a value that is not an array has no [map] method. *)
Fixpoint map_items (f : JsVal -> Res JsVal) (items : list JsVal) : Res (list JsVal) :=
  match items with
  | [] => Ok []
  | x :: rest =>
      bind (f x) (fun y => bind (map_items f rest) (fun ys => Ok (y :: ys)))
  end.

Definition js_map (what : string) (f : JsVal -> Res JsVal) (v : JsVal) : Res JsVal :=
  match v with
  | JArr items => bind (map_items f items) (fun ys => Ok (JArr ys))
  | _ => Throw (TypeError (what +:+ ".map is not a function"))
  end.

(** The [switch (response.error)] of [sendMessage]. *)
Definition suggestion_for (error : JsVal) : string :=
  if is_string error "not_in_channel" then
    "You are not a member of this channel. Please join the channel first."
  else if is_string error "channel_not_found" then
    "The specified channel does not exist or you do not have access to it."
  else if is_string error "access_denied" then
    "You do not have permission to post messages to this channel. Check your channel permissions."
  else if is_string error "account_inactive" then
    "Your Slack account or workspace is inactive."
  else if is_string error "token_expired" then
    "Your authentication token has expired. Please reconnect the integration."
  else if is_string error "restricted_action" then
    "Message posting is restricted in this channel. Contact your workspace admin."
  else
    "Please check the channel ID and ensure you have access to post messages.".

(** [constructor(nangoSecretKey)]: [super()], then
    [this.nango = new Nango({ secretKey: nangoSecretKey })].  The SDK is
    not part of the repository: its constructor refuses a missing key,
    a falsy [secretKey], by throwing, and what it throws is the SDK's.
    The new service has no [config] yet. *)
Class Sdk := missing_secret_key : JsVal.

Definition new_SlackService {sdk : Sdk} (nangoSecretKey : JsVal) : Res unit :=
  if truthy nangoSecretKey then Ok tt else Throw missing_secret_key.

(** The operations; what they print with [console.log] and
    [console.warn] is not part of the model. *)
Section Operations.
Context {printer : NumberPrinter}.

(** [makeApiCall(endpoint, data?, method = 'POST')] *)
Definition makeApiCall (endpoint : string) (data : JsVal) (method : string) : M JsVal :=
  let! config := get_config in
  if negb (truthy config) then throw (Error "Integration not initialized")
  else
    try_catch
      (let! connectionId := lift (get_prop config "nangoConnectionId") in
       let! response :=
         external
           (Proxy (JObj [("endpoint", JStr endpoint);
                         ("method", JStr method);
                         ("data", data);
                         ("connectionId", connectionId);
                         ("providerConfigKey", JStr "slack")])) in
       lift (get_prop response "data"))
      (fun error =>
         (* [error.response?.status], read again by each test *)
         let! response := lift (get_prop error "response") in
         let! status := lift (get_opt response "status") in
         if is_number status 401 then
           throw (Error "Authentication failed - token may be expired")
         else if is_number status 403 then
           throw (Error "Insufficient permissions")
         else if is_number status 429 then
           throw (Error "Rate limit exceeded")
         else
           let! message := lift (get_prop error "message") in
           throw (Error ("API call failed: " +:+ to_string message))).

Definition no_checks : HealthChecks :=
  {| authentication := false; apiAccess := false; permissions := false |}.

(** The [catch] block of [testConnection], entered with the [checks]
    object as it is when the error is thrown. *)
Definition testConnection_catch (checks : HealthChecks) (error : JsVal)
  : M IntegrationHealthCheck :=
  let! timestamp := now in
  let! message := lift (get_prop error "message") in
  ret {| status := unhealthy;
         health_timestamp := timestamp;
         checks := checks;
         health_details := JObj [("error", message)] |}.

(** [testConnection()].  The [checks] object is updated in place in the
    source; here each step passes its current value on, also to the
    [catch] block. *)
Definition testConnection : M IntegrationHealthCheck :=
  fun w =>
    let checks := no_checks in
    if negb (truthy (this_config w)) then
      testConnection_catch checks (Error "Integration not initialized") w
    else
      match makeApiCall "/auth.test" JUndefined "POST" w with
      | (Throw error, w) => testConnection_catch checks error w
      | (Ok response, w) =>
          match get_prop response "ok" with
          | Throw error => testConnection_catch checks error w
          | Ok ok =>
              let '(checks, w) :=
                if truthy ok then
                  let checks :=
                    {| authentication := true; apiAccess := true;
                       permissions := permissions checks |} in
                  match makeApiCall "/conversations.list"
                          (JObj [("limit", num 1)]) "POST" w with
                  | (Ok _, w) =>
                      ({| authentication := authentication checks;
                          apiAccess := apiAccess checks;
                          permissions := true |}, w)
                  | (Throw permError, w) => (checks, w)
                  end
                else (checks, w) in
              let allHealthy :=
                authentication checks && apiAccess checks && permissions checks in
              let '(timestamp, w) := read_clock w in
              match get_prop (this_config w) "nangoConnectionId" with
              | Throw error => testConnection_catch checks error w
              | Ok connectionId =>
                  (Ok {| status := if allHealthy then healthy
                                   else if authentication checks then degraded
                                   else unhealthy;
                         health_timestamp := timestamp;
                         checks := checks;
                         health_details := JObj [("connectionId", connectionId)] |}, w)
              end
          end
      end.

(** [initialize(config)] *)
Definition initialize (config : JsVal) : M unit :=
  try_catch
    (let! validated := lift (validateInput configSchema config) in
     set_config validated ;;
     (* Test the connection during initialization *)
     let! _ := testConnection in
     ret tt)
    (fun error =>
       let! message := lift (get_prop error "message") in
       throw (Error ("Failed to initialize Slack integration: " +:+ to_string message))).

(** The [catch] block shared, up to the message prefix, by the four
    operations. *)
Definition operation_catch (prefix : string) (error : JsVal) : M IntegrationResponse :=
  let! message := lift (get_prop error "message") in
  let! e := createError API_ERROR (prefix +:+ to_string message) JUndefined in
  createResponse JUndefined (Some e).

Definition require_config : M JsVal :=
  let! config := get_config in
  if negb (truthy config) then throw (Error "Integration not initialized")
  else ret config.

(** [sendMessage(request, authContext)] *)
Definition sendMessage (request authContext : JsVal) : M IntegrationResponse :=
  try_catch
    (let! validatedRequest := lift (validateInput SendMessageSchema request) in
     let! _ := require_config in
     let! config := require_config in
     let! connectionId := lift (get_prop config "nangoConnectionId") in
     let! channel := lift (get_prop validatedRequest "channel") in
     let! text := lift (get_prop validatedRequest "text") in
     let! response :=
       external
         (TriggerAction (JStr "slack") connectionId (JStr "send-message")
            (JObj [("channel", channel); ("text", text)])) in
     let! ok := lift (get_prop response "ok") in
     if negb (truthy ok) then
       let! response_error := lift (get_prop response "error") in
       let! shown := lift (or_else response_error (Ok (JStr "Unknown error"))) in
       let errorMessage := "Failed to send message: " +:+ to_string shown in
       let suggestions := suggestion_for response_error in
       let errorMessage :=
         if truthy (JStr suggestions) then errorMessage +:+ " " +:+ suggestions
         else errorMessage in
       let! raw_json := lift (get_prop response "raw_json") in
       let! e :=
         createError API_ERROR errorMessage
           (JObj [("slackError", response_error);
                  ("suggestions", JStr suggestions);
                  ("errorType", response_error);
                  ("rawResponse", raw_json)]) in
       createResponse JUndefined (Some e)
     else
       let! ts := lift (get_prop response "ts") in
       let! messageId := lift (or_else ts (Ok (JStr ""))) in
       let! timestamp := lift (or_else ts (Ok (JStr ""))) in
       createResponse (JObj [("messageId", messageId); ("timestamp", timestamp)]) None)
    (operation_catch "Failed to send message: ").

(** [getUserInfo(request, authContext)] *)
Definition getUserInfo (request authContext : JsVal) : M IntegrationResponse :=
  try_catch
    (let! validatedRequest := lift (validateInput GetUserInfoSchema request) in
     let! response := makeApiCall "/users.info" validatedRequest "POST" in
     let! ok := lift (get_prop response "ok") in
     let! user := if truthy ok then lift (get_prop response "user") else ret JUndefined in
     if negb (truthy ok) || negb (truthy user) then
       let! response_error := lift (get_prop response "error") in
       let! e :=
         createError RESOURCE_NOT_FOUND ("User not found: " +:+ to_string response_error)
           (JObj [("slackError", response_error)]) in
       createResponse JUndefined (Some e)
     else
       let! standardUser := lift (SlackTransformer.toStandardUser user) in
       createResponse standardUser None)
    (operation_catch "Failed to get user info: ").

(** A parameter default: [request = {}] *)
Definition default_request (request : JsVal) : JsVal :=
  match request with
  | JUndefined => JObj []
  | _ => request
  end.

(** [getUsers(request = {}, authContext)] *)
Definition getUsers (request authContext : JsVal) : M IntegrationResponse :=
  let request := default_request request in
  try_catch
    (let! validatedRequest := lift (validateInput GetUsersSchema request) in
     let! response := makeApiCall "/users.list" validatedRequest "POST" in
     let! ok := lift (get_prop response "ok") in
     let! members := if truthy ok then lift (get_prop response "members") else ret JUndefined in
     if negb (truthy ok) || negb (truthy members) then
       let! response_error := lift (get_prop response "error") in
       let! e :=
         createError API_ERROR ("Failed to fetch users: " +:+ to_string response_error)
           (JObj [("slackError", response_error)]) in
       createResponse JUndefined (Some e)
     else
       let! standardUsers :=
         lift (js_map "response.members" SlackTransformer.toStandardUser members) in
       let! response_metadata := lift (get_prop response "response_metadata") in
       let! nextCursor := lift (get_opt response_metadata "next_cursor") in
       createResponse (JObj [("users", standardUsers); ("nextCursor", nextCursor)]) None)
    (operation_catch "Failed to fetch users: ").

(** [getChannels(request = {}, authContext)] *)
Definition getChannels (request authContext : JsVal) : M IntegrationResponse :=
  let request := default_request request in
  try_catch
    (let! validatedRequest := lift (validateInput GetChannelsSchema request) in
     let! response := makeApiCall "/conversations.list" validatedRequest "POST" in
     let! ok := lift (get_prop response "ok") in
     let! channels := if truthy ok then lift (get_prop response "channels") else ret JUndefined in
     if negb (truthy ok) || negb (truthy channels) then
       let! response_error := lift (get_prop response "error") in
       let! e :=
         createError API_ERROR ("Failed to fetch channels: " +:+ to_string response_error)
           (JObj [("slackError", response_error)]) in
       createResponse JUndefined (Some e)
     else
       let! standardChannels :=
         lift (js_map "response.channels" SlackTransformer.toStandardChannel channels) in
       let! response_metadata := lift (get_prop response "response_metadata") in
       let! nextCursor := lift (get_opt response_metadata "next_cursor") in
       createResponse (JObj [("channels", standardChannels); ("nextCursor", nextCursor)]) None)
    (operation_catch "Failed to fetch channels: ").

End Operations.
End SlackService.

(* ===================================================================== *)
(** * slack/index.ts *)
(* ===================================================================== *)

Module SlackIndex.

(** [createSlackIntegration(nangoSecretKey)]: a new service, registered
    with the registry.  Of the service the registry sees the members of
    [BaseIntegration]. *)
Definition createSlackIntegration {sdk : SlackService.Sdk} (nangoSecretKey : JsVal)
    (registry : IntegrationRegistry.integrations)
  : Res BaseIntegration * IntegrationRegistry.integrations :=
  match SlackService.new_SlackService nangoSecretKey with
  | Throw e => (Throw e, registry)
  | Ok _ =>
      let slackService :=
        {| id := "slack"; name := "Slack";
           description := "Send messages, fetch users, and manage channels in Slack";
           integration_version := "1.0.0"; enabled := true |} in
      match IntegrationRegistry.register slackService registry with
      | (Ok _, registry') => (Ok slackService, registry')
      | (Throw e, registry') => (Throw e, registry')
      end
  end.

End SlackIndex.

(* ===================================================================== *)
(** * app/api/integrations/slack/*/route.ts: the POST handlers *)
(* ===================================================================== *)

Module Routes.
Import IntegrationErrorCodes.
Local Open Scope m_scope.

(** What a handler passes to [NextResponse.json]: the envelope of the
    adapter, a literal [{success: false, error: {code, message,
    details}}], or the literal [{success: true, data: healthCheck,
    meta}] of the health route. *)
Inductive ResponseBody :=
| AdapterResult (result : IntegrationResponse)
| Failure (code message : string) (details : JsVal)
| HealthResult (healthCheck : IntegrationHealthCheck) (meta : ResponseMeta).

Record HttpResponse := {
  http_status : Z;
  http_body : ResponseBody
}.

(** The rest of an object destructuring, [{k1, ..., ...rest} = body].
    A body that is not an object has none of the named keys, and the
    handlers answer it before they use the rest. *)
Definition rest_of (keys : list string) (body : JsVal) : JsVal :=
  match body with
  | JObj fs =>
      JObj (List.filter (fun kv => negb (List.existsb (String.eqb (fst kv)) keys)) fs)
  | _ => JObj []
  end.

(** [{ user, ...queryParams }] *)
Definition with_user (user queryParams : JsVal) : JsVal :=
  match queryParams with
  | JObj fs => JObj (("user", user) :: fs)
  | _ => JObj [("user", user)]
  end.

(** [result.error?.code === c] *)
Definition error_code_is (result : IntegrationResponse) (c : string) : bool :=
  match error result with
  | Some e => String.eqb (code e) c
  | None => false
  end.

Definition missing_field (message : string) : HttpResponse :=
  {| http_status := 400;
     http_body := Failure MISSING_REQUIRED_FIELD message JUndefined |}.

Definition authContext : JsVal :=
  JObj [("userId", JStr "system"); ("accessToken", JStr "")].

(** [const { k, ... } = body]: destructuring [undefined] or [null]
    throws a TypeError, with the message of V8. *)
Definition destructure (body : JsVal) (k : string) : Res JsVal :=
  if nullish body then
    Throw (TypeError ("Cannot destructure property '" +:+ k +:+ "' of 'body' as it is "
                        +:+ describe body +:+ "."))
  else Ok (prop body k).

Section Handlers.
Context {printer : NumberPrinter} {sdk : SlackService.Sdk}.
(** [process.env.NANGO_SECRET_KEY] *)
Variable NANGO_SECRET_KEY : JsVal.

(** [getSlackService()]: a new [SlackService], whose [config] is not
    set yet. *)
Definition getSlackService : M unit :=
  if negb (truthy NANGO_SECRET_KEY) then
    throw (Error "NANGO_SECRET_KEY environment variable is required")
  else
    lift (SlackService.new_SlackService NANGO_SECRET_KEY) ;;
    set_config JUndefined.

(** The [catch] block of a handler. *)
Definition internal_error (failure : string) (error : JsVal) : M HttpResponse :=
  fun w =>
    if is_string (NODE_ENV w) "development" then
      match get_prop error "message" with
      | Ok message =>
          (Ok {| http_status := 500;
                 http_body := Failure API_ERROR failure (JObj [("error", message)]) |}, w)
      | Throw e => (Throw e, w)
      end
    else
      (Ok {| http_status := 500; http_body := Failure API_ERROR failure (JObj []) |}, w).

(** [POST] of [users/route.ts]; [request_json] is the outcome of
    [request.json()]. *)
Definition users_POST (request_json : Res JsVal) : M HttpResponse :=
  try_catch
    (let! body := lift request_json in
     let! nangoConnectionId := lift (destructure body "nangoConnectionId") in
     let queryParams := rest_of ["nangoConnectionId"] body in
     if negb (truthy nangoConnectionId) then
       ret (missing_field "nangoConnectionId is required")
     else
       getSlackService ;;
       SlackService.initialize (JObj [("nangoConnectionId", nangoConnectionId)]) ;;
       let! result := SlackService.getUsers queryParams authContext in
       if negb (success result) then
         ret {| http_status :=
                  if error_code_is result AUTHENTICATION_FAILED then 401 else 400;
                http_body := AdapterResult result |}
       else
         ret {| http_status := 200; http_body := AdapterResult result |})
    (internal_error "Internal server error").

(** [POST] of [channels/route.ts] *)
Definition channels_POST (request_json : Res JsVal) : M HttpResponse :=
  try_catch
    (let! body := lift request_json in
     let! nangoConnectionId := lift (destructure body "nangoConnectionId") in
     let queryParams := rest_of ["nangoConnectionId"] body in
     if negb (truthy nangoConnectionId) then
       ret (missing_field "nangoConnectionId is required")
     else
       getSlackService ;;
       SlackService.initialize (JObj [("nangoConnectionId", nangoConnectionId)]) ;;
       let! result := SlackService.getChannels queryParams authContext in
       if negb (success result) then
         ret {| http_status :=
                  if error_code_is result AUTHENTICATION_FAILED then 401 else 400;
                http_body := AdapterResult result |}
       else
         ret {| http_status := 200; http_body := AdapterResult result |})
    (internal_error "Internal server error").

(** [POST] of [user-info/route.ts] *)
Definition user_info_POST (request_json : Res JsVal) : M HttpResponse :=
  try_catch
    (let! body := lift request_json in
     let! nangoConnectionId := lift (destructure body "nangoConnectionId") in
     let! user := lift (destructure body "user") in
     let queryParams := rest_of ["nangoConnectionId"; "user"] body in
     if negb (truthy nangoConnectionId) then
       ret (missing_field "nangoConnectionId is required")
     else if negb (truthy user) then
       ret (missing_field "user ID is required")
     else
       getSlackService ;;
       SlackService.initialize (JObj [("nangoConnectionId", nangoConnectionId)]) ;;
       let! result := SlackService.getUserInfo (with_user user queryParams) authContext in
       if negb (success result) then
         ret {| http_status :=
                  if error_code_is result AUTHENTICATION_FAILED then 401
                  else if error_code_is result RESOURCE_NOT_FOUND then 404
                  else 400;
                http_body := AdapterResult result |}
       else
         ret {| http_status := 200; http_body := AdapterResult result |})
    (internal_error "Internal server error").

(** [POST] of [health/route.ts] *)
Definition health_POST (request_json : Res JsVal) : M HttpResponse :=
  try_catch
    (let! body := lift request_json in
     let! nangoConnectionId := lift (destructure body "nangoConnectionId") in
     if negb (truthy nangoConnectionId) then
       ret (missing_field "nangoConnectionId is required")
     else
       getSlackService ;;
       SlackService.initialize (JObj [("nangoConnectionId", nangoConnectionId)]) ;;
       let! healthCheck := SlackService.testConnection in
       let! timestamp := now in
       ret {| http_status := 200;
              http_body :=
                HealthResult healthCheck
                  (Build_ResponseMeta timestamp "slack" "1.0.0") |})
    (internal_error "Health check failed").

End Handlers.
End Routes.

(* ===================================================================== *)
(** * The frontend utilities: SlackErrorHandler and RetryManager *)
(* ===================================================================== *)

Module SlackErrorHandler.
Local Open Scope res_scope.

(** [list.includes(v)] for a list of string literals. *)
Definition includes (list : list string) (v : JsVal) : bool :=
  List.existsb (is_string v) list.

(** [getErrorMessage(error)] *)
Definition getErrorMessage (error : JsVal) : JsVal :=
  match error with
  | JStr _ => error
  | _ =>
      if truthy (opt (opt error "error") "message") then prop (prop error "error") "message"
      else if truthy (opt error "message") then prop error "message"
      else JStr "An unknown error occurred"
  end.

(** [getErrorCode(error)] *)
Definition getErrorCode (error : JsVal) : JsVal :=
  if truthy (opt (opt error "error") "code") then prop (prop error "error") "code"
  else JStr "UNKNOWN_ERROR".

(** The receiver of a static method that reads [this]: the class in
    [SlackErrorHandler.m(error)], and [undefined] when the function is
    called detached from the class (class bodies are strict code), as
    the default [shouldRetry] of [withRetry] is. *)
Inductive Receiver := TheClass | Detached.

(** [this.getErrorCode(error)] *)
Definition this_getErrorCode (this : Receiver) (error : JsVal) : Res JsVal :=
  match this with
  | TheClass => Ok (getErrorCode error)
  | Detached => get_prop JUndefined "getErrorCode"
  end.

(** [isConnectionError(error)] *)
Definition isConnectionError (this : Receiver) (error : JsVal) : Res bool :=
  let? code := this_getErrorCode this error in
  Ok (includes ["AUTHENTICATION_FAILED"; "TOKEN_EXPIRED"; "INSUFFICIENT_PERMISSIONS"] code).

(** [shouldRetry(error)] *)
Definition shouldRetry (this : Receiver) (error : JsVal) : Res bool :=
  let? code := this_getErrorCode this error in
  Ok (includes ["RATE_LIMITED"; "SERVICE_UNAVAILABLE"; "API_ERROR"] code).

End SlackErrorHandler.

Module RetryManager.
Import IntegrationUtils.

(** The [options] of [withRetry]: those of [retry], and the predicate
    [shouldRetry], which may throw. *)
Record Options := {
  backoff_options : RetryOptions;
  shouldRetry : option (JsVal -> Res bool)
}.

Section WithRetry.
Context {math : Double.MathLibrary} {St T : Type}.
Variable fn : St -> Res T * St.
Variable options : Options.

(** [shouldRetry = SlackErrorHandler.shouldRetry]: the default is the
    method taken off its class. *)
Definition should_retry : JsVal -> Res bool :=
  default (SlackErrorHandler.shouldRetry SlackErrorHandler.Detached) (shouldRetry options).

(** The [for] loop of [withRetry] and the final [throw lastError], with
    the [fuel] of [retry]; what [shouldRetry] throws inside the [catch]
    block leaves the loop. *)
Fixpoint withRetry_from (fuel : nat) (attempt : JsNumber) (lastError : JsVal) (s : St)
    (trace : list Event) : option (Res T * St * list Event) :=
  if Double.le attempt (max_attempts (backoff_options options)) then
    match fuel with
    | O => None
    | S fuel' =>
        match fn s with
        | (Ok v, s') => Some (Ok v, s', trace ++ [Invoke])
        | (Throw error, s') =>
            if Double.eq attempt (max_attempts (backoff_options options)) then
              Some (Throw error, s', trace ++ [Invoke])
            else
              match should_retry error with
              | Throw e => Some (Throw e, s', trace ++ [Invoke])
              | Ok false => Some (Throw error, s', trace ++ [Invoke])
              | Ok true =>
                  withRetry_from fuel' (Double.add attempt (Double.of_Z 1)) error s'
                    (trace ++ [Invoke; Sleep (backoff (backoff_options options) attempt)])
              end
        end
    end
  else Some (Throw lastError, s, trace).

(** [withRetry(fn, options)] *)
Definition withRetry (fuel : nat) (s : St) : option (Res T * St * list Event) :=
  withRetry_from fuel (Double.of_Z 1) JUndefined s [].

End WithRetry.
End RetryManager.

(* ===================================================================== *)
(** * Vocabulary of the specification *)
(* ===================================================================== *)

Import IntegrationErrorCodes IntegrationUtils.

(** An envelope is well formed when exactly one of [data] and [error] is
    populated, in agreement with [success]. *)
Definition well_formed (r : IntegrationResponse) : Prop :=
  (success r = true -> data r <> JUndefined /\ error r = None) /\
  (success r = false -> error r <> None /\ data r = JUndefined).

(** The four public operations of the adapter. *)
Inductive Operation := SendMessage | GetUserInfo | GetUsers | GetChannels.

Definition run {printer : NumberPrinter} (op : Operation) : JsVal -> JsVal -> M IntegrationResponse :=
  match op with
  | SendMessage => SlackService.sendMessage
  | GetUserInfo => SlackService.getUserInfo
  | GetUsers => SlackService.getUsers
  | GetChannels => SlackService.getChannels
  end.

(** The call that [sendMessage] issues for a validated request. *)
Definition send_call (validatedRequest : JsVal) (w : World) : ExternalCall :=
  TriggerAction (JStr "slack") (prop (this_config w) "nangoConnectionId")
    (JStr "send-message")
    (JObj [("channel", prop validatedRequest "channel");
           ("text", prop validatedRequest "text")]).

(** A number outside the interval [1, 1000]. *)
Definition outside_limits (n : JsNumber) : Prop :=
  match n with
  | Finite q => (q < 1 \/ 1000 < q)%Q
  | _ => True
  end.

(** The malformed inputs of the specification: a message text of length
    0, a pagination limit outside [1, 1000]. *)
Definition malformed (op : Operation) (request : JsVal) : Prop :=
  match op with
  | SendMessage =>
      exists text, prop request "text" = JStr text /\ String.length text = 0%nat
  | GetUsers | GetChannels =>
      exists n, prop request "limit" = JNum n /\ outside_limits n
  | GetUserInfo => False
  end.





(** ** The worlds of the scenarios *)

(** A printer of numbers for the scenarios: integers in decimal, the
    other rationals as a fraction. *)
Definition sample_printer : NumberPrinter :=
  fun n =>
    match n with
    | NaN => "NaN"
    | Infinity negative => if negative then "-Infinity" else "Infinity"
    | Finite q =>
        match Qden q with
        | 1%positive => pretty (Qnum q)
        | d => pretty (Qnum q) +:+ "/" +:+ pretty (Zpos d)
        end
    end.

Definition sample_config : JsVal := JObj [("nangoConnectionId", JStr "conn-1")].

(** A world with the given SDK behaviour and adapter configuration, and
    no call issued yet. *)
Definition world (sdk : list ExternalCall -> ExternalCall -> Res JsVal) (config : JsVal)
  : World :=
  {| this_config := config; calls := []; nango := sdk;
     clock := fun _ => "2024-01-01T00:00:00.000Z"; ticks := 0;
     NODE_ENV := JStr "production"; stack_trace := JUndefined |}.

(** The SDK rejects every call with an HTTP status. *)
Definition sdk_rejects (http_status : Z) : list ExternalCall -> ExternalCall -> Res JsVal :=
  fun _ _ =>
    Throw (JObj [("message", JStr "Request failed");
                 ("response", JObj [("status", num http_status)])]).

(** The SDK answers every proxy call with the payload, and every action
    with the response. *)
Definition sdk_answers (response : JsVal) : list ExternalCall -> ExternalCall -> Res JsVal :=
  fun _ c =>
    match c with
    | Proxy _ => Ok (JObj [("data", response)])
    | TriggerAction _ _ _ _ => Ok response
    end.

(** The SDK answers the first call and rejects the following ones with
    status 403. *)
Definition sdk_answers_once (response : JsVal)
  : list ExternalCall -> ExternalCall -> Res JsVal :=
  fun history c =>
    match history with
    | [] => sdk_answers response history c
    | _ => sdk_rejects 403 history c
    end.

Fixpoint repeat_string (s : string) (n : nat) : string :=
  match n with
  | O => ""
  | S n' => s +:+ repeat_string s n'
  end.

Section RetrySpec.
Context {St T : Type}.
Variable fn : St -> Res T * St.

(** The state of the world after [n] invocations of [fn] in a row. *)
Fixpoint after (n : nat) (s : St) : St :=
  match n with
  | O => s
  | S n' => after n' (snd (fn s))
  end.

(** The outcome of the [k]-th invocation ([k] counted from 1). *)
Definition attempt (k : nat) (s : St) : Res T :=
  fst (fn (after (Nat.pred k) s)).

Definition rejects (r : Res T) : Prop :=
  match r with
  | Throw _ => True
  | Ok _ => False
  end.

(** [k] invocations, the first numbered [from], with a sleep of
    [delay a] between the invocation numbered [a] and the next one. *)
Variable delay : Z -> JsNumber.

Fixpoint schedule (from : Z) (k : nat) : list Event :=
  match k with
  | O => []
  | S O => [Invoke]
  | S k' => Invoke :: Sleep (delay from) :: schedule (from + 1) k'
  end.

Definition invocations (trace : list Event) : nat :=
  List.length (List.filter (fun e => match e with Invoke => true | _ => false end) trace).

End RetrySpec.

(** [maxAttempts] as the destructuring reads it: 3 when it is absent. *)
Definition attempts_of (options : RetryOptions) : JsNumber :=
  default (Double.of_Z 3) (maxAttempts options).

(** [maxAttempts] is the whole number [n]. *)
Definition whole_attempts (options : RetryOptions) (n : Z) : Prop :=
  match attempts_of options with
  | Finite q => q == inject_Z n
  | _ => False
  end.

(** The delay of the specification after the attempt numbered [a],
    [min(baseDelay * backoffFactor^(a-1), maxDelay)] with the defaults
    1000, 2 and 10000, as the code computes it: in double precision and
    with the power of the run-time. *)
Definition rounded_delay {math : Double.MathLibrary} (options : RetryOptions) (a : Z)
  : JsNumber :=
  Double.min
    (Double.mul (default (Double.of_Z 1000) (baseDelay options))
       (Double.pow (default (Double.of_Z 2) (backoffFactor options))
          (Double.of_Z (a - 1))))
    (default (Double.of_Z 10000) (maxDelay options)).

(** The same delay in exact arithmetic, for whole numbers. *)
Definition exact_delay (b f m a : Z) : Z := Z.min (b * f ^ (a - 1)) m.

(** A run-time for the scenarios: its [Math.pow] is the rounded exact
    power for an exponent that is a whole number and not negative, and
    [NaN] elsewhere. *)
Definition sample_math : Double.MathLibrary :=
  fun base exponent =>
    match base, exponent with
    | Finite b, Finite e =>
        match Qred e with
        | Qmake (Zpos k) xH => Double.round (Qpower b (Zpos k))
        | _ => NaN
        end
    | _, _ => NaN
    end.

(** The options of the retry scenarios. *)
Definition quick_retries : RetryOptions :=
  {| maxAttempts := Some (Double.of_Z 3); baseDelay := Some (Double.of_Z 500);
     maxDelay := Some (Double.of_Z 1200); backoffFactor := Some (Double.of_Z 3) |}.

Definition two_attempts : RetryOptions :=
  {| maxAttempts := Some (Double.of_Z 2); baseDelay := None; maxDelay := None;
     backoffFactor := None |}.

Definition huge_delays : RetryOptions :=
  {| maxAttempts := None; baseDelay := Some (Double.of_Z 9007199254740991);
     maxDelay := Some (Double.of_Z 100000000000000000);
     backoffFactor := Some (Double.of_Z 3) |}.

Definition fractional_attempts : RetryOptions :=
  {| maxAttempts := Some (Finite (3 # 2)); baseDelay := None; maxDelay := None;
     backoffFactor := None |}.

(** ** Auxiliary definitions of the proofs *)

(** What a computation returns, when it returns. *)
Definition post {A} (m : M A) (Q : A -> Prop) : Prop :=
  forall w a w', m w = (Ok a, w') -> Q a.

(** How the status agrees with the checks. *)
Definition status_agrees (hc : IntegrationHealthCheck) : Prop :=
  (status hc = healthy <->
   authentication (checks hc) = true /\ apiAccess (checks hc) = true /\
   permissions (checks hc) = true) /\
  (status hc = degraded <->
   authentication (checks hc) = true /\
   (apiAccess (checks hc) = false \/ permissions (checks hc) = false)) /\
  (status hc = unhealthy <-> authentication (checks hc) = false).

(** The keys of an object schema, parsed one after the other. *)
Definition parse_keys (fs : list (string * JsVal))
  : list (string * ZodType) -> list (string * JsVal) * list string :=
  fix keys (shape : list (string * ZodType)) :=
    match shape with
    | [] => ([], [])
    | (k, tk) :: rest =>
        let '(vk, ik) := parse tk (lookup_field k fs) in
        let '(out, issues) := keys rest in
        (keep_key k vk fs ++ out, ik ++ issues)
    end.

Section CatchBlock.
Context {printer : NumberPrinter}.

(** The [catch] block of [makeApiCall] throws an error object, whatever
    it caught. *)
Definition makeApiCall_catch (error : JsVal) : Res JsVal :=
  bind (get_prop error "response") (fun response =>
  bind (get_opt response "status") (fun status =>
  if is_number status 401 then Throw (Error "Authentication failed - token may be expired")
  else if is_number status 403 then Throw (Error "Insufficient permissions")
  else if is_number status 429 then Throw (Error "Rate limit exceeded")
  else bind (get_prop error "message") (fun message =>
       Throw (Error ("API call failed: " +:+ to_string message))))).

End CatchBlock.

(** The adapter of the registry scenario. *)
Definition slack_adapter : BaseIntegration :=
  {| id := "slack"; name := "Slack";
     description := "Send messages, fetch users, and manage channels in Slack";
     integration_version := "1.0.0"; enabled := true |}.

(** The operations of the retry scenarios, on a state that counts the
    invocations: one fails twice and then succeeds, one always fails. *)
Definition fails_twice (count : nat) : Res nat * nat :=
  if (count <? 2)%nat then (Throw (Error "not yet"), S count) else (Ok count, S count).

Definition always_fails (count : nat) : Res nat * nat :=
  (Throw (num (Z.of_nat (S count))), S count).


(** ** Vocabulary of the further properties *)

(** The proxy call that [makeApiCall(endpoint, data)] issues. *)
Definition proxy_call (endpoint : string) (data : JsVal) (w : World) : ExternalCall :=
  Proxy (JObj [("endpoint", JStr endpoint);
               ("method", JStr "POST");
               ("data", data);
               ("connectionId", prop (this_config w) "nangoConnectionId");
               ("providerConfigKey", JStr "slack")]).

(** The one kind of call that an operation may issue: the named action
    for [sendMessage], a proxy call to its endpoint for the others, all
    keyed by the stored connection id. *)
Definition expected_call (op : Operation) (w : World) (c : ExternalCall) : Prop :=
  match op with
  | SendMessage => exists validated, c = send_call validated w
  | GetUserInfo => exists d, c = proxy_call "/users.info" d w
  | GetUsers => exists d, c = proxy_call "/users.list" d w
  | GetChannels => exists d, c = proxy_call "/conversations.list" d w
  end.

(** The SDK never rejects with [undefined] or [null]. *)
Definition rejects_with_errors (w : World) : Prop :=
  forall history c e, nango w history c = Throw e -> nullish e = false.

(** Hoare triples for computations that may throw: from a world in [P],
    a returned value and the world after it are in [Q], a thrown value
    and the world after it in [E]. *)
Definition hoare {A} (P : World -> Prop) (m : M A)
    (Q : A -> World -> Prop) (E : JsVal -> World -> Prop) : Prop :=
  forall w, P w ->
    match m w with
    | (Ok a, w') => Q a w'
    | (Throw e, w') => E e w'
    end.

(** What no operation changes. *)
Definition frame (w0 w : World) : Prop :=
  this_config w = this_config w0 /\ nango w = nango w0 /\ clock w = clock w0 /\
  NODE_ENV w = NODE_ENV w0 /\ stack_trace w = stack_trace w0.

(** Since [w0], at most [n] calls were issued, all of them in [Pc], and
    nothing of the frame changed. *)
Definition issued (Pc : ExternalCall -> Prop) (n : nat) (w0 w : World) : Prop :=
  frame w0 w /\
  exists l, calls w = calls w0 ++ l /\ (List.length l <= n)%nat /\ Forall Pc l.

(** [m] takes a world with at most [n] calls issued to one with at most
    [n'], and throws values in [Err] only. *)
Definition walk (w0 : World) (Pc : ExternalCall -> Prop) (Err : JsVal -> Prop)
    (n : nat) {A} (m : M A) (n' : nat) : Prop :=
  hoare (issued Pc n w0) m
    (fun _ => issued Pc n' w0) (fun e w => issued Pc n' w0 w /\ Err e).

(** A thrown value that the [catch] block of an operation cannot
    report. *)
Definition escapes (Err : JsVal -> Prop) (e : JsVal) : Prop :=
  exists e0, Err e0 /\ nullish e0 = true.

(** The error codes that an operation reports. *)
Definition reported_code (op : Operation) (c : string) : Prop :=
  c = API_ERROR \/ (op = GetUserInfo /\ c = RESOURCE_NOT_FOUND).

Definition reports (op : Operation) (r : IntegrationResponse) : Prop :=
  success r = false -> exists e, error r = Some e /\ reported_code op (code e).

(** The answer to the authentication probe of [testConnection] has a
    truthy [ok]. *)
Definition authenticated (w : World) : bool :=
  match nango w (calls w) (proxy_call "/auth.test" JUndefined w) with
  | Ok answer => truthy (prop (prop answer "data") "ok")
  | Throw _ => false
  end.

(** A configured connection id: a string that is not empty. *)
Definition connection_id (v : JsVal) : Prop :=
  exists s, v = JStr s /\ s <> "".

(** The schema of an operation, the request it validates, the prefix of
    its failure messages and, but for [sendMessage], its endpoint. *)
Definition schema_of (op : Operation) : ZodType :=
  match op with
  | SendMessage => SendMessageSchema
  | GetUserInfo => GetUserInfoSchema
  | GetUsers => GetUsersSchema
  | GetChannels => GetChannelsSchema
  end.

Definition input_of (op : Operation) (request : JsVal) : JsVal :=
  match op with
  | GetUsers | GetChannels => SlackService.default_request request
  | _ => request
  end.

Definition failure_prefix (op : Operation) : string :=
  match op with
  | SendMessage => "Failed to send message: "
  | GetUserInfo => "Failed to get user info: "
  | GetUsers => "Failed to fetch users: "
  | GetChannels => "Failed to fetch channels: "
  end.

Definition endpoint_of (op : Operation) : option string :=
  match op with
  | SendMessage => None
  | GetUserInfo => Some "/users.info"
  | GetUsers => Some "/users.list"
  | GetChannels => Some "/conversations.list"
  end.


(** [v] when it is given, [d] otherwise: what a schema default does. *)
Definition default_to (d v : JsVal) : JsVal :=
  match v with
  | JUndefined => d
  | _ => v
  end.

Fixpoint shape_lookup (k : string) (shape : list (string * ZodType)) : option ZodType :=
  match shape with
  | [] => None
  | (k', tk) :: rest => if String.eqb k k' then Some tk else shape_lookup k rest
  end.

(** A result that throws error objects only. *)
Definition throws_errors {A} (r : Res A) : Prop :=
  forall e, r = Throw e -> nullish e = false.

(** The pure counterparts of the transformers, on a value that is
    neither [undefined] nor [null]. *)
Definition first_truthy (a b : JsVal) : JsVal := if truthy a then a else b.

Definition standard_user (u : JsVal) : JsVal :=
  let profile := prop u "profile" in
  let opt k := if nullish profile then JUndefined else prop profile k in
  JObj
    [("id", prop u "id");
     ("name", first_truthy (opt "display_name")
                (first_truthy (prop u "real_name") (prop u "name")));
     ("email", first_truthy (opt "email") (prop u "email"));
     ("avatar", first_truthy (opt "image_192") (prop u "image_192"));
     ("status", JStr (if is_string (prop u "presence") "active"
                      then "online" else "offline"));
     ("metadata",
       JObj [("isBot", prop u "is_bot");
             ("isAppUser", prop u "is_app_user");
             ("statusText", opt "status_text");
             ("statusEmoji", opt "status_emoji")])].

Definition standard_channel (c : JsVal) : JsVal :=
  let opt v k := if nullish v then JUndefined else prop v k in
  JObj
    [("id", prop c "id");
     ("name", prop c "name");
     ("description", first_truthy (opt (prop c "purpose") "value")
                       (opt (prop c "topic") "value"));
     ("type",
       JStr (if truthy (prop c "is_im") then "direct"
             else if truthy (first_truthy (prop c "is_mpim") (prop c "is_group"))
                  then "group"
             else if truthy (prop c "is_private") then "private"
             else "public"));
     ("memberCount", prop c "num_members");
     ("metadata",
       JObj [("isArchived", prop c "is_archived");
             ("isGeneral", prop c "is_general");
             ("isShared", prop c "is_shared");
             ("isMember", prop c "is_member")])].

(** The attachment of a file that is neither [undefined] nor [null]. *)
Definition standard_attachment (file : JsVal) : JsVal :=
  JObj
    [("id", prop file "id");
     ("name", first_truthy (prop file "name")
                (first_truthy (prop file "title") (JStr "Untitled")));
     ("type", first_truthy (prop file "mimetype")
                (first_truthy (prop file "filetype") (JStr "unknown")));
     ("url", first_truthy (prop file "url_private")
               (first_truthy (prop file "permalink") (JStr "")));
     ("size", prop file "size");
     ("metadata",
       JObj [("prettyType", prop file "pretty_type");
             ("thumb64", prop file "thumb_64");
             ("thumb360", prop file "thumb_360")])].

(** The files of a message: those of its [files] array, none when the
    member is falsy; a truthy member that is not an array has none to
    give. *)
Definition files_of (slackMessage : JsVal) : option (list JsVal) :=
  match prop slackMessage "files" with
  | JArr files => Some files
  | v => if truthy v then None else Some []
  end.

(** A clock for the scenarios of [toStandardMessage]: it prints the one
    time stamp it knows. *)
Definition sample_toISOString (ts : JsVal) : Res JsVal :=
  if is_string ts "1700000000.000100" then Ok (JStr "2023-11-14T22:13:20.000Z")
  else Throw (JObj [("name", JStr "RangeError"); ("message", JStr "Invalid time value")]).

(** ** The registry *)

(** Every adapter is stored under its own identifier. *)
Definition well_keyed (this : IntegrationRegistry.integrations) : Prop :=
  forall i integration, this !! i = Some integration -> id integration = i.

(** The calls that change the registry. *)
Inductive RegistryCall :=
| CallRegister (integration : BaseIntegration)
| CallUnregister (i : string)
| CallCreateSlackIntegration (nangoSecretKey : JsVal).

(** The registry after a call, whether the call returned or threw. *)
Definition call {sdk : SlackService.Sdk} (c : RegistryCall)
    (this : IntegrationRegistry.integrations)
  : IntegrationRegistry.integrations :=
  match c with
  | CallRegister integration => snd (IntegrationRegistry.register integration this)
  | CallUnregister i => snd (IntegrationRegistry.unregister i this)
  | CallCreateSlackIntegration nangoSecretKey =>
      snd (SlackIndex.createSlackIntegration nangoSecretKey this)
  end.

Definition calls_from {sdk : SlackService.Sdk}
    (this : IntegrationRegistry.integrations) (cs : list RegistryCall)
  : IntegrationRegistry.integrations :=
  List.fold_left (fun registry c => call c registry) cs this.

(** An SDK for the scenarios. *)
Definition sample_sdk : SlackService.Sdk := Error "no secret key".

(** An adapter of the registry scenarios. *)
Definition discord_adapter : BaseIntegration :=
  {| id := "discord"; name := "Discord"; description := "Discord adapter";
     integration_version := "0.1.0"; enabled := true |}.

(** ** The retry manager *)

Section WithRetrySpec.
Context {T : Type}.
Variable options : RetryManager.Options.

(** An attempt after which [withRetry] goes on, when it is not the last
    one: it throws an error that [shouldRetry] accepts. *)
Definition retryable (r : Res T) : Prop :=
  exists e, r = Throw e /\ RetryManager.should_retry options e = Ok true.

(** What [withRetry] makes of the attempt at which it stops: on an
    attempt that is not the last one, [shouldRetry] is called, and what
    it throws replaces the error of the attempt. *)
Definition verdict (last : bool) (r : Res T) : Res T :=
  match r with
  | Ok v => Ok v
  | Throw e =>
      if last then Throw e
      else match RetryManager.should_retry options e with
           | Throw e' => Throw e'
           | Ok _ => Throw e
           end
  end.

End WithRetrySpec.

(** The scenarios of the retry manager: a failed envelope with the code
    [RATE_LIMITED], an operation that is rate limited once and then
    fails for good, one that is always rate limited, and the policies. *)
Definition rate_limited : JsVal := JObj [("error", JObj [("code", JStr "RATE_LIMITED")])].

Definition rate_limited_once (count : nat) : Res nat * nat :=
  match count with
  | O => (Throw rate_limited, S count)
  | _ => (Throw (Error "channel_not_found"), S count)
  end.

Definition rate_limited_always (count : nat) : Res nat * nat :=
  (Throw rate_limited, S count).

Definition four_attempts : RetryOptions :=
  {| maxAttempts := Some (Double.of_Z 4); baseDelay := Some (Double.of_Z 500);
     maxDelay := None; backoffFactor := None |}.

Definition class_policy (options : RetryOptions) : RetryManager.Options :=
  {| RetryManager.backoff_options := options;
     RetryManager.shouldRetry :=
       Some (SlackErrorHandler.shouldRetry SlackErrorHandler.TheClass) |}.

Definition default_policy (options : RetryOptions) : RetryManager.Options :=
  {| RetryManager.backoff_options := options; RetryManager.shouldRetry := None |}.

Definition always_policy (options : RetryOptions) : RetryManager.Options :=
  {| RetryManager.backoff_options := options;
     RetryManager.shouldRetry := Some (fun _ => Ok true) |}.

Definition no_attempts : RetryOptions :=
  {| maxAttempts := Some (Double.of_Z 0); baseDelay := None; maxDelay := None;
     backoffFactor := None |}.

(** ** The routes *)

(** The four POST handlers. *)
Inductive Route := Users | Channels | UserInfo | Health.

Definition POST {printer : NumberPrinter} {sdk : SlackService.Sdk} (route : Route)
    (NANGO_SECRET_KEY : JsVal)
  : Res JsVal -> M Routes.HttpResponse :=
  match route with
  | Users => Routes.users_POST NANGO_SECRET_KEY
  | Channels => Routes.channels_POST NANGO_SECRET_KEY
  | UserInfo => Routes.user_info_POST NANGO_SECRET_KEY
  | Health => Routes.health_POST NANGO_SECRET_KEY
  end.

(** The [success] member of a response body. *)
Definition body_success (b : Routes.ResponseBody) : bool :=
  match b with
  | Routes.AdapterResult result => success result
  | Routes.Failure _ _ _ => false
  | Routes.HealthResult _ _ => true
  end.

(** The message of a handler's [catch] block. *)
Definition failure_message (route : Route) : string :=
  match route with
  | Health => "Health check failed"
  | _ => "Internal server error"
  end.

(** What a handler cannot serve: a body that cannot be read or is
    [null], and past the checks of the required fields, a missing secret
    key or a connection id that is not a non-empty string. *)
Definition server_fault (route : Route) (NANGO_SECRET_KEY : JsVal)
    (request_json : Res JsVal) : Prop :=
  match request_json with
  | Throw _ => True
  | Ok body =>
      nullish body = true \/
      (truthy (prop body "nangoConnectionId") = true /\
       (route = UserInfo -> truthy (prop body "user") = true) /\
       (truthy NANGO_SECRET_KEY = false \/
        ~ connection_id (prop body "nangoConnectionId")))
  end.

(* ===================================================================== *)
(** * Properties of the transformer *)
(* ===================================================================== *)

Section TransformerFacts.
Import SlackTransformer.

Lemma get_prop_object fs k : get_prop (JObj fs) k = Ok (lookup_field k fs).
Proof. reflexivity. Qed.

Lemma get_prop_ok v k : nullish v = false -> get_prop v k = Ok (prop v k).
Proof. intros Hv. unfold get_prop. rewrite Hv. reflexivity. Qed.

Lemma truthy_not_nullish v : truthy v = true -> nullish v = false.
Proof. destruct v; cbn; congruence. Qed.

Lemma get_opt_total v k :
  get_opt v k = Ok (if nullish v then JUndefined else prop v k).
Proof. unfold get_opt, get_prop. destruct (nullish v); reflexivity. Qed.

Lemma or_else_total a b :
  or_else a (Ok b) = Ok (if truthy a then a else b).
Proof. unfold or_else. destruct (truthy a); reflexivity. Qed.

(** On a value that is neither [undefined] nor [null], [toStandardUser]
    returns, and returns this object. *)
Lemma toStandardUser_object (u : JsVal) :
  nullish u = false ->
  let profile := prop u "profile" in
  let opt k := if nullish profile then JUndefined else prop profile k in
  let first a b := if truthy a then a else b in
  toStandardUser u =
    Ok (JObj
          [("id", prop u "id");
           ("name", first (opt "display_name") (first (prop u "real_name") (prop u "name")));
           ("email", first (opt "email") (prop u "email"));
           ("avatar", first (opt "image_192") (prop u "image_192"));
           ("status", JStr (if is_string (prop u "presence") "active"
                            then "online" else "offline"));
           ("metadata",
             JObj [("isBot", prop u "is_bot");
                   ("isAppUser", prop u "is_app_user");
                   ("statusText", opt "status_text");
                   ("statusEmoji", opt "status_emoji")])]).
Proof.
  intros Hu. cbv zeta. unfold toStandardUser.
  rewrite !(get_prop_ok u) by exact Hu. cbn [bind].
  rewrite !get_opt_total. cbn [bind].
  repeat (rewrite !or_else_total; cbn [bind]).
  reflexivity.
Qed.

Lemma toStandardUser_returns_object (u standard : JsVal) :
  toStandardUser u = Ok standard -> exists fs, standard = JObj fs.
Proof.
  destruct (nullish u) eqn:Hu.
  - unfold toStandardUser, get_prop. rewrite Hu. discriminate.
  - rewrite (toStandardUser_object u Hu). intros [= <-]. eexists. reflexivity.
Qed.

(** C6.  For every Slack channel object, [toStandardChannel] returns a
    standard channel whose [type] follows the precedence direct > group >
    private > public over the truthiness of the flags: [is_im] gives
    "direct" whatever the other flags; otherwise [is_mpim] or [is_group]
    gives "group", also when [is_private] is set; otherwise [is_private]
    gives "private"; with none of the four set the type is "public". *)
Theorem toStandardChannel_type_precedence (fields : list (string * JsVal)) :
  let flag k := truthy (lookup_field k fields) in
  exists standard,
    toStandardChannel (JObj fields) = Ok standard /\
    (flag "is_im" = true -> prop standard "type" = JStr "direct") /\
    (flag "is_im" = false -> flag "is_mpim" = true \/ flag "is_group" = true ->
     prop standard "type" = JStr "group") /\
    (flag "is_im" = false -> flag "is_mpim" = false -> flag "is_group" = false ->
     flag "is_private" = true -> prop standard "type" = JStr "private") /\
    (flag "is_im" = false -> flag "is_mpim" = false -> flag "is_group" = false ->
     flag "is_private" = false -> prop standard "type" = JStr "public").
Proof.
  cbv zeta. unfold toStandardChannel.
  rewrite !get_prop_object. cbn [bind].
  repeat (rewrite ?or_else_total, ?get_opt_total; cbn [bind]).
  destruct (truthy (lookup_field "is_im" fields)) eqn:Him; cbn [bind].
  - eexists. split; [reflexivity |].
    repeat split; intros; try discriminate; reflexivity.
  - destruct (truthy (lookup_field "is_mpim" fields)) eqn:Hmpim.
    + rewrite Hmpim. cbn [bind]. eexists. split; [reflexivity |].
      repeat split; intros; try discriminate; reflexivity.
    + destruct (truthy (lookup_field "is_group" fields)) eqn:Hgroup; cbn [bind].
      * eexists. split; [reflexivity |].
        repeat split; intros; try discriminate; reflexivity.
      * destruct (truthy (lookup_field "is_private" fields)) eqn:Hprivate; cbn [bind];
          (eexists; split; [reflexivity |]);
          repeat split; intros; try discriminate; try reflexivity.
        all: match goal with Hor : _ \/ _ |- _ => destruct Hor; discriminate end.
Qed.

(** The two scenarios of the specification: [{is_group, is_private}] is a
    group, and [is_im] wins over every other flag. *)
Lemma toStandardChannel_type_precedence_witness :
  (exists standard,
     toStandardChannel (JObj [("is_group", JBool true); ("is_private", JBool true)])
       = Ok standard /\ prop standard "type" = JStr "group") /\
  (exists standard,
     toStandardChannel
       (JObj [("is_private", JBool true); ("is_group", JBool true);
              ("is_mpim", JBool true); ("is_im", JBool true)])
       = Ok standard /\ prop standard "type" = JStr "direct").
Proof.
  split.
  - destruct (toStandardChannel_type_precedence
                [("is_group", JBool true); ("is_private", JBool true)])
      as (standard & Hrun & _ & Hgroup & _).
    exists standard. split; [exact Hrun |].
    apply Hgroup; [reflexivity | right; reflexivity].
  - destruct (toStandardChannel_type_precedence
                [("is_private", JBool true); ("is_group", JBool true);
                 ("is_mpim", JBool true); ("is_im", JBool true)])
      as (standard & Hrun & Hdirect & _).
    exists standard. split; [exact Hrun | apply Hdirect; reflexivity].
Defined.

(** C7, as the code has it.  For every Slack user object, applying
    [toStandardUser] to its own output returns, and re-derives the same
    [id] and the same [name]; the [status] it re-derives is "offline",
    since a standard user has no [presence] field, so it is the status of
    the first application exactly when the user's presence was not
    "active". *)
Theorem toStandardUser_reapplied (fields : list (string * JsVal)) :
  exists standard again,
    toStandardUser (JObj fields) = Ok standard /\
    toStandardUser standard = Ok again /\
    prop again "id" = prop standard "id" /\
    prop again "name" = prop standard "name" /\
    prop again "status" = JStr "offline" /\
    (prop again "status" = prop standard "status" <->
     is_string (lookup_field "presence" fields) "active" = false).
Proof.
  pose proof (toStandardUser_object (JObj fields) eq_refl) as Hfirst.
  cbv zeta in Hfirst.
  eexists. eexists. split; [exact Hfirst |].
  split; [apply toStandardUser_object; reflexivity |].
  cbn [prop lookup_field String.eqb Ascii.eqb Bool.eqb nullish truthy is_string].
  repeat split; try reflexivity.
  - destruct (is_string (lookup_field "presence" fields) "active");
      [discriminate | reflexivity].
  - intros ->. reflexivity.
Qed.

(** C7, as stated, fails on the status: an active user is "online", and
    "offline" once the transform is applied again. *)
Lemma toStandardUser_status_not_idempotent :
  let u := JObj [("id", JStr "U1"); ("name", JStr "bob"); ("presence", JStr "active")] in
  exists standard again,
    toStandardUser u = Ok standard /\
    toStandardUser standard = Ok again /\
    prop standard "status" = JStr "online" /\
    prop again "status" = JStr "offline" /\
    prop again "status" <> prop standard "status".
Proof.
  eexists. eexists.
  split; [reflexivity |]. split; [reflexivity |].
  split; [reflexivity |]. split; [reflexivity |].
  cbn. discriminate.
Qed.

End TransformerFacts.

(* ===================================================================== *)
(** * Properties of the registry *)
(* ===================================================================== *)

Section RegistryFacts.
Import IntegrationRegistry.

Lemma register_fresh (integration : BaseIntegration) (this : integrations) :
  this !! id integration = None ->
  register integration this = (Ok tt, <[id integration := integration]> this).
Proof.
  intros Hfresh. unfold register.
  rewrite bool_decide_eq_false_2; [reflexivity |].
  rewrite Hfresh. apply is_Some_None.
Qed.

(** C5.  [register] throws when the identifier is already registered and
    leaves the map as it was; [get] of an identifier that is not
    registered is absent ([get] is a total function: it cannot throw);
    [unregister] tells whether an entry was removed, and a second
    [unregister] of the same identifier removes nothing and changes
    nothing. *)
Theorem registry_contract :
  (forall (integration : BaseIntegration) (this : integrations),
     is_Some (this !! id integration) ->
     exists msg, register integration this = (Throw (Error msg), this)) /\
  (forall (i : string) (this : integrations),
     this !! i = None -> get i this = None) /\
  (forall (i : string) (this : integrations),
     fst (unregister i this) = true <-> is_Some (this !! i)) /\
  (forall (i : string) (this : integrations),
     let this' := snd (unregister i this) in
     get i this' = None /\ unregister i this' = (false, this')).
Proof.
  split; [| split; [| split]].
  - intros integration this Hdup. unfold register.
    rewrite bool_decide_eq_true_2 by exact Hdup. eexists. reflexivity.
  - intros i this Hnone. exact Hnone.
  - intros i this. cbn [unregister fst]. apply bool_decide_eq_true.
  - intros i this. cbn [unregister snd]. split.
    + unfold get. apply lookup_delete_eq.
    + unfold unregister. rewrite lookup_delete_eq, delete_delete_eq.
      rewrite bool_decide_eq_false_2; [reflexivity | apply is_Some_None].
Qed.

(** Registering the Slack adapter twice: the second call throws. *)
Lemma registry_contract_witness :
  let once := snd (register slack_adapter ∅) in
  fst (register slack_adapter ∅) = Ok tt /\
  (exists msg, register slack_adapter once = (Throw (Error msg), once)) /\
  get "discord" once = None.
Proof.
  destruct registry_contract as (Hdup & Hget & _).
  split; [reflexivity |]. split.
  - apply Hdup. exists slack_adapter. vm_compute. reflexivity.
  - apply Hget. vm_compute. reflexivity.
Defined.

End RegistryFacts.

(* ===================================================================== *)
(** * Properties of the retry helper *)
(* ===================================================================== *)

Section DoubleFacts.
Import Double.

Lemma Qred_inject_Z (z : Z) : Qred (inject_Z z) = inject_Z z.
Proof.
  unfold Qred, inject_Z.
  pose proof (Z.ggcd_gcd z 1) as Hgcd.
  pose proof (Z.ggcd_correct_divisors z 1) as Hdiv.
  destruct (Z.ggcd z 1) as [g [a b]]. cbn [fst snd] in *.
  rewrite Z.gcd_1_r in Hgcd. subst g. destruct Hdiv as [Ha Hb].
  rewrite Z.mul_1_l in Ha, Hb. subst a b. reflexivity.
Qed.

Lemma nearest_even_exact (n : Z) : nearest_even n 1 = n.
Proof.
  unfold nearest_even. rewrite Z.mod_1_r, Z.div_1_r. reflexivity.
Qed.

Lemma round_positive_integer (n : positive) :
  Zpos n < 2 ^ 53 -> round_positive (Zpos n) 1 = Some (inject_Z (Zpos n)).
Proof.
  intros Hsmall. unfold round_positive, exponent.
  change (Z.log2 1) with 0. rewrite Z.sub_0_r.
  pose proof (Z.log2_spec (Zpos n) ltac:(lia)) as [Hlow Hhigh].
  pose proof (Z.log2_nonneg (Zpos n)) as Hnonneg.
  assert (Z.log2 (Zpos n) < 53) as Hlog.
  { apply Z.log2_lt_pow2; lia. }
  set (e := Z.log2 (Zpos n)) in *.
  rewrite (Z.max_l 0 (- e)) by lia. rewrite (Z.max_r 0 e) by lia.
  rewrite Z.pow_0_r, Z.mul_1_r, Z.mul_1_l.
  destruct (Z.ltb_spec (Zpos n) (2 ^ e)) as [Hlt | _]; [lia |].
  rewrite (Z.max_l e (- 1022)) by lia.
  set (s := e - 52) in *.
  assert (s <= 0) as Hs by lia.
  rewrite (Z.max_r 0 (- s)) by lia. rewrite (Z.max_l 0 s) by lia.
  rewrite Z.pow_0_r, Z.mul_1_l, nearest_even_exact.
  assert (0 < 2 ^ (- s)) as Hpow by (apply Z.pow_pos_nonneg; lia).
  destruct (Z.leb_spec 0 s) as [Hzero | Hneg]; cbn [andb].
  - assert (s = 0) as -> by lia. cbn [Z.opp] in *. rewrite Z.pow_0_r, !Z.mul_1_r.
    destruct (Z.leb_spec (2 ^ 1024) (Zpos n)) as [Hbig | _].
    + exfalso. assert (2 ^ 53 < 2 ^ 1024) by (apply Z.pow_lt_mono_r; lia). lia.
    + unfold scaled. cbn [Z.leb Z.compare]. rewrite Z.pow_0_r, Z.mul_1_r. reflexivity.
  - unfold scaled. destruct (Z.leb_spec 0 s); [lia |].
    rewrite <- (Qred_inject_Z (Zpos n)). f_equal. apply Qred_complete.
    unfold Qeq, inject_Z. cbn [Qnum Qden]. rewrite Z2Pos.id by lia. lia.
Qed.

Lemma round_integer (z : Z) (q : Q) :
  Z.abs z < 2 ^ 53 -> q == inject_Z z -> round q = of_Z z.
Proof.
  intros Hsmall Heq. unfold round.
  rewrite (Qred_complete _ _ Heq), Qred_inject_Z. cbn [inject_Z Qnum Qden].
  destruct z as [| n | n]; [reflexivity | |].
  - rewrite round_positive_integer by lia. reflexivity.
  - rewrite round_positive_integer by lia. reflexivity.
Qed.

Lemma add_integers (a b : Z) :
  Z.abs (a + b) < 2 ^ 53 -> add (of_Z a) (of_Z b) = of_Z (a + b).
Proof.
  intros Hsmall. unfold add, of_Z. apply round_integer; [exact Hsmall |].
  rewrite inject_Z_plus. reflexivity.
Qed.

Lemma sub_integers (a b : Z) :
  Z.abs (a - b) < 2 ^ 53 -> sub (of_Z a) (of_Z b) = of_Z (a - b).
Proof.
  intros Hsmall. unfold sub, add, opp, of_Z. apply round_integer; [exact Hsmall |].
  unfold Z.sub. rewrite inject_Z_plus, inject_Z_opp. reflexivity.
Qed.

Lemma mul_integers (a b : Z) :
  Z.abs (a * b) < 2 ^ 53 -> mul (of_Z a) (of_Z b) = of_Z (a * b).
Proof.
  intros Hsmall. unfold mul, of_Z. apply round_integer; [exact Hsmall |].
  rewrite inject_Z_mult. reflexivity.
Qed.

Lemma le_integers (a b : Z) : le (of_Z a) (of_Z b) = (a <=? b).
Proof.
  unfold le, of_Z. destruct (Z.leb_spec a b) as [Hle | Hgt].
  - apply Qle_bool_iff. rewrite <- Zle_Qle. exact Hle.
  - destruct (Qle_bool (inject_Z a) (inject_Z b)) eqn:Hq; [| reflexivity].
    apply Qle_bool_iff in Hq. rewrite <- Zle_Qle in Hq. lia.
Qed.

Lemma min_integers (a b : Z) : min (of_Z a) (of_Z b) = of_Z (Z.min a b).
Proof.
  unfold min. change (of_Z a) with (Finite (inject_Z a)) at 1.
  change (of_Z b) with (Finite (inject_Z b)) at 1. cbv iota beta.
  change (Finite (inject_Z a)) with (of_Z a). change (Finite (inject_Z b)) with (of_Z b).
  rewrite le_integers. destruct (Z.leb_spec a b); f_equal; lia.
Qed.

End DoubleFacts.

Section RetryFacts.
Context {math : Double.MathLibrary} {St T : Type}.
Variable fn : St -> Res T * St.
Variable options : RetryOptions.

Lemma retry_from_step (fuel : nat) (a : JsNumber) (lastError : JsVal) (s : St)
    (trace : list Event) :
  retry_from fn options (S fuel) a lastError s trace =
    if Double.le a (max_attempts options) then
      match fn s with
      | (Ok v, s') => Some (Ok v, s', trace ++ [Invoke])
      | (Throw e, s') =>
          if Double.eq a (max_attempts options) then Some (Throw e, s', trace ++ [Invoke])
          else retry_from fn options fuel (Double.add a (Double.of_Z 1)) e s'
                 (trace ++ [Invoke; Sleep (backoff options a)])
      end
    else Some (Throw lastError, s, trace).
Proof. reflexivity. Qed.

Lemma retry_from_done (fuel : nat) (a : JsNumber) (lastError : JsVal) (s : St)
    (trace : list Event) :
  Double.le a (max_attempts options) = false ->
  retry_from fn options fuel a lastError s trace = Some (Throw lastError, s, trace).
Proof. intros Hdone. destruct fuel; cbn [retry_from]; rewrite Hdone; reflexivity. Qed.

Section Schedule.
Variable delay : Z -> JsNumber.

Lemma invocations_schedule (from : Z) (k : nat) :
  invocations (schedule delay from k) = k.
Proof.
  revert from. induction k as [| k IH]; intros from; [reflexivity |].
  destruct k as [| k]; [reflexivity |].
  change (schedule delay from (S (S k)))
    with (Invoke :: Sleep (delay from) :: schedule delay (from + 1) (S k)).
  unfold invocations in *. cbn [List.filter List.length]. rewrite IH. reflexivity.
Qed.

Lemma schedule_extend (from : Z) (k : nat) :
  (1 <= k)%nat ->
  [Invoke; Sleep (delay from)] ++ schedule delay (from + 1) k
  = schedule delay from (S k).
Proof. destruct k; [lia | reflexivity]. Qed.

End Schedule.

Lemma attempt_shift (k : nat) (s : St) :
  (1 <= k)%nat -> attempt fn (S k) s = attempt fn k (snd (fn s)).
Proof. destruct k; [lia | reflexivity]. Qed.

(** The counter of the loop against a [maxAttempts] that is the whole
    number [n]. *)
Section WholeAttempts.
Variable n : Z.
Hypothesis Hwhole : whole_attempts options n.

Lemma counter_le (a : Z) : Double.le (Double.of_Z a) (max_attempts options) = (a <=? n).
Proof.
  unfold whole_attempts, attempts_of in Hwhole. unfold max_attempts.
  destruct (default (Double.of_Z 3) (maxAttempts options)) as [| sign | q];
    [destruct Hwhole | destruct Hwhole |].
  unfold Double.le, Double.of_Z. destruct (Z.leb_spec a n) as [Hle | Hgt].
  - apply Qle_bool_iff. rewrite Hwhole, <- Zle_Qle. exact Hle.
  - destruct (Qle_bool (inject_Z a) q) eqn:Hq; [| reflexivity].
    apply Qle_bool_iff in Hq. rewrite Hwhole, <- Zle_Qle in Hq. lia.
Qed.

Lemma counter_eq (a : Z) : Double.eq (Double.of_Z a) (max_attempts options) = (a =? n).
Proof.
  unfold whole_attempts, attempts_of in Hwhole. unfold max_attempts.
  destruct (default (Double.of_Z 3) (maxAttempts options)) as [| sign | q];
    [destruct Hwhole | destruct Hwhole |].
  unfold Double.eq, Double.of_Z. destruct (Z.eqb_spec a n) as [-> | Hne].
  - apply Qeq_bool_iff. symmetry. exact Hwhole.
  - destruct (Qeq_bool (inject_Z a) q) eqn:Hq; [| reflexivity].
    apply Qeq_bool_iff in Hq. rewrite Hwhole in Hq.
    exfalso. apply Hne. apply inject_Z_injective. exact Hq.
Qed.

Lemma backoff_rounded (a : Z) :
  1 <= a < 2 ^ 53 -> backoff options (Double.of_Z a) = rounded_delay options a.
Proof.
  intros Ha. unfold backoff, rounded_delay, base_delay, backoff_factor, max_delay.
  rewrite sub_integers by lia. reflexivity.
Qed.

(** The loop entered at attempt [a] with [m] attempts left: it stops at
    the first attempt that resolves, or else at the last one. *)
Lemma retry_from_runs (m : nat) :
  forall (fuel : nat) (a : Z) (lastError : JsVal) (s : St) (trace : list Event),
    (1 <= m <= fuel)%nat ->
    1 <= a ->
    n = a + Z.of_nat m - 1 ->
    n < 2 ^ 53 ->
    exists k : nat,
      (1 <= k <= m)%nat /\
      retry_from fn options fuel (Double.of_Z a) lastError s trace
        = Some (attempt fn k s, after fn k s,
                trace ++ schedule (rounded_delay options) a k) /\
      (forall j, (1 <= j < k)%nat -> rejects (attempt fn j s)) /\
      (rejects (attempt fn k s) -> k = m).
Proof.
  induction m as [| m IH]; intros fuel a lastError s trace Hm Ha Hn Hsmall; [lia |].
  destruct fuel as [| fuel]; [lia |].
  rewrite retry_from_step, counter_le, counter_eq.
  destruct (Z.leb_spec a n) as [_ | Hgt]; [| lia].
  destruct (fn s) as [[v | e] s'] eqn:Hfn.
  - exists 1%nat. unfold attempt. cbn [Nat.pred after]. rewrite Hfn. cbn.
    repeat split; lia.
  - destruct (Z.eqb_spec a n) as [Hlast | Hmore].
    + exists 1%nat. unfold attempt. cbn [Nat.pred after]. rewrite Hfn. cbn.
      repeat split; lia.
    + rewrite add_integers, backoff_rounded by lia.
      destruct (IH fuel (a + 1) e s' (trace ++ [Invoke; Sleep (rounded_delay options a)]))
        as (k & Hk & Hrun & Hbefore & Hstop); [lia | lia | lia | lia |].
      exists (S k). split; [lia |]. split; [| split].
      * rewrite Hrun, attempt_shift by lia. cbn [after]. rewrite Hfn. cbn [snd].
        rewrite <- app_assoc, schedule_extend by lia. reflexivity.
      * intros j Hj. destruct (decide (j = 1%nat)) as [-> | Hj1].
        -- unfold attempt. cbn [Nat.pred after]. rewrite Hfn. exact I.
        -- destruct j as [| j]; [lia |].
           rewrite attempt_shift by lia. rewrite Hfn. apply Hbefore. lia.
      * rewrite attempt_shift by lia. rewrite Hfn. cbn [snd].
        intros Hrej. rewrite (Hstop Hrej). reflexivity.
Qed.

End WholeAttempts.

(** Where nothing is rounded, the delay is the exact one. *)
Lemma rounded_delay_exact (b f m a : Z) :
  default (Double.of_Z 1000) (baseDelay options) = Double.of_Z b ->
  default (Double.of_Z 2) (backoffFactor options) = Double.of_Z f ->
  default (Double.of_Z 10000) (maxDelay options) = Double.of_Z m ->
  Double.pow (Double.of_Z f) (Double.of_Z (a - 1)) = Double.of_Z (f ^ (a - 1)) ->
  Z.abs (b * f ^ (a - 1)) < 2 ^ 53 ->
  rounded_delay options a = Double.of_Z (exact_delay b f m a).
Proof.
  intros Hb Hf Hm Hpow Hsmall. unfold rounded_delay, exact_delay.
  rewrite Hb, Hf, Hm, Hpow, mul_integers by exact Hsmall.
  apply min_integers.
Qed.

End RetryFacts.

(** C8, as the code has it.  With a [maxAttempts] that is a whole number
    from 1 up (below [2^53], where the counter of the loop is exact),
    [retry] returns or throws after at most [maxAttempts] invocations of
    the operation, and between the attempt numbered [a] and the next one
    it sleeps [Math.min(baseDelay * Math.pow(backoffFactor, a - 1),
    maxDelay)], computed in double precision with the defaults 1000, 2
    and 10000 for absent options; if the [k]-th attempt is the first to
    resolve, [retry] returns its value after exactly [k] invocations; if
    all [maxAttempts] attempts reject, [retry] throws the error of the
    last one, after exactly [maxAttempts] invocations.  For options that
    are whole numbers, the sleep is the exact [min(baseDelay *
    backoffFactor^(a-1), maxDelay)] wherever the power of the run-time
    is exact and the product is below [2^53]. *)
Theorem retry_contract {math : Double.MathLibrary} {St T : Type}
    (fn : St -> Res T * St) (options : RetryOptions) (n : Z) (s : St) (fuel : nat) :
  whole_attempts options n ->
  1 <= n < 2 ^ 53 ->
  (Z.to_nat n <= fuel)%nat ->
  exists (result : Res T) (s' : St) (trace : list Event),
    retry fn options fuel s = Some (result, s', trace) /\
    ((invocations trace <= Z.to_nat n)%nat /\
     trace = schedule (rounded_delay options) 1 (invocations trace) /\
     s' = after fn (invocations trace) s) /\
    (forall (k : nat) (v : T),
       (1 <= k <= Z.to_nat n)%nat ->
       (forall j, (1 <= j < k)%nat -> rejects (attempt fn j s)) ->
       attempt fn k s = Ok v ->
       result = Ok v /\ invocations trace = k) /\
    ((forall j, (1 <= j <= Z.to_nat n)%nat -> rejects (attempt fn j s)) ->
     exists e, attempt fn (Z.to_nat n) s = Throw e /\ result = Throw e /\
               invocations trace = Z.to_nat n) /\
    (forall b f m a : Z,
       default (Double.of_Z 1000) (baseDelay options) = Double.of_Z b ->
       default (Double.of_Z 2) (backoffFactor options) = Double.of_Z f ->
       default (Double.of_Z 10000) (maxDelay options) = Double.of_Z m ->
       Double.pow (Double.of_Z f) (Double.of_Z (a - 1)) = Double.of_Z (f ^ (a - 1)) ->
       Z.abs (b * f ^ (a - 1)) < 2 ^ 53 ->
       rounded_delay options a = Double.of_Z (exact_delay b f m a)).
Proof.
  intros Hwhole Hn Hfuel. unfold retry.
  destruct (retry_from_runs fn options n Hwhole (Z.to_nat n) fuel 1 JUndefined s [])
    as (k & Hk & Hrun & Hbefore & Hstop); [lia | lia | lia | lia |].
  cbn [app] in Hrun.
  exists (attempt fn k s), (after fn k s), (schedule (rounded_delay options) 1 k).
  split; [exact Hrun |]. rewrite invocations_schedule.
  split; [| split; [| split]].
  - repeat split; try reflexivity. lia.
  - intros k0 v Hk0 Hfirst Hok.
    assert (k = k0) as ->; [| split; [exact Hok | reflexivity]].
    destruct (Nat.lt_trichotomy k k0) as [Hlt | [Heq | Hgt]]; [| exact Heq |].
    + specialize (Hstop (Hfirst k ltac:(lia))). lia.
    + specialize (Hbefore k0 ltac:(lia)). rewrite Hok in Hbefore. destruct Hbefore.
  - intros Hall.
    assert (k = Z.to_nat n) as -> by (apply Hstop, Hall; lia).
    specialize (Hall (Z.to_nat n) ltac:(lia)).
    destruct (attempt fn (Z.to_nat n) s) as [v | e]; [destruct Hall |].
    exists e. repeat split.
  - intros b f m a. apply rounded_delay_exact.
Qed.

(** The two scenarios of the specification, with options of their own:
    an operation that fails twice and then succeeds, with three
    attempts, a base delay of 500, a factor of 3 and a cap of 1200; an
    operation that always fails, with two attempts. *)
Lemma retry_contract_witness :
  (retry (math := sample_math) fails_twice quick_retries 3 0%nat
     = Some (Ok 2%nat, 3%nat,
             [Invoke; Sleep (Double.of_Z 500); Invoke; Sleep (Double.of_Z 1200); Invoke]) /\
   exists result s' trace,
     retry (math := sample_math) fails_twice quick_retries 3 0%nat
       = Some (result, s', trace) /\
     result = Ok 2%nat /\ invocations trace = 3%nat /\
     rounded_delay (math := sample_math) quick_retries 2 = Double.of_Z 1200) /\
  (exists result s' trace e,
     retry (math := sample_math) always_fails two_attempts 2 0%nat
       = Some (result, s', trace) /\
     attempt always_fails 2 0%nat = Throw e /\ result = Throw e /\ e = num 2 /\
     invocations trace = 2%nat).
Proof.
  split.
  - split; [reflexivity |].
    destruct (retry_contract (math := sample_math) fails_twice quick_retries 3 0%nat 3)
      as (result & s' & trace & Hrun & _ & Hfirst & _ & Hexact).
    + vm_compute. reflexivity.
    + lia.
    + vm_compute. lia.
    + exists result, s', trace. split; [exact Hrun |].
      destruct (Hfirst 3%nat 2%nat) as [Hresult Hcount].
      * vm_compute. lia.
      * intros [| [| [| j]]] Hj; try exact I; lia.
      * reflexivity.
      * split; [exact Hresult |]. split; [exact Hcount |].
        apply (Hexact 500 3 1200 2); reflexivity.
  - destruct (retry_contract (math := sample_math) always_fails two_attempts 2 0%nat 2)
      as (result & s' & trace & Hrun & _ & _ & Hall & _).
    + vm_compute. reflexivity.
    + lia.
    + vm_compute. lia.
    + destruct Hall as (e & Hlast & Hthrown & Hcount).
      * intros j _. exact I.
      * exists result, s', trace, e. split; [exact Hrun |].
        split; [exact Hlast |]. split; [exact Hthrown |]. split; [| exact Hcount].
        vm_compute in Hlast. injection Hlast as <-. reflexivity.
Defined.

(** C8, as stated, fails where the numbers are not whole or not small.
    With [baseDelay = 2^53 - 1] and [backoffFactor = 3], the sleep after
    the second attempt is 27021597764222972, where [min(baseDelay *
    backoffFactor^1, maxDelay)] is 27021597764222973, which is no
    double.  With [maxAttempts = 1.5], the operation is invoked once,
    and then [retry] sleeps although no attempt follows. *)
Lemma retry_delay_is_rounded :
  (retry (math := sample_math) always_fails huge_delays 3 0%nat
     = Some (Throw (num 3), 3%nat,
             [Invoke; Sleep (Double.of_Z 9007199254740991);
              Invoke; Sleep (Double.of_Z 27021597764222972); Invoke]) /\
   exact_delay 9007199254740991 3 100000000000000000 2 = 27021597764222973 /\
   Double.of_Z 27021597764222972
     <> Double.of_Z (exact_delay 9007199254740991 3 100000000000000000 2)) /\
  (retry (math := sample_math) always_fails fractional_attempts 2 0%nat
     = Some (Throw (num 1), 1%nat, [Invoke; Sleep (Double.of_Z 1000)]) /\
   forall delay k, [Invoke; Sleep (Double.of_Z 1000)] <> schedule delay 1 k).
Proof.
  split; [split; [| split]; [vm_compute; reflexivity | vm_compute; reflexivity |] |].
  - vm_compute. discriminate.
  - split; [vm_compute; reflexivity |].
    intros delay [| [| [| k]]]; cbn; discriminate.
Qed.

(* ===================================================================== *)
(** * Properties of the adapter *)
(* ===================================================================== *)

Section PostRules.
Context {A B : Type}.

Lemma post_ret (a : A) (Q : A -> Prop) : Q a -> post (ret a) Q.
Proof. intros HQ w a' w' [= <- _]. exact HQ. Qed.

Lemma post_throw (e : JsVal) (Q : A -> Prop) : post (throw e) Q.
Proof. intros w a w' [=]. Qed.

Lemma post_bind_any (m : M A) (k : A -> M B) (Q : B -> Prop) :
  (forall a, post (k a) Q) -> post (mbind m k) Q.
Proof.
  intros Hk w b w'. unfold mbind.
  destruct (m w) as [[a | e] w1]; [apply Hk | discriminate].
Qed.

Lemma post_bind_lift (r : Res A) (k : A -> M B) (Q : B -> Prop) :
  (forall a, r = Ok a -> post (k a) Q) -> post (mbind (lift r) k) Q.
Proof.
  intros Hk w b w'. unfold mbind, lift.
  destruct r as [a | e]; [apply Hk; reflexivity | discriminate].
Qed.

Lemma post_try_catch (body : M A) (handler : JsVal -> M A) (Q : A -> Prop) :
  post body Q -> (forall e, post (handler e) Q) -> post (try_catch body handler) Q.
Proof.
  intros Hbody Hhandler w a w'. unfold try_catch.
  destruct (body w) as [[a' | e] w1] eqn:Hrun.
  - intros [= <- _]. exact (Hbody _ _ _ Hrun).
  - apply Hhandler.
Qed.

End PostRules.

Section AdapterFacts.
Context {printer : NumberPrinter}.
Import SlackService.

Lemma createResponse_error (d : JsVal) (e : IntegrationError) :
  post (createResponse d (Some e)) well_formed.
Proof.
  intros w r w'. unfold createResponse, BaseIntegrationClass.createResponse, mbind, now, ret.
  cbn. intros [= <- _]. split; cbn; [discriminate | intros _; split; [discriminate | reflexivity]].
Qed.

Lemma createResponse_data (d : JsVal) :
  d <> JUndefined -> post (createResponse d None) well_formed.
Proof.
  intros Hd w r w'. unfold createResponse, BaseIntegrationClass.createResponse, mbind, now, ret.
  cbn. intros [= <- _]. split; cbn; [intros _; split; [exact Hd | reflexivity] | discriminate].
Qed.

Lemma operation_catch_well_formed (prefix : string) (e : JsVal) :
  post (operation_catch prefix e) well_formed.
Proof.
  unfold operation_catch.
  apply post_bind_any; intros message.
  apply post_bind_any; intros err.
  apply createResponse_error.
Qed.

(** One step of an operation's body towards its envelope. *)
Ltac post_step :=
  lazymatch goal with
  | |- post (try_catch _ (operation_catch _)) _ =>
      apply post_try_catch; [| intros ?; apply operation_catch_well_formed]
  | |- post (mbind (lift (SlackTransformer.toStandardUser _)) _) _ =>
      apply post_bind_lift; intros ? ?
  | |- post (mbind _ _) _ => apply post_bind_any; intros ?
  | |- post (if ?c then _ else _) _ => destruct c
  | |- post (createResponse _ (Some _)) _ => apply createResponse_error
  | |- post (createResponse (JObj _) None) _ => apply createResponse_data; discriminate
  | |- post (throw _) _ => apply post_throw
  end.

Lemma sendMessage_well_formed request authContext :
  post (sendMessage request authContext) well_formed.
Proof. unfold sendMessage. repeat post_step. Qed.

Lemma getUserInfo_well_formed request authContext :
  post (getUserInfo request authContext) well_formed.
Proof.
  unfold getUserInfo. repeat post_step.
  match goal with
  | Hu : SlackTransformer.toStandardUser _ = Ok _ |- _ =>
      apply toStandardUser_returns_object in Hu; destruct Hu as [fs ->]
  end.
  post_step.
Qed.

Lemma getUsers_well_formed request authContext :
  post (getUsers request authContext) well_formed.
Proof. unfold getUsers. cbv zeta. repeat post_step. Qed.

Lemma getChannels_well_formed request authContext :
  post (getChannels request authContext) well_formed.
Proof. unfold getChannels. cbv zeta. repeat post_step. Qed.

(** C1.  Every envelope returned by [sendMessage], [getUserInfo],
    [getUsers] or [getChannels] has exactly one of [data] and [error]
    populated: with [success = true] the data is present and the error
    absent, with [success = false] the error is present and the data
    absent. *)
Theorem envelope_exactly_one (op : Operation) (request authContext : JsVal)
    (w w' : World) (r : IntegrationResponse) :
  run op request authContext w = (Ok r, w') -> well_formed r.
Proof.
  destruct op; cbn [run].
  - apply sendMessage_well_formed.
  - apply getUserInfo_well_formed.
  - apply getUsers_well_formed.
  - apply getChannels_well_formed.
Qed.

(** ** The health check *)

Lemma get_prop_throws (v e : JsVal) (k : string) :
  get_prop v k = Throw e -> nullish e = false.
Proof. unfold get_prop. destruct (nullish v); [intros [= <-]; reflexivity | discriminate]. Qed.

Lemma makeApiCall_catch_throws (error : JsVal) :
  exists e, makeApiCall_catch error = Throw e /\ nullish e = false.
Proof.
  unfold makeApiCall_catch.
  destruct (nullish error) eqn:Herror.
  - unfold get_prop. rewrite Herror. cbn [bind]. eexists. split; reflexivity.
  - rewrite (get_prop_ok error) by exact Herror. cbn [bind].
    rewrite get_opt_total. cbn [bind].
    rewrite (get_prop_ok error) by exact Herror. cbn [bind].
    repeat match goal with
           | |- context [if is_number ?v ?n then _ else _] => destruct (is_number v n)
           end; eexists; split; reflexivity.
Qed.

(** [makeApiCall] on an initialized adapter: one proxy call, whose answer
    is unwrapped or classified. *)
Lemma makeApiCall_run (endpoint method : string) (d : JsVal) (w : World) :
  truthy (this_config w) = true ->
  let call :=
    Proxy (JObj [("endpoint", JStr endpoint); ("method", JStr method); ("data", d);
                 ("connectionId", prop (this_config w) "nangoConnectionId");
                 ("providerConfigKey", JStr "slack")]) in
  makeApiCall endpoint d method w =
    (match nango w (calls w) call with
     | Ok response =>
         match get_prop response "data" with
         | Ok payload => Ok payload
         | Throw e => makeApiCall_catch e
         end
     | Throw e => makeApiCall_catch e
     end,
     with_calls (calls w ++ [call]) w).
Proof.
  intros Hconfig. cbv zeta.
  unfold makeApiCall, mbind, get_config, try_catch, lift, throw, external. cbv beta.
  rewrite Hconfig. cbn [negb].
  rewrite (get_prop_ok (this_config w)) by (apply truthy_not_nullish, Hconfig).
  unfold makeApiCall_catch.
  destruct (nango w (calls w) _) as [response | e].
  - destruct (get_prop response "data") as [payload | e]; [reflexivity |].
    destruct (get_prop e "response") as [r | e']; cbn [bind]; [| reflexivity].
    destruct (get_opt r "status") as [st | e']; cbn [bind]; [| reflexivity].
    repeat match goal with
           | |- context [if is_number ?v ?n then _ else _] => destruct (is_number v n)
           end; try reflexivity.
    destruct (get_prop e "message"); reflexivity.
  - destruct (get_prop e "response") as [r | e']; cbn [bind]; [| reflexivity].
    destruct (get_opt r "status") as [st | e']; cbn [bind]; [| reflexivity].
    repeat match goal with
           | |- context [if is_number ?v ?n then _ else _] => destruct (is_number v n)
           end; try reflexivity.
    destruct (get_prop e "message"); reflexivity.
Qed.

(** Whatever the SDK does, [makeApiCall] throws error objects only, and
    leaves the configuration as it is. *)
Lemma makeApiCall_throws (endpoint method : string) (d e : JsVal) (w w' : World) :
  makeApiCall endpoint d method w = (Throw e, w') -> nullish e = false.
Proof.
  destruct (truthy (this_config w)) eqn:Hconfig.
  - rewrite makeApiCall_run by exact Hconfig. cbv zeta.
    destruct (nango w (calls w) _) as [response | e0].
    + destruct (get_prop response "data") as [payload | e0]; [discriminate |].
      destruct (makeApiCall_catch_throws e0) as (e1 & -> & He1).
      intros [= <- _]. exact He1.
    + destruct (makeApiCall_catch_throws e0) as (e1 & -> & He1).
      intros [= <- _]. exact He1.
  - unfold makeApiCall, mbind, get_config, throw. cbv beta.
    rewrite Hconfig. cbn [negb]. intros [= <- _]. reflexivity.
Qed.

Lemma makeApiCall_config (endpoint method : string) (d : JsVal) (w : World) :
  this_config (snd (makeApiCall endpoint d method w)) = this_config w.
Proof.
  destruct (truthy (this_config w)) eqn:Hconfig.
  - rewrite makeApiCall_run by exact Hconfig. reflexivity.
  - unfold makeApiCall, mbind, get_config, throw. cbv beta.
    rewrite Hconfig. reflexivity.
Qed.

Lemma testConnection_catch_returns (c : HealthChecks) (e : JsVal) (w : World) :
  nullish e = false ->
  exists hc w',
    testConnection_catch c e w = (Ok hc, w') /\ status hc = unhealthy /\ checks hc = c.
Proof.
  intros He. unfold testConnection_catch, mbind, now, lift, ret. cbn.
  rewrite (get_prop_ok e) by exact He.
  eexists. eexists. repeat split.
Qed.

Lemma status_agrees_unhealthy (hc : IntegrationHealthCheck) :
  status hc = unhealthy -> checks hc = no_checks -> status_agrees hc.
Proof.
  intros Hs Hc. unfold status_agrees. rewrite Hs, Hc. cbn.
  intuition discriminate.
Qed.

(** Every run of [testConnection] returns a health check: either an
    unhealthy one with no check passed, or, when the authentication probe
    is answered with a truthy [ok], one with authentication and API
    access passed and the permissions as the second probe went. *)
Lemma testConnection_cases (w : World) :
  exists hc w',
    testConnection w = (Ok hc, w') /\
    ((status hc = unhealthy /\ checks hc = no_checks /\
      forall response w1,
        truthy (this_config w) = true ->
        makeApiCall "/auth.test" JUndefined "POST" w = (Ok response, w1) ->
        truthy (prop response "ok") = false) \/
     (exists response w1 (permitted : bool),
        makeApiCall "/auth.test" JUndefined "POST" w = (Ok response, w1) /\
        truthy (prop response "ok") = true /\
        checks hc = {| authentication := true; apiAccess := true;
                       permissions := permitted |} /\
        status hc = (if permitted then healthy else degraded) /\
        (forall e w2,
           makeApiCall "/conversations.list" (JObj [("limit", num 1)]) "POST" w1
             = (Throw e, w2) -> permitted = false))).
Proof.
  assert (Hunhealthy : forall e w1, nullish e = false ->
            exists hc w', testConnection_catch no_checks e w1 = (Ok hc, w') /\
                          status hc = unhealthy /\ checks hc = no_checks).
  { intros e w1 He. apply testConnection_catch_returns, He. }
  unfold testConnection.
  destruct (truthy (this_config w)) eqn:Hconfig; cbn [negb].
  2: { destruct (Hunhealthy (Error "Integration not initialized") w eq_refl)
         as (hc & w' & Hrun & Hs & Hc).
       exists hc, w'. split; [exact Hrun |]. left. repeat split; try assumption.
       discriminate. }
  pose proof (makeApiCall_config "/auth.test" "POST" JUndefined w) as Hconfig1.
  destruct (makeApiCall "/auth.test" JUndefined "POST" w) as [[response | e] w1] eqn:Hauth.
  2: { destruct (Hunhealthy e w1 (makeApiCall_throws _ _ _ _ _ _ Hauth))
         as (hc & w' & Hrun & Hs & Hc).
       exists hc, w'. split; [exact Hrun |]. left. repeat split; try assumption.
       discriminate. }
  cbn [snd] in Hconfig1.
  destruct (get_prop response "ok") as [ok | e] eqn:Hok.
  2: { destruct (Hunhealthy e w1 (get_prop_throws _ _ _ Hok))
         as (hc & w' & Hrun & Hs & Hc).
       exists hc, w'. split; [exact Hrun |]. left. repeat split; try assumption.
       intros response' w1' _ [= <- <-]. destruct response; discriminate || reflexivity. }
  assert (ok = prop response "ok") as ->.
  { unfold get_prop in Hok. destruct (nullish response); [discriminate |].
    injection Hok as <-. reflexivity. }
  assert (nullish (this_config w1) = false) as Hset
    by (rewrite Hconfig1; apply truthy_not_nullish, Hconfig).
  destruct (truthy (prop response "ok")) eqn:Htruthy.
  - pose proof (makeApiCall_config "/conversations.list" "POST"
                  (JObj [("limit", num 1)]) w1) as Hconfig2.
    destruct (makeApiCall "/conversations.list" (JObj [("limit", num 1)]) "POST" w1)
      as [[r | e] w2] eqn:Hperm;
      cbn [snd] in Hconfig2; cbn;
      rewrite Hconfig2, (get_prop_ok (this_config w1)) by exact Hset;
      (eexists; eexists; split; [reflexivity |]); right.
    + exists response, w1, true.
      do 4 (split; [first [reflexivity | assumption] |]).
      intros e' w2' Hperm'.
      change (makeApiCall "/conversations.list" (JObj [("limit", num 1)]) "POST" w1
              = (Throw e', w2')) in Hperm'.
      congruence.
    + exists response, w1, false.
      do 4 (split; [first [reflexivity | assumption] |]). reflexivity.
  - cbn. rewrite (get_prop_ok (this_config w1)) by exact Hset.
    eexists. eexists. split; [reflexivity |]. left. repeat split.
    intros response' w1' _ [= <- <-]. exact Htruthy.
Qed.

(** C4.  Every run of [testConnection] returns a health check (it never
    throws), whose status is [healthy] iff the three checks are true,
    [degraded] iff authentication is true and another check is false,
    and [unhealthy] iff authentication is false; and when the
    authentication probe succeeds but the permission probe throws, the
    error is caught: the run reports [permissions = false], with the
    other two checks true and the status [degraded]. *)
Theorem testConnection_status (w : World) :
  exists hc w',
    testConnection w = (Ok hc, w') /\
    status_agrees hc /\
    (forall response w1 e w2,
       truthy (this_config w) = true ->
       makeApiCall "/auth.test" JUndefined "POST" w = (Ok response, w1) ->
       truthy (prop response "ok") = true ->
       makeApiCall "/conversations.list" (JObj [("limit", num 1)]) "POST" w1
         = (Throw e, w2) ->
       checks hc = {| authentication := true; apiAccess := true; permissions := false |} /\
       status hc = degraded).
Proof.
  destruct (testConnection_cases w) as (hc & w' & Hrun & Hcases).
  exists hc, w'. split; [exact Hrun |].
  destruct Hcases as [(Hstatus & Hchecks & Hfalsy)
                     | (response & w1 & permitted & Hauth & Hok & Hchecks & Hstatus & Hthrown)].
  - split; [apply status_agrees_unhealthy; assumption |].
    intros response w1 e w2 Hconfig Hauth Hok _.
    rewrite (Hfalsy response w1 Hconfig Hauth) in Hok. discriminate.
  - split.
    + unfold status_agrees. rewrite Hstatus, Hchecks. cbn.
      destruct permitted; intuition discriminate.
    + intros response' w1' e w2 _ Hauth' _ Hperm.
      rewrite Hauth in Hauth'. injection Hauth' as <- <-.
      rewrite (Hthrown e w2 Hperm) in Hchecks, Hstatus.
      split; assumption.
Qed.

(** ** Running an operation step by step *)

Lemma run_lift_ok {A B} (a : A) (k : A -> M B) (w : World) :
  mbind (lift (Ok a)) k w = k a w.
Proof. reflexivity. Qed.

Lemma run_lift_throw {A B} (e : JsVal) (k : A -> M B) (w : World) :
  mbind (lift (Throw e)) k w = (Throw e, w).
Proof. reflexivity. Qed.

Lemma run_external {B} (c : ExternalCall) (k : JsVal -> M B) (w : World) :
  mbind (external c) k w =
    match nango w (calls w) c with
    | Ok a => k a (with_calls (calls w ++ [c]) w)
    | Throw e => (Throw e, with_calls (calls w ++ [c]) w)
    end.
Proof. unfold mbind, external. destruct (nango w (calls w) c); reflexivity. Qed.

Lemma run_require_config {B} (k : JsVal -> M B) (w : World) :
  truthy (this_config w) = true ->
  mbind require_config k w = k (this_config w) w.
Proof.
  intros Hconfig. unfold require_config, mbind, get_config, ret.
  rewrite Hconfig. reflexivity.
Qed.

Lemma run_createError {B} (c m : string) (d : JsVal) (k : IntegrationError -> M B)
    (w : World) :
  mbind (createError c m d) k w =
    k {| code := c; message := m; details := d;
         stack := if is_string (NODE_ENV w) "development"
                  then stack_trace w else JUndefined |} w.
Proof. reflexivity. Qed.

Lemma run_createResponse (d : JsVal) (e : option IntegrationError) (w : World) :
  createResponse d e w =
    (Ok {| success := match e with Some _ => false | None => true end;
           data := match e with Some _ => JUndefined | None => d end;
           error := e;
           meta := Build_ResponseMeta (clock w (ticks w))
                     SlackService.id SlackService.version |},
     with_ticks (S (ticks w)) w).
Proof. reflexivity. Qed.

Lemma run_try_catch {A} (body : M A) (handler : JsVal -> M A) (w : World) :
  try_catch body handler w =
    match body w with
    | (Ok a, w') => (Ok a, w')
    | (Throw e, w') => handler e w'
    end.
Proof. unfold try_catch. destruct (body w) as [[a | e] w']; reflexivity. Qed.

(** The [catch] block of an operation, on an error object. *)
Lemma run_operation_catch (prefix msg : string) (w : World) :
  operation_catch prefix (Error msg) w =
    createResponse JUndefined
      (Some {| code := API_ERROR; message := prefix +:+ msg; details := JUndefined;
               stack := if is_string (NODE_ENV w) "development"
                        then stack_trace w else JUndefined |}) w.
Proof. reflexivity. Qed.

(** ** Malformed requests *)

Lemma validateInput_issue (schema : ZodType) (request : JsVal) :
  snd (parse schema request) <> [] ->
  exists msg, validateInput schema request = Throw (Error msg).
Proof.
  unfold validateInput.
  destruct (parse schema request) as [v [| issue issues]]; cbn; [congruence |].
  intros _. eexists. reflexivity.
Qed.

Lemma parse_keys_cons (fs : list (string * JsVal)) (k : string) (tk : ZodType)
    (rest : list (string * ZodType)) :
  parse_keys fs ((k, tk) :: rest) =
    let '(vk, ik) := parse tk (lookup_field k fs) in
    let '(out, issues) := parse_keys fs rest in
    (keep_key k vk fs ++ out, ik ++ issues).
Proof. reflexivity. Qed.

Lemma parse_object (shape : list (string * ZodType)) (fs : list (string * JsVal)) :
  parse (ZObject shape) (JObj fs) =
    let '(out, issues) := parse_keys fs shape in (JObj out, issues).
Proof. reflexivity. Qed.

Lemma validateInput_object (shape : list (string * ZodType)) (request validated : JsVal) :
  validateInput (ZObject shape) request = Ok validated -> exists fs, validated = JObj fs.
Proof.
  unfold validateInput.
  destruct (parse (ZObject shape) request) as [v issues] eqn:Hparse.
  destruct issues; [| discriminate]. intros [= <-].
  destruct request; try (cbn in Hparse; injection Hparse; discriminate).
  rewrite parse_object in Hparse.
  destruct (parse_keys fields shape) as [out issues].
  injection Hparse as <- _. eexists. reflexivity.
Qed.

(** An issue on one key is an issue of the object. *)
Lemma parse_object_issue (shape : list (string * ZodType)) (fs : list (string * JsVal))
    (k : string) (tk : ZodType) :
  In (k, tk) shape ->
  snd (parse tk (lookup_field k fs)) <> [] ->
  snd (parse (ZObject shape) (JObj fs)) <> [].
Proof.
  intros Hin Hissue. rewrite parse_object.
  assert (snd (parse_keys fs shape) <> []) as Hkeys.
  { induction shape as [| [k' tk'] shape IH]; [destruct Hin |].
    rewrite parse_keys_cons.
    destruct (parse tk' (lookup_field k' fs)) as [vk ik] eqn:Hk.
    destruct (parse_keys fs shape) as [out issues].
    cbn [snd] in *.
    destruct Hin as [[= -> ->] | Hin].
    - rewrite Hk in Hissue. cbn [snd] in Hissue.
      destruct ik; [congruence | discriminate].
    - specialize (IH Hin). destruct ik; [exact IH | discriminate]. }
  destruct (parse_keys fs shape) as [out issues]. exact Hkeys.
Qed.

Lemma limit_issue (n : JsNumber) :
  outside_limits n -> snd (parse limit_schema (JNum n)) <> [].
Proof.
  destruct n as [| negative | q]; cbn; try discriminate.
  - intros _. destruct negative; discriminate.
  - intros [Hlow | Hhigh].
    + destruct (Qle_bool 1 q) eqn:Hle; [| discriminate].
      apply Qle_bool_iff in Hle. exfalso. exact (Qlt_not_le _ _ Hlow Hle).
    + destruct (Qle_bool q 1000) eqn:Hle.
      * apply Qle_bool_iff in Hle. exfalso. exact (Qlt_not_le _ _ Hhigh Hle).
      * destruct (Qle_bool 1 q); discriminate.
Qed.

(** A request that fails validation: the operation answers with an
    [API_ERROR] envelope that reports the issues, and issues no call. *)
Lemma invalid_request_envelope (schema : ZodType) (request : JsVal)
    (k : JsVal -> M IntegrationResponse) (prefix : string) (w : World) :
  snd (parse schema request) <> [] ->
  exists r w' e,
    try_catch (mbind (lift (validateInput schema request)) k) (operation_catch prefix) w
      = (Ok r, w') /\
    success r = false /\ data r = JUndefined /\ error r = Some e /\
    code e = API_ERROR /\
    message e = prefix +:+ "Validation failed: " +:+ join ", " (snd (parse schema request)) /\
    calls w' = calls w.
Proof.
  intros Hissue.
  assert (validateInput schema request
          = Throw (Error ("Validation failed: " +:+ join ", " (snd (parse schema request)))))
    as Hthrow.
  { unfold validateInput.
    destruct (parse schema request) as [v [| issue issues]]; [contradiction | reflexivity]. }
  rewrite run_try_catch, Hthrow, run_lift_throw, run_operation_catch, run_createResponse.
  eexists. eexists. eexists. repeat split.
Qed.

(** C2, as the code has it.  For every malformed input -- a message text
    of length 0 for [sendMessage], a pagination limit outside [1, 1000]
    for [getUsers] and [getChannels] -- the operation returns an envelope
    with [success = false], no data and the error code [API_ERROR],
    whose message reports the validation failure: it is the prefix of
    the operation, "Validation failed: " and the issues of the schema,
    of which there is one at least; and the operation issues no external
    call. *)
Theorem malformed_input_rejected (op : Operation) (request authContext : JsVal)
    (w : World) :
  malformed op request ->
  exists r w' e,
    run op request authContext w = (Ok r, w') /\
    success r = false /\ data r = JUndefined /\ error r = Some e /\
    code e = API_ERROR /\
    snd (parse (schema_of op) (input_of op request)) <> [] /\
    message e = failure_prefix op +:+ "Validation failed: "
                +:+ join ", " (snd (parse (schema_of op) (input_of op request))) /\
    calls w' = calls w.
Proof.
  assert (forall schema input k prefix,
            snd (parse schema input) <> [] ->
            exists r w' e,
              try_catch (mbind (lift (validateInput schema input)) k)
                (SlackService.operation_catch prefix) w = (Ok r, w') /\
              success r = false /\ data r = JUndefined /\ error r = Some e /\
              code e = API_ERROR /\
              snd (parse schema input) <> [] /\
              message e = prefix +:+ "Validation failed: "
                          +:+ join ", " (snd (parse schema input)) /\
              calls w' = calls w) as invalid_request_envelope'.
  { intros schema input k prefix Hissue.
    destruct (invalid_request_envelope schema input k prefix w Hissue)
      as (r & w' & e & Hrun & Hfailed & Hdata & He & Hcode & Hmessage & Hcalls).
    exists r, w', e. repeat split; assumption. }
  intros Hmalformed.
  destruct request as [| | | | | | fs];
    try (destruct op; cbn in Hmalformed;
         solve [ destruct Hmalformed
               | destruct Hmalformed as (? & ? & ?); discriminate ]).
  destruct op; cbn [run malformed prop] in *.
  - destruct Hmalformed as (text & Htext & Hlength).
    apply invalid_request_envelope'.
    apply (parse_object_issue _ _ "text"
             (ZString (Some (1%nat, "Message text is required")) None));
      [cbn; tauto |].
    rewrite Htext. destruct text; [cbn; discriminate | discriminate].
  - destruct Hmalformed.
  - destruct Hmalformed as (n & Hlimit & Houtside).
    apply invalid_request_envelope'.
    apply (parse_object_issue _ _ "limit" limit_schema); [cbn; tauto |].
    rewrite Hlimit. apply limit_issue, Houtside.
  - destruct Hmalformed as (n & Hlimit & Houtside).
    apply invalid_request_envelope'.
    apply (parse_object_issue _ _ "limit" limit_schema); [cbn; tauto |].
    rewrite Hlimit. apply limit_issue, Houtside.
Qed.

(** ** Initialization *)

Lemma testConnection_config (w : World) :
  this_config (snd (testConnection w)) = this_config w.
Proof.
  assert (Hcatch : forall c e w1,
            this_config (snd (testConnection_catch c e w1)) = this_config w1).
  { intros c e w1. unfold testConnection_catch, mbind, now, lift, ret. cbn.
    destruct (get_prop e "message"); reflexivity. }
  assert (Hreport : forall (c : HealthChecks) w1,
            this_config
              (snd (let '(timestamp, w2) := read_clock w1 in
                    match get_prop (this_config w2) "nangoConnectionId" with
                    | Throw error => testConnection_catch c error w2
                    | Ok connectionId =>
                        (Ok {| status := if authentication c && apiAccess c && permissions c
                                         then healthy
                                         else if authentication c then degraded
                                         else unhealthy;
                               health_timestamp := timestamp;
                               checks := c;
                               health_details := JObj [("connectionId", connectionId)] |},
                         w2)
                    end)) = this_config w1).
  { intros c w1. unfold read_clock.
    destruct (get_prop (this_config (with_ticks (S (ticks w1)) w1)) "nangoConnectionId");
      [reflexivity | rewrite Hcatch; reflexivity]. }
  unfold testConnection.
  destruct (negb (truthy (this_config w))); [apply Hcatch |].
  pose proof (makeApiCall_config "/auth.test" "POST" JUndefined w) as Hconfig1.
  destruct (makeApiCall "/auth.test" JUndefined "POST" w) as [[response | e] w1];
    cbn [snd] in Hconfig1; [| rewrite Hcatch; exact Hconfig1].
  destruct (get_prop response "ok") as [ok | e]; [| rewrite Hcatch; exact Hconfig1].
  destruct (truthy ok).
  - pose proof (makeApiCall_config "/conversations.list" "POST"
                  (JObj [("limit", num 1)]) w1) as Hconfig2.
    destruct (makeApiCall "/conversations.list" (JObj [("limit", num 1)]) "POST" w1)
      as [[r | e] w2]; cbn [snd] in Hconfig2;
      rewrite Hreport; congruence.
  - rewrite Hreport. exact Hconfig1.
Qed.

(** Whatever the connectivity probe finds, [initialize] with a valid
    configuration resolves and stores the configuration. *)
Lemma initialize_resolves (config validated : JsVal) (w : World) :
  validateInput configSchema config = Ok validated ->
  exists w', initialize config w = (Ok tt, w') /\ this_config w' = validated.
Proof.
  intros Hvalid. unfold initialize.
  rewrite run_try_catch, Hvalid, run_lift_ok.
  unfold mbind at 1. unfold set_config at 1. cbv beta iota.
  unfold mbind.
  destruct (testConnection_cases (with_config validated w)) as (hc & w' & Hrun & _).
  pose proof (testConnection_config (with_config validated w)) as Hconfig.
  rewrite Hrun in Hconfig |- *. cbn in Hconfig |- *.
  exists w'. split; [reflexivity | exact Hconfig].
Qed.

(** ** Sending a message *)

Lemma sendMessage_answered (request authContext validated response : JsVal) (w : World) :
  validateInput SendMessageSchema request = Ok validated ->
  truthy (this_config w) = true ->
  nango w (calls w) (send_call validated w) = Ok response ->
  nullish response = false ->
  sendMessage request authContext w =
    let w1 := with_calls (calls w ++ [send_call validated w]) w in
    let response_error := prop response "error" in
    let ts := prop response "ts" in
    if negb (truthy (prop response "ok")) then
      let shown := if truthy response_error then response_error else JStr "Unknown error" in
      createResponse JUndefined
        (Some {| code := API_ERROR;
                 message := ("Failed to send message: " +:+ to_string shown)
                            +:+ " " +:+ suggestion_for response_error;
                 details := JObj [("slackError", response_error);
                                  ("suggestions", JStr (suggestion_for response_error));
                                  ("errorType", response_error);
                                  ("rawResponse", prop response "raw_json")];
                 stack := if is_string (NODE_ENV w1) "development"
                          then stack_trace w1 else JUndefined |}) w1
    else
      createResponse
        (JObj [("messageId", if truthy ts then ts else JStr "");
               ("timestamp", if truthy ts then ts else JStr "")]) None w1.
Proof.
  intros Hvalid Hconfig Hcall Hresponse.
  destruct (validateInput_object _ _ _ Hvalid) as [fs ->].
  cbv zeta. unfold sendMessage.
  rewrite run_try_catch, Hvalid, run_lift_ok.
  rewrite !run_require_config by exact Hconfig.
  rewrite (get_prop_ok (this_config w)) by (apply truthy_not_nullish, Hconfig).
  rewrite run_lift_ok, !get_prop_object, !run_lift_ok, run_external.
  unfold send_call in Hcall. cbn [prop] in Hcall. rewrite Hcall.
  rewrite (get_prop_ok response), run_lift_ok by exact Hresponse.
  assert (truthy (JStr (suggestion_for (prop response "error"))) = true) as Hhint.
  { unfold suggestion_for.
    repeat match goal with
           | |- context [if is_string ?v ?c then _ else _] => destruct (is_string v c)
           end; reflexivity. }
  destruct (truthy (prop response "ok")); cbn [negb];
    repeat first
      [ rewrite run_lift_ok
      | rewrite (get_prop_ok response) by exact Hresponse
      | rewrite or_else_total
      | rewrite Hhint
      | rewrite run_createError
      | rewrite run_createResponse ];
    reflexivity.
Qed.



(** C10.  When the provider accepts a message (its response has a truthy
    [ok]), [sendMessage] returns a successful envelope whose
    [data.messageId] and [data.timestamp] are the same value: the [ts] of
    the response, or the empty string when [ts] is absent (or falsy). *)
Theorem sendMessage_success_ids (request authContext validated response : JsVal)
    (w : World) :
  validateInput SendMessageSchema request = Ok validated ->
  truthy (this_config w) = true ->
  nango w (calls w) (send_call validated w) = Ok response ->
  nullish response = false ->
  truthy (prop response "ok") = true ->
  exists r w',
    sendMessage request authContext w = (Ok r, w') /\
    success r = true /\ error r = None /\
    prop (data r) "messageId" = prop (data r) "timestamp" /\
    prop (data r) "messageId"
      = (if truthy (prop response "ts") then prop response "ts" else JStr "") /\
    (prop response "ts" = JUndefined -> prop (data r) "messageId" = JStr "").
Proof.
  intros Hvalid Hconfig Hcall Hresponse Hok.
  rewrite (sendMessage_answered _ authContext _ _ _ Hvalid Hconfig Hcall Hresponse).
  cbv zeta. rewrite Hok. cbn [negb]. rewrite run_createResponse.
  eexists. eexists.
  split; [reflexivity |]. cbn [success data error prop lookup_field
                               String.eqb Ascii.eqb Bool.eqb].
  repeat split. intros ->. reflexivity.
Qed.

End AdapterFacts.

(* ===================================================================== *)
(** * Scenarios *)
(* ===================================================================== *)

Section Scenarios.
Import SlackService.

(** [getUsers({limit: 5})] against a provider that returns three members
    and the cursor "abc": a well-formed envelope with three users. *)
Lemma envelope_exactly_one_witness :
  let request := JObj [("limit", num 5)] in
  let member i := JObj [("id", JStr i); ("name", JStr "user")] in
  let response :=
    JObj [("ok", JBool true);
          ("members", JArr [member "U1"; member "U2"; member "U3"]);
          ("response_metadata", JObj [("next_cursor", JStr "abc")])] in
  exists r w',
    @getUsers sample_printer request JUndefined (world (sdk_answers response) sample_config)
      = (Ok r, w') /\
    prop (data r) "nextCursor" = JStr "abc" /\
    well_formed r.
Proof.
  cbv zeta.
  match goal with
  | |- exists r w', ?run = _ /\ _ => destruct run as [[r | e] w'] eqn:Hrun
  end.
  - exists r, w'. split; [reflexivity |]. split.
    + vm_compute in Hrun. injection Hrun as <- _. reflexivity.
    + exact (@envelope_exactly_one sample_printer GetUsers _ _ _ _ _ Hrun).
  - vm_compute in Hrun. discriminate.
Defined.

(** [getUsers({limit: 0})]: rejected before any call, with the issue of
    the schema in the message. *)
Lemma malformed_input_rejected_witness :
  exists r w' e,
    @run sample_printer GetUsers (JObj [("limit", num 0)]) JUndefined
      (world (sdk_rejects 401) sample_config) = (Ok r, w') /\
    success r = false /\ data r = JUndefined /\ error r = Some e /\
    code e = IntegrationErrorCodes.API_ERROR /\
    message e
      = "Failed to fetch users: Validation failed: Number must be greater than or equal to 1" /\
    calls w' = [].
Proof.
  destruct (@malformed_input_rejected sample_printer GetUsers (JObj [("limit", num 0)])
              JUndefined (world (sdk_rejects 401) sample_config))
    as (r & w' & e & Hrun & Hfailed & Hdata & He & Hcode & _ & Hmessage & Hcalls).
  - exists (Finite 0). split; [reflexivity | left; reflexivity].
  - exists r, w', e. repeat split; assumption.
Defined.

(** C2, as stated, fails on the error code: an empty message text is
    answered with the code [API_ERROR], which is not a validation code. *)
Lemma empty_text_is_not_a_validation_error :
  let request := JObj [("channel", JStr "#general"); ("text", JStr "")] in
  exists r w' e,
    @sendMessage sample_printer request JUndefined (world (sdk_rejects 401) sample_config)
      = (Ok r, w') /\
    success r = false /\ error r = Some e /\
    code e = "API_ERROR" /\
    message e = "Failed to send message: Validation failed: Message text is required" /\
    ~ In (code e) IntegrationErrorCodes.validation_codes.
Proof.
  cbv zeta. eexists. eexists. eexists.
  split; [vm_compute; reflexivity |].
  split; [reflexivity |]. split; [reflexivity |].
  split; [reflexivity |]. split; [reflexivity |].
  cbn. intuition discriminate.
Qed.

(** A text of 4001 characters passes [SendMessageSchema], which has no
    upper bound, and is sent; [messageContentSchema] would reject it. *)
Remark long_text_is_sent :
  let text := repeat_string "x" 4001 in
  let request := JObj [("channel", JStr "#general"); ("text", JStr text)] in
  let response := JObj [("ok", JBool true); ("ts", JStr "1700000000.000100")] in
  String.length text = 4001%nat /\
  snd (parse messageContentSchema (JStr text)) = ["Message too long"] /\
  exists r w',
    @sendMessage sample_printer request JUndefined (world (sdk_answers response) sample_config)
      = (Ok r, w') /\
    success r = true /\
    calls w' = [TriggerAction (JStr "slack") (JStr "conn-1") (JStr "send-message") request].
Proof.
  cbv zeta. split; [vm_compute; reflexivity |]. split; [vm_compute; reflexivity |].
  eexists. eexists. split; [vm_compute; reflexivity |].
  split; vm_compute; reflexivity.
Qed.

(** C3 on the code: with a valid configuration and an SDK that rejects
    every call with status 401, [initialize] resolves and stores the
    configuration; the probe it ran is lost, and the failure shows only
    when [testConnection] is called again. *)
Theorem initialize_resolves_when_probe_fails :
  let w := world (sdk_rejects 401) JUndefined in
  exists w',
    @initialize sample_printer sample_config w = (Ok tt, w') /\
    this_config w' = sample_config /\
    List.length (calls w') = 1%nat /\
    exists hc w'',
      @testConnection sample_printer w' = (Ok hc, w'') /\
      status hc = unhealthy /\
      health_details hc
        = JObj [("error", JStr "Authentication failed - token may be expired")].
Proof.
  cbv zeta. eexists. split; [vm_compute; reflexivity |].
  split; [reflexivity |]. split; [reflexivity |].
  eexists. eexists. split; [vm_compute; reflexivity |].
  split; reflexivity.
Qed.

(** The authentication probe succeeds and the permission probe is
    rejected with status 403: the health check returns [degraded]. *)
Lemma testConnection_status_witness :
  exists hc w',
    @testConnection sample_printer
      (world (sdk_answers_once (JObj [("ok", JBool true)])) sample_config) = (Ok hc, w') /\
    checks hc = {| authentication := true; apiAccess := true; permissions := false |} /\
    status hc = degraded.
Proof.
  destruct (@testConnection_status sample_printer
              (world (sdk_answers_once (JObj [("ok", JBool true)])) sample_config))
    as (hc & w' & Hrun & _ & Hpermission).
  exists hc, w'. split; [exact Hrun |].
  eapply Hpermission.
  - reflexivity.
  - vm_compute. reflexivity.
  - reflexivity.
  - vm_compute. reflexivity.
Defined.


(** [sendMessage] against the provider response [{ok: true, ts: ...}],
    and against [{ok: true}]. *)
Lemma sendMessage_success_ids_witness :
  let request := JObj [("channel", JStr "#general"); ("text", JStr "hi")] in
  (exists r w',
     @sendMessage sample_printer request JUndefined
       (world (sdk_answers (JObj [("ok", JBool true); ("ts", JStr "1700000000.000100")]))
          sample_config) = (Ok r, w') /\
     prop (data r) "messageId" = JStr "1700000000.000100" /\
     prop (data r) "timestamp" = JStr "1700000000.000100") /\
  (exists r w',
     @sendMessage sample_printer request JUndefined
       (world (sdk_answers (JObj [("ok", JBool true)])) sample_config) = (Ok r, w') /\
     prop (data r) "messageId" = JStr "" /\
     prop (data r) "timestamp" = JStr "").
Proof.
  cbv zeta. split.
  - destruct (@sendMessage_success_ids sample_printer
                (JObj [("channel", JStr "#general"); ("text", JStr "hi")]) JUndefined
                (JObj [("channel", JStr "#general"); ("text", JStr "hi")])
                (JObj [("ok", JBool true); ("ts", JStr "1700000000.000100")])
                (world (sdk_answers (JObj [("ok", JBool true); ("ts", JStr "1700000000.000100")]))
                   sample_config))
      as (r & w' & Hrun & _ & _ & Hsame & Hid & _); try reflexivity.
    exists r, w'. split; [exact Hrun |]. rewrite <- Hsame, Hid. split; reflexivity.
  - destruct (@sendMessage_success_ids sample_printer
                (JObj [("channel", JStr "#general"); ("text", JStr "hi")]) JUndefined
                (JObj [("channel", JStr "#general"); ("text", JStr "hi")])
                (JObj [("ok", JBool true)])
                (world (sdk_answers (JObj [("ok", JBool true)])) sample_config))
      as (r & w' & Hrun & _ & _ & Hsame & _ & Habsent); try reflexivity.
    exists r, w'. split; [exact Hrun |].
    rewrite <- Hsame, (Habsent eq_refl). split; reflexivity.
Defined.

End Scenarios.

(* ===================================================================== *)
(** * Further properties of the adapter *)
(* ===================================================================== *)

(** ** What the operations issue, keep and throw *)

Section WalkRules.
Context {printer : NumberPrinter}.
Import SlackService.
Variable w0 : World.
Variable Pc : ExternalCall -> Prop.
Variable Err : JsVal -> Prop.
Hypothesis Err_error : forall e, nullish e = false -> Err e.

Lemma issued_more (n n' : nat) (w : World) :
  (n <= n')%nat -> issued Pc n w0 w -> issued Pc n' w0 w.
Proof.
  intros Hle (Hframe & l & Hcalls & Hlen & Hall).
  split; [exact Hframe |]. exists l. repeat split; try assumption. lia.
Qed.

Lemma issued_call (n : nat) (w : World) (c : ExternalCall) :
  Pc c -> issued Pc n w0 w -> issued Pc (S n) w0 (with_calls (calls w ++ [c]) w).
Proof.
  intros Hc (Hframe & l & Hcalls & Hlen & Hall).
  split; [exact Hframe |]. exists (l ++ [c]). cbn [calls with_calls].
  rewrite Hcalls, <- app_assoc, length_app. cbn [List.length].
  repeat split; [lia |]. apply Forall_app. split; [exact Hall | repeat constructor; exact Hc].
Qed.

Lemma walk_ret {A} (n n' : nat) (a : A) :
  (n <= n')%nat -> walk w0 Pc Err n (ret a) n'.
Proof. intros Hle w Hw. exact (issued_more _ _ _ Hle Hw). Qed.

Lemma walk_throw {A} (n n' : nat) (e : JsVal) :
  (n <= n')%nat -> nullish e = false -> walk w0 Pc Err n (@throw A e) n'.
Proof.
  intros Hle He w Hw. split; [exact (issued_more _ _ _ Hle Hw) | apply Err_error, He].
Qed.

Lemma walk_lift {A} (n n' : nat) (r : Res A) :
  (n <= n')%nat -> throws_errors r -> walk w0 Pc Err n (lift r) n'.
Proof.
  intros Hle Hr w Hw. unfold lift. pose proof (issued_more _ _ _ Hle Hw) as Hw'.
  destruct r as [a | e]; [exact Hw' |].
  split; [exact Hw' | apply Err_error, Hr; reflexivity].
Qed.

Lemma walk_bind {A B} (n n1 n2 : nat) (m : M A) (k : A -> M B) :
  (n1 <= n2)%nat ->
  walk w0 Pc Err n m n1 -> (forall a, walk w0 Pc Err n1 (k a) n2) ->
  walk w0 Pc Err n (mbind m k) n2.
Proof.
  intros Hle Hm Hk w Hw. unfold mbind. specialize (Hm w Hw).
  destruct (m w) as [[a | e] w'].
  - exact (Hk a w' Hm).
  - destruct Hm as [Hissued He]. split; [exact (issued_more _ _ _ Hle Hissued) | exact He].
Qed.

(** A pure step, whose value the rest of the walk may use. *)
Lemma walk_bind_lift {A B} (n n' : nat) (r : Res A) (k : A -> M B) :
  (n <= n')%nat -> throws_errors r ->
  (forall a, r = Ok a -> walk w0 Pc Err n (k a) n') ->
  walk w0 Pc Err n (mbind (lift r) k) n'.
Proof.
  intros Hle Hr Hk w Hw. unfold mbind, lift.
  destruct r as [a | e]; [exact (Hk a eq_refl w Hw) |].
  split; [exact (issued_more _ _ _ Hle Hw) | apply Err_error, Hr; reflexivity].
Qed.

Lemma walk_bind_require_config {B} (n n' : nat) (k : JsVal -> M B) :
  (n <= n')%nat ->
  (truthy (this_config w0) = true -> walk w0 Pc Err n (k (this_config w0)) n') ->
  walk w0 Pc Err n (mbind require_config k) n'.
Proof.
  intros Hle Hk w Hw. unfold require_config, mbind, get_config, throw, ret. cbv beta.
  assert (this_config w = this_config w0) as Hconfig by (destruct Hw as ((-> & _) & _); reflexivity).
  rewrite Hconfig.
  destruct (truthy (this_config w0)) eqn:Htruthy; cbn [negb].
  - exact (Hk eq_refl w Hw).
  - split; [exact (issued_more _ _ _ Hle Hw) | apply Err_error; reflexivity].
Qed.

Lemma walk_createError (n n' : nat) (c m : string) (d : JsVal) :
  (n <= n')%nat -> walk w0 Pc Err n (createError c m d) n'.
Proof. intros Hle w Hw. exact (issued_more _ _ _ Hle Hw). Qed.

Lemma walk_createResponse (n n' : nat) (d : JsVal) (e : option IntegrationError) :
  (n <= n')%nat -> walk w0 Pc Err n (createResponse d e) n'.
Proof. intros Hle w Hw. rewrite run_createResponse. exact (issued_more _ _ _ Hle Hw). Qed.

Lemma walk_external (c : ExternalCall) :
  Pc c -> (forall history e, nango w0 history c = Throw e -> Err e) ->
  walk w0 Pc Err 0 (external c) 1.
Proof.
  intros Hc Hreject w Hw. unfold external.
  pose proof (issued_call 0 w c Hc Hw) as Hafter.
  destruct (nango w (calls w) c) as [a | e] eqn:Hanswer; [exact Hafter |].
  split; [exact Hafter |].
  destruct Hw as ((_ & Hnango & _) & _). rewrite Hnango in Hanswer.
  exact (Hreject _ _ Hanswer).
Qed.

Lemma walk_makeApiCall (endpoint : string) (d : JsVal) :
  Pc (proxy_call endpoint d w0) ->
  walk w0 Pc Err 0 (makeApiCall endpoint d "POST") 1.
Proof.
  intros Hc w Hw.
  destruct (makeApiCall endpoint d "POST" w) as [[a | e] w'] eqn:Hrun.
  - destruct (truthy (this_config w)) eqn:Hconfig.
    + rewrite makeApiCall_run in Hrun by exact Hconfig. cbv zeta in Hrun.
      injection Hrun as _ <-.
      assert (prop (this_config w) "nangoConnectionId"
              = prop (this_config w0) "nangoConnectionId") as ->
        by (destruct Hw as ((-> & _) & _); reflexivity).
      apply issued_call; assumption.
    + unfold makeApiCall, mbind, get_config, throw in Hrun. cbv beta in Hrun.
      rewrite Hconfig in Hrun. discriminate.
  - split; [| apply Err_error; exact (makeApiCall_throws _ _ _ _ _ _ Hrun)].
    destruct (truthy (this_config w)) eqn:Hconfig.
    + rewrite makeApiCall_run in Hrun by exact Hconfig. cbv zeta in Hrun.
      injection Hrun as _ <-.
      assert (prop (this_config w) "nangoConnectionId"
              = prop (this_config w0) "nangoConnectionId") as ->
        by (destruct Hw as ((-> & _) & _); reflexivity).
      apply issued_call; assumption.
    + unfold makeApiCall, mbind, get_config, throw in Hrun. cbv beta in Hrun.
      rewrite Hconfig in Hrun. cbn [negb] in Hrun. injection Hrun as _ <-.
      exact (issued_more 0 1 w ltac:(lia) Hw).
Qed.

(** The [catch] block of an operation reports every error object, and
    lets through what is not one. *)
Lemma walk_operation (n n' : nat) (body : M IntegrationResponse) (prefix : string) :
  walk w0 Pc Err n body n' ->
  walk w0 Pc (escapes Err) n (try_catch body (operation_catch prefix)) n'.
Proof.
  intros Hbody w Hw. rewrite run_try_catch. specialize (Hbody w Hw).
  destruct (body w) as [[r | e] w']; [exact Hbody |].
  destruct Hbody as [Hissued He].
  unfold operation_catch.
  destruct (nullish e) eqn:Hnullish.
  - unfold get_prop. rewrite Hnullish, run_lift_throw.
    split; [exact Hissued | exists e; split; assumption].
  - rewrite (get_prop_ok e), run_lift_ok, run_createError, run_createResponse
      by exact Hnullish.
    exact Hissued.
Qed.

End WalkRules.

Section Throws.
Import SlackTransformer SlackService.

Lemma get_prop_value (v a : JsVal) (k : string) :
  get_prop v k = Ok a -> nullish v = false /\ a = prop v k.
Proof.
  unfold get_prop. destruct (nullish v); [discriminate |].
  intros [= <-]. split; reflexivity.
Qed.

Lemma throws_get_prop (v : JsVal) (k : string) : throws_errors (get_prop v k).
Proof. intros e He. exact (get_prop_throws _ _ _ He). Qed.

Lemma throws_get_opt (v : JsVal) (k : string) : throws_errors (get_opt v k).
Proof. intros e. rewrite get_opt_total. discriminate. Qed.

Lemma throws_or_else (a b : JsVal) : throws_errors (or_else a (Ok b)).
Proof. intros e. rewrite or_else_total. discriminate. Qed.

Lemma throws_validateInput (schema : ZodType) (request : JsVal) :
  throws_errors (validateInput schema request).
Proof.
  intros e. unfold validateInput.
  destruct (parse schema request) as [v [| issue issues]]; [discriminate |].
  intros [= <-]. reflexivity.
Qed.

Lemma toStandardUser_value (u : JsVal) :
  nullish u = false -> toStandardUser u = Ok (standard_user u).
Proof. intros Hu. exact (toStandardUser_object u Hu). Qed.

Lemma toStandardChannel_value (c : JsVal) :
  nullish c = false -> toStandardChannel c = Ok (standard_channel c).
Proof.
  intros Hc. unfold toStandardChannel, standard_channel, first_truthy.
  rewrite !(get_prop_ok c) by exact Hc. cbn [bind].
  repeat (rewrite ?or_else_total, ?get_opt_total; cbn [bind]).
  destruct (truthy (prop c "is_im")); cbn [bind]; [reflexivity |].
  destruct (truthy (if truthy (prop c "is_mpim") then prop c "is_mpim"
                    else prop c "is_group")); cbn [bind]; [reflexivity |].
  destruct (truthy (prop c "is_private")); reflexivity.
Qed.

Lemma throws_toStandardUser (u : JsVal) : throws_errors (toStandardUser u).
Proof.
  intros e. destruct (nullish u) eqn:Hu.
  - unfold toStandardUser, get_prop. rewrite Hu. intros [= <-]. reflexivity.
  - rewrite toStandardUser_value by exact Hu. discriminate.
Qed.

Lemma throws_toStandardChannel (c : JsVal) : throws_errors (toStandardChannel c).
Proof.
  intros e. destruct (nullish c) eqn:Hc.
  - unfold toStandardChannel, get_prop. rewrite Hc. intros [= <-]. reflexivity.
  - rewrite toStandardChannel_value by exact Hc. discriminate.
Qed.

Lemma throws_js_map (what : string) (f : JsVal -> Res JsVal) (v : JsVal) :
  (forall x, throws_errors (f x)) -> throws_errors (js_map what f v).
Proof.
  intros Hf e. unfold js_map.
  destruct v as [| | | | | items |]; try (intros [= <-]; reflexivity).
  assert (throws_errors (map_items f items)) as Hitems.
  { induction items as [| x items IH]; [discriminate |].
    intros e'. cbn [map_items].
    destruct (f x) as [y | ex] eqn:Hx; cbn [bind]; [| intros [= <-]; exact (Hf x _ Hx)].
    destruct (map_items f items) as [ys | es]; cbn [bind]; [discriminate |].
    intros [= <-]. apply IH. reflexivity. }
  destruct (map_items f items) as [ys | es]; cbn [bind]; [discriminate |].
  intros [= <-]. apply Hitems. reflexivity.
Qed.

End Throws.

Ltac walk_side :=
  first
    [ lia
    | assumption
    | reflexivity
    | apply throws_get_prop
    | apply throws_get_opt
    | apply throws_or_else
    | apply throws_validateInput
    | apply throws_toStandardUser
    | apply throws_js_map; intros ?;
      first [apply throws_toStandardUser | apply throws_toStandardChannel] ].

(** One step of the walk through the body of an operation. *)
Ltac walk_auto :=
  lazymatch goal with
  | |- walk _ _ _ _ (mbind (lift _) _) _ =>
      apply walk_bind_lift; [solve [auto] | lia | walk_side | intros ? ?; walk_auto]
  | |- walk _ _ _ _ (mbind SlackService.require_config _) _ =>
      apply walk_bind_require_config; [solve [auto] | lia | intros ?; walk_auto]
  | |- walk _ _ _ _ (mbind (SlackService.makeApiCall _ _ _) _) _ =>
      apply walk_bind with (n1 := 1%nat);
      [lia | apply walk_makeApiCall; [solve [auto] | eexists; reflexivity]
           | intros ?; walk_auto]
  | |- walk _ _ _ _ (mbind (external _) _) _ => idtac
  | |- walk _ _ _ ?n (mbind _ _) _ =>
      apply walk_bind with (n1 := n); [lia | walk_auto | intros ?; walk_auto]
  | |- walk _ _ _ _ (if ?c then _ else _) _ => destruct c; walk_auto
  | |- walk _ _ _ _ (lift _) _ => apply walk_lift; [solve [auto] | lia | walk_side]
  | |- walk _ _ _ _ (ret _) _ => apply walk_ret; lia
  | |- walk _ _ _ _ (throw _) _ => apply walk_throw; [solve [auto] | lia | reflexivity]
  | |- walk _ _ _ _ (SlackService.createError _ _ _) _ => apply walk_createError; lia
  | |- walk _ _ _ _ (SlackService.createResponse _ _) _ => apply walk_createResponse; lia
  | |- _ => idtac
  end.

Section OperationWalks.
Context {printer : NumberPrinter}.
Import SlackService.
Variable w0 : World.

Lemma getUserInfo_walk (request authContext : JsVal) :
  walk w0 (expected_call GetUserInfo w0) (escapes (fun e => nullish e = false)) 0
    (getUserInfo request authContext) 1.
Proof. unfold getUserInfo. apply walk_operation. walk_auto. Qed.

Lemma getUsers_walk (request authContext : JsVal) :
  walk w0 (expected_call GetUsers w0) (escapes (fun e => nullish e = false)) 0
    (getUsers request authContext) 1.
Proof. unfold getUsers. cbv zeta. apply walk_operation. walk_auto. Qed.

Lemma getChannels_walk (request authContext : JsVal) :
  walk w0 (expected_call GetChannels w0) (escapes (fun e => nullish e = false)) 0
    (getChannels request authContext) 1.
Proof. unfold getChannels. cbv zeta. apply walk_operation. walk_auto. Qed.

Lemma sendMessage_walk (request authContext : JsVal) :
  walk w0 (expected_call SendMessage w0)
    (escapes (fun e => rejects_with_errors w0 -> nullish e = false)) 0
    (sendMessage request authContext) 1.
Proof.
  unfold sendMessage. apply walk_operation. walk_auto.
  match goal with
  | Hconfig : get_prop (this_config w0) _ = Ok _,
    Hchannel : get_prop _ "channel" = Ok _,
    Htext : get_prop _ "text" = Ok _ |- _ =>
      apply get_prop_value in Hconfig, Hchannel, Htext;
      destruct Hconfig as [_ ->], Hchannel as [_ ->], Htext as [_ ->]
  end.
  apply walk_bind with (n1 := 1%nat); [lia | | intros ?; walk_auto].
  apply walk_external.
  - eexists. reflexivity.
  - intros history e Hreject Hpolite. exact (Hpolite _ _ _ Hreject).
Qed.

Lemma operation_walk (op : Operation) (request authContext : JsVal) :
  walk w0 (expected_call op w0)
    (escapes (fun e =>
                match op with
                | SendMessage => rejects_with_errors w0 -> nullish e = false
                | _ => nullish e = false
                end)) 0
    (run op request authContext) 1.
Proof.
  destruct op; cbn [run].
  - apply sendMessage_walk.
  - apply getUserInfo_walk.
  - apply getUsers_walk.
  - apply getChannels_walk.
Qed.

End OperationWalks.

Lemma issued_start (Pc : ExternalCall -> Prop) (w : World) : issued Pc 0 w w.
Proof.
  split; [repeat split |]. exists []. rewrite app_nil_r.
  repeat split; [cbn; lia | constructor].
Qed.

(** X1.  Whatever the request and whatever the SDK answers, an operation
    leaves the stored configuration as it is and issues at most one
    external call, added to the calls issued before: the [send-message]
    action for [sendMessage], a POST proxy call to its own endpoint for
    the others, each with the stored connection id and the provider key
    [slack]. *)
Theorem operation_issues_one_call {printer : NumberPrinter} (op : Operation)
    (request authContext : JsVal) (w : World) :
  let w' := snd (run op request authContext w) in
  this_config w' = this_config w /\
  exists l, calls w' = calls w ++ l /\ (List.length l <= 1)%nat /\
            Forall (expected_call op w) l.
Proof.
  cbv zeta.
  pose proof (operation_walk w op request authContext w (issued_start _ w)) as Hwalk.
  destruct (run op request authContext w) as [[r | e] w']; cbn [snd].
  - destruct Hwalk as ((Hconfig & _) & Hcalls). split; assumption.
  - destruct Hwalk as [((Hconfig & _) & Hcalls) _]. split; assumption.
Qed.

(** X2.  [getUserInfo], [getUsers] and [getChannels] never throw: for
    every request and every behaviour of the SDK, also when it rejects
    with a value that is not an error, they return an envelope. *)
Theorem proxy_operations_never_throw {printer : NumberPrinter} (op : Operation)
    (request authContext : JsVal) (w : World) :
  op <> SendMessage ->
  exists r w', run op request authContext w = (Ok r, w').
Proof.
  intros Hop.
  pose proof (operation_walk w op request authContext w (issued_start _ w)) as Hwalk.
  destruct (run op request authContext w) as [[r | e] w']; [eauto |].
  destruct Hwalk as [_ (e0 & He0 & Hnullish)].
  destruct op; [congruence | | |]; congruence.
Qed.


(** ** The error codes of the operations *)

Section FailureCodes.
Context {printer : NumberPrinter}.
Import SlackService.

Lemma post_bind_createError (c m : string) (d : JsVal)
    (k : IntegrationError -> M IntegrationResponse) (Q : IntegrationResponse -> Prop) :
  (forall e, code e = c -> post (k e) Q) -> post (mbind (createError c m d) k) Q.
Proof.
  intros Hk w r w'. rewrite run_createError. apply Hk. reflexivity.
Qed.

Lemma createResponse_reports (op : Operation) (d : JsVal) (e : IntegrationError) :
  reported_code op (code e) -> post (createResponse d (Some e)) (reports op).
Proof.
  intros Hcode w r w'. rewrite run_createResponse. intros [= <- _] _.
  exists e. split; [reflexivity | exact Hcode].
Qed.

Lemma createResponse_succeeds (op : Operation) (d : JsVal) :
  post (createResponse d None) (reports op).
Proof. intros w r w'. rewrite run_createResponse. intros [= <- _]. discriminate. Qed.

Lemma operation_catch_reports (op : Operation) (prefix : string) (e : JsVal) :
  post (operation_catch prefix e) (reports op).
Proof.
  unfold operation_catch. apply post_bind_any; intros message.
  apply post_bind_createError; intros err Hcode.
  apply createResponse_reports. left. exact Hcode.
Qed.

Ltac reports_step :=
  lazymatch goal with
  | |- post (try_catch _ (operation_catch _)) _ =>
      apply post_try_catch; [| intros ?; apply operation_catch_reports]
  | |- post (mbind (createError _ _ _) _) _ =>
      apply post_bind_createError; intros ? ?
  | |- post (mbind _ _) _ => apply post_bind_any; intros ?
  | |- post (if ?c then _ else _) _ => destruct c
  | |- post (createResponse _ (Some _)) _ =>
      apply createResponse_reports; first [left; assumption | right; split; [reflexivity | assumption]]
  | |- post (createResponse _ None) _ => apply createResponse_succeeds
  | |- post (throw _) _ => apply post_throw
  end.

Lemma sendMessage_reports request authContext :
  post (sendMessage request authContext) (reports SendMessage).
Proof. unfold sendMessage. repeat reports_step. Qed.

Lemma getUserInfo_reports request authContext :
  post (getUserInfo request authContext) (reports GetUserInfo).
Proof. unfold getUserInfo. repeat reports_step. Qed.

Lemma getUsers_reports request authContext :
  post (getUsers request authContext) (reports GetUsers).
Proof. unfold getUsers. cbv zeta. repeat reports_step. Qed.

Lemma getChannels_reports request authContext :
  post (getChannels request authContext) (reports GetChannels).
Proof. unfold getChannels. cbv zeta. repeat reports_step. Qed.

(** X4.  A failed envelope of an operation carries the code [API_ERROR],
    or [RESOURCE_NOT_FOUND] from [getUserInfo]: whatever went wrong
    (validation, authentication, rate limit, provider error), no
    operation ever reports another code of [IntegrationErrorCodes]. *)
Theorem operation_failure_codes (op : Operation) (request authContext : JsVal)
    (w w' : World) (r : IntegrationResponse) :
  run op request authContext w = (Ok r, w') ->
  success r = false ->
  exists e, error r = Some e /\
            (code e = API_ERROR \/ (op = GetUserInfo /\ code e = RESOURCE_NOT_FOUND)).
Proof.
  intros Hrun. revert w r w' Hrun.
  change (post (run op request authContext) (reports op)).
  destruct op; cbn [run].
  - apply sendMessage_reports.
  - apply getUserInfo_reports.
  - apply getUsers_reports.
  - apply getChannels_reports.
Qed.

End FailureCodes.

(** ** The operations on an answered call *)

Section Answered.
Context {printer : NumberPrinter}.
Import SlackTransformer SlackService.


Lemma run_operation_catch_object (prefix : string) (e : JsVal) (w : World) :
  nullish e = false ->
  operation_catch prefix e w =
    createResponse JUndefined
      (Some {| code := API_ERROR;
               message := prefix +:+ to_string (prop e "message");
               details := JUndefined;
               stack := if is_string (NODE_ENV w) "development"
                        then stack_trace w else JUndefined |}) w.
Proof.
  intros He. unfold operation_catch.
  rewrite (get_prop_ok e), run_lift_ok, run_createError by exact He. reflexivity.
Qed.






End Answered.

(** ** Edges: no configuration, rejected calls, invalid configuration *)

Section Edges.
Context {printer : NumberPrinter}.
Import SlackService.

Lemma validateInput_cases (schema : ZodType) (request : JsVal) :
  validateInput schema request =
    match snd (parse schema request) with
    | [] => Ok (fst (parse schema request))
    | issues => Throw (Error ("Validation failed: " +:+ join ", " issues))
    end.
Proof.
  unfold validateInput. destruct (parse schema request) as [v [| issue issues]]; reflexivity.
Qed.

Lemma run_bind {A B} (m : M A) (k : A -> M B) (w w1 : World) (r : Res A) :
  m w = (r, w1) ->
  mbind m k w = match r with Ok a => k a w1 | Throw e => (Throw e, w1) end.
Proof. intros Hm. unfold mbind. rewrite Hm. reflexivity. Qed.

Lemma makeApiCall_uninitialized (endpoint method : string) (d : JsVal) (w : World) :
  truthy (this_config w) = false ->
  makeApiCall endpoint d method w = (Throw (Error "Integration not initialized"), w).
Proof.
  intros Hconfig. unfold makeApiCall, mbind, get_config, throw. cbv beta.
  rewrite Hconfig. reflexivity.
Qed.

Lemma require_config_uninitialized (w : World) :
  truthy (this_config w) = false ->
  require_config w = (Throw (Error "Integration not initialized"), w).
Proof.
  intros Hconfig. unfold require_config, mbind, get_config, throw. cbv beta.
  rewrite Hconfig. reflexivity.
Qed.


(** X8.  On an adapter that is not initialized, every operation returns
    an envelope with [success = false] and the code [API_ERROR], and
    issues no external call, whatever the request; when the request is
    valid the message is the operation's prefix followed by
    "Integration not initialized". *)
Theorem operation_needs_configuration (op : Operation) (request authContext : JsVal)
    (w : World) :
  truthy (this_config w) = false ->
  exists r w' e,
    run op request authContext w = (Ok r, w') /\
    success r = false /\ data r = JUndefined /\ error r = Some e /\
    code e = API_ERROR /\ calls w' = calls w /\
    (snd (parse (schema_of op) (input_of op request)) = [] ->
     message e = failure_prefix op +:+ "Integration not initialized").
Proof.
  intros Hconfig.
  assert (Hbody : forall (k : JsVal -> M IntegrationResponse),
            (forall v, k v w = (Throw (Error "Integration not initialized"), w)) ->
            exists r w' e,
              try_catch
                (mbind (lift (validateInput (schema_of op) (input_of op request))) k)
                (operation_catch (failure_prefix op)) w = (Ok r, w') /\
              success r = false /\ data r = JUndefined /\ error r = Some e /\
              code e = API_ERROR /\ calls w' = calls w /\
              (snd (parse (schema_of op) (input_of op request)) = [] ->
               message e = failure_prefix op +:+ "Integration not initialized")).
  { intros k Hk. rewrite run_try_catch, validateInput_cases.
    destruct (snd (parse (schema_of op) (input_of op request))) as [| issue issues].
    - rewrite run_lift_ok, Hk, run_operation_catch, run_createResponse.
      eexists. eexists. eexists. repeat split.
    - rewrite run_lift_throw, run_operation_catch, run_createResponse.
      eexists. eexists. eexists. repeat split. discriminate. }
  destruct op; cbn [run]; apply Hbody; intros v.
  - rewrite (run_bind _ _ _ _ _ (require_config_uninitialized w Hconfig)). reflexivity.
  - rewrite (run_bind _ _ _ _ _ (makeApiCall_uninitialized _ _ _ w Hconfig)). reflexivity.
  - rewrite (run_bind _ _ _ _ _ (makeApiCall_uninitialized _ _ _ w Hconfig)). reflexivity.
  - rewrite (run_bind _ _ _ _ _ (makeApiCall_uninitialized _ _ _ w Hconfig)). reflexivity.
Qed.


(** X10.  [initialize] with a configuration whose [nangoConnectionId] is
    not a non-empty string throws "Failed to initialize Slack
    integration: Validation failed: ..." and changes nothing: the stored
    configuration is kept and no call is issued. *)
Theorem initialize_rejects_configuration (config : JsVal) (w : World) :
  ~ connection_id (prop config "nangoConnectionId") ->
  exists issues,
    initialize config w =
      (Throw (Error ("Failed to initialize Slack integration: Validation failed: "
                       +:+ issues)), w).
Proof.
  intros Hid.
  assert (snd (parse configSchema config) <> []) as Hissue.
  { destruct config as [| | | | | | fs]; try (cbn; discriminate).
    apply (parse_object_issue _ _ "nangoConnectionId"
             (ZString (Some (1%nat, "Nango connection ID is required")) None));
      [cbn; tauto |].
    cbn [prop] in Hid.
    destruct (lookup_field "nangoConnectionId" fs) as [| | | | s | |];
      try (cbn; discriminate).
    destruct s as [| c s]; [cbn; discriminate |].
    exfalso. apply Hid. eexists. split; [reflexivity | discriminate]. }
  unfold initialize. rewrite run_try_catch, validateInput_cases.
  destruct (snd (parse configSchema config)) as [| issue issues]; [congruence |].
  rewrite run_lift_throw. cbn [get_prop nullish Error prop lookup_field String.eqb
                               Ascii.eqb Bool.eqb].
  rewrite run_lift_ok. eexists. reflexivity.
Qed.

End Edges.

(** ** The calls of the health check *)

Section HealthCalls.
Context {printer : NumberPrinter}.
Import SlackService.

Lemma testConnection_catch_calls (c : HealthChecks) (e : JsVal) (w : World) :
  calls (snd (testConnection_catch c e w)) = calls w.
Proof.
  unfold testConnection_catch, mbind, now, lift, ret. cbn.
  destruct (get_prop e "message"); reflexivity.
Qed.

(** X11.  [testConnection] issues no call on an adapter that is not
    initialized; otherwise it issues the probe of [/auth.test], followed
    by the probe of [/conversations.list] exactly when the first answer
    has a truthy [ok]: never more than two calls, and no permission probe
    after a failed authentication. *)
Theorem testConnection_calls (w : World) :
  calls (snd (testConnection w)) =
    calls w ++
    (if truthy (this_config w) then
       proxy_call "/auth.test" JUndefined w ::
       (if authenticated w
        then [proxy_call "/conversations.list" (JObj [("limit", num 1)]) w]
        else [])
     else []).
Proof.
  unfold testConnection, authenticated.
  destruct (truthy (this_config w)) eqn:Hconfig; cbn [negb].
  2: { rewrite testConnection_catch_calls, app_nil_r. reflexivity. }
  rewrite makeApiCall_run by exact Hconfig. cbv zeta.
  change (Proxy (JObj [("endpoint", JStr "/auth.test"); ("method", JStr "POST");
                       ("data", JUndefined);
                       ("connectionId", prop (this_config w) "nangoConnectionId");
                       ("providerConfigKey", JStr "slack")]))
    with (proxy_call "/auth.test" JUndefined w).
  set (w1 := with_calls (calls w ++ [proxy_call "/auth.test" JUndefined w]) w).
  assert (Hfinish : forall (c : HealthChecks) w2,
            this_config w2 = this_config w ->
            calls (snd (let '(timestamp, w3) := read_clock w2 in
                        match get_prop (this_config w3) "nangoConnectionId" with
                        | Throw error => testConnection_catch c error w3
                        | Ok connectionId =>
                            (Ok {| status := if authentication c && apiAccess c
                                                && permissions c
                                             then healthy
                                             else if authentication c then degraded
                                             else unhealthy;
                                   health_timestamp := timestamp;
                                   checks := c;
                                   health_details :=
                                     JObj [("connectionId", connectionId)] |}, w3)
                        end)) = calls w2).
  { intros c w2 Hsame. unfold read_clock. cbn [this_config with_ticks].
    rewrite (get_prop_ok (this_config w2))
      by (rewrite Hsame; apply truthy_not_nullish, Hconfig).
    reflexivity. }
  destruct (nango w (calls w) (proxy_call "/auth.test" JUndefined w)) as [answer | e].
  - destruct (nullish answer) eqn:Hanswer.
    + unfold get_prop at 1. rewrite Hanswer.
      destruct (makeApiCall_catch_throws
                  (TypeError ("Cannot read properties of " +:+ describe answer
                                +:+ " (reading '" +:+ "data" +:+ "')")))
        as (e1 & -> & _).
      rewrite testConnection_catch_calls.
      destruct answer; try discriminate; reflexivity.
    + rewrite (get_prop_ok answer) by exact Hanswer.
      destruct (nullish (prop answer "data")) eqn:Hresponse.
      * unfold get_prop at 1. rewrite Hresponse.
        rewrite testConnection_catch_calls.
        destruct (prop answer "data"); try discriminate; reflexivity.
      * rewrite (get_prop_ok (prop answer "data")) by exact Hresponse.
        destruct (truthy (prop (prop answer "data") "ok")) eqn:Hok.
        -- assert (truthy (this_config w1) = true) as Hconfig1 by exact Hconfig.
           pose proof (makeApiCall_run "/conversations.list" "POST"
                         (JObj [("limit", num 1)]) w1 Hconfig1) as Hlist.
           cbv zeta in Hlist.
           destruct (makeApiCall "/conversations.list" (JObj [("limit", num 1)]) "POST" w1)
             as [[r | e] w2];
             injection Hlist as _ ->;
             rewrite Hfinish by reflexivity;
             cbn [calls with_calls w1]; rewrite <- app_assoc; reflexivity.
        -- rewrite Hfinish by reflexivity. reflexivity.
  - destruct (makeApiCall_catch_throws e) as (e1 & -> & _).
    rewrite testConnection_catch_calls. reflexivity.
Qed.

End HealthCalls.

(** ** What a valid request sends *)

Section Forwarded.
Context {printer : NumberPrinter}.
Import SlackService.

Lemma issued_none (Pc : ExternalCall -> Prop) (w0 w : World) :
  issued Pc 0 w0 w -> calls w = calls w0.
Proof.
  intros (_ & l & Hcalls & Hlen & _).
  destruct l; [rewrite app_nil_r in Hcalls; exact Hcalls | cbn in Hlen; lia].
Qed.

Lemma operation_catch_calls (prefix : string) (e : JsVal) (w : World) :
  calls (snd (operation_catch prefix e w)) = calls w.
Proof.
  destruct (nullish e) eqn:He.
  - unfold operation_catch, get_prop. rewrite He, run_lift_throw. reflexivity.
  - rewrite run_operation_catch_object, run_createResponse by exact He. reflexivity.
Qed.

(** After the proxy call, a continuation that issues no call. *)
Lemma calls_after_makeApiCall (endpoint prefix : string) (d : JsVal)
    (k : JsVal -> M IntegrationResponse) (w : World) :
  truthy (this_config w) = true ->
  (forall a w1, walk w1 (fun _ => False) (fun e => nullish e = false) 0 (k a) 0) ->
  calls (snd (match mbind (makeApiCall endpoint d "POST") k w with
              | (Ok a, w') => (Ok a, w')
              | (Throw e, w') => operation_catch prefix e w'
              end))
  = calls w ++ [proxy_call endpoint d w].
Proof.
  intros Hconfig Hk. unfold mbind.
  rewrite makeApiCall_run by exact Hconfig. cbv zeta.
  change (Proxy (JObj [("endpoint", JStr endpoint); ("method", JStr "POST"); ("data", d);
                       ("connectionId", prop (this_config w) "nangoConnectionId");
                       ("providerConfigKey", JStr "slack")]))
    with (proxy_call endpoint d w).
  set (w1 := with_calls (calls w ++ [proxy_call endpoint d w]) w).
  match goal with
  | |- context [match ?r with Ok a => k a w1 | Throw e => (Throw e, w1) end] =>
      destruct r as [a | e]
  end.
  - pose proof (Hk a w1 w1 (issued_start _ w1)) as Hwalk.
    destruct (k a w1) as [[r | e] w2].
    + apply issued_none in Hwalk. exact Hwalk.
    + destruct Hwalk as [Hwalk _]. apply issued_none in Hwalk.
      rewrite operation_catch_calls. exact Hwalk.
  - rewrite operation_catch_calls. reflexivity.
Qed.

(** X12.  With a valid request on an initialized adapter, [getUserInfo],
    [getUsers] and [getChannels] issue exactly one call, whatever the
    SDK answers: the POST proxy call to the operation's endpoint whose
    data is the validated request. *)
Theorem valid_request_is_forwarded (op : Operation) (endpoint : string)
    (request authContext validated : JsVal) (w : World) :
  endpoint_of op = Some endpoint ->
  validateInput (schema_of op) (input_of op request) = Ok validated ->
  truthy (this_config w) = true ->
  calls (snd (run op request authContext w))
  = calls w ++ [proxy_call endpoint validated w].
Proof.
  intros Hendpoint Hvalid Hconfig.
  destruct op; cbn [endpoint_of] in Hendpoint; [discriminate | | |];
    injection Hendpoint as <-; cbn [run schema_of input_of] in *.
  - unfold getUserInfo. rewrite run_try_catch, Hvalid, run_lift_ok.
    apply calls_after_makeApiCall; [exact Hconfig |].
    intros a w1. walk_auto.
  - unfold getUsers. cbv zeta. rewrite run_try_catch, Hvalid, run_lift_ok.
    apply calls_after_makeApiCall; [exact Hconfig |].
    intros a w1. walk_auto.
  - unfold getChannels. cbv zeta. rewrite run_try_catch, Hvalid, run_lift_ok.
    apply calls_after_makeApiCall; [exact Hconfig |].
    intros a w1. walk_auto.
Qed.

Lemma lookup_keep_key (k k' : string) (v : JsVal) (fs rest : list (string * JsVal)) :
  lookup_field k (keep_key k' v fs ++ rest) =
    if String.eqb k k' then
      match v with
      | JUndefined => if has_field k' fs then JUndefined else lookup_field k rest
      | _ => v
      end
    else lookup_field k rest.
Proof.
  unfold keep_key.
  destruct v; cbn [app lookup_field]; try (destruct (String.eqb k k'); reflexivity).
  destruct (has_field k' fs); cbn [app lookup_field];
    destruct (String.eqb k k'); reflexivity.
Qed.

(** The value of a key in a parsed object: the parsed value of the key
    when the schema declares it, [undefined] otherwise. *)
Lemma parse_keys_lookup (fs : list (string * JsVal)) (shape : list (string * ZodType))
    (k : string) :
  NoDup (List.map fst shape) ->
  lookup_field k (fst (parse_keys fs shape)) =
    match shape_lookup k shape with
    | Some tk => fst (parse tk (lookup_field k fs))
    | None => JUndefined
    end.
Proof.
  induction shape as [| [k' tk'] shape IH]; intros Hnodup; [reflexivity |].
  rewrite parse_keys_cons. cbn [shape_lookup].
  inversion Hnodup as [| ? ? Hfresh Hrest]; subst.
  specialize (IH Hrest).
  destruct (parse tk' (lookup_field k' fs)) as [vk ik] eqn:Hk.
  destruct (parse_keys fs shape) as [out issues]. cbn [fst] in *.
  rewrite lookup_keep_key.
  destruct (String.eqb k k') eqn:Heq; [| exact IH].
  apply String.eqb_eq in Heq. subst k'. rewrite Hk. cbn [fst].
  assert (shape_lookup k shape = None) as Hnone.
  { clear -Hfresh. induction shape as [| [k1 t1] shape IH]; [reflexivity |].
    cbn [shape_lookup]. cbn [List.map fst] in Hfresh.
    destruct (String.eqb k k1) eqn:Heq.
    - apply String.eqb_eq in Heq. subst k1. exfalso. apply Hfresh. left.
    - apply IH. intros Hin. apply Hfresh. right. exact Hin. }
  rewrite Hnone in IH.
  destruct vk; try reflexivity.
  destruct (has_field k fs); [reflexivity | exact IH].
Qed.

(** X13.  The request that [getChannels] validates comes out with the
    schema's defaults applied: [limit] is the given limit or 100,
    [exclude_archived] the given flag or [true], [types] the given types
    or "public_channel,private_channel", [cursor] is passed through, and
    every key that the schema does not declare is dropped. *)
Theorem getChannels_request_defaults (request validated : JsVal) :
  validateInput GetChannelsSchema request = Ok validated ->
  prop validated "limit" = default_to (num 100) (prop request "limit") /\
  prop validated "exclude_archived"
    = default_to (JBool true) (prop request "exclude_archived") /\
  prop validated "types"
    = default_to (JStr "public_channel,private_channel") (prop request "types") /\
  prop validated "cursor" = prop request "cursor" /\
  (forall k, ~ In k ["cursor"; "limit"; "exclude_archived"; "types"] ->
             prop validated k = JUndefined).
Proof.
  intros Hvalid. unfold validateInput in Hvalid.
  destruct (parse GetChannelsSchema request) as [v issues] eqn:Hparse.
  destruct issues; [| discriminate]. injection Hvalid as ->.
  destruct request as [| | | | | | fs]; try (cbn in Hparse; discriminate).
  unfold GetChannelsSchema in Hparse. rewrite parse_object in Hparse.
  set (shape := [("cursor", ZOptional z_string); ("limit", limit_schema);
                 ("exclude_archived", ZDefault (ZOptional ZBoolean) (JBool true));
                 ("types", ZDefault (ZOptional z_string)
                             (JStr "public_channel,private_channel"))]) in *.
  assert (NoDup (List.map fst shape)) as Hnodup
    by (apply (bool_decide_unpack _); vm_compute; exact I).
  pose proof (fun k => parse_keys_lookup fs shape k Hnodup) as Hlookup.
  destruct (parse_keys fs shape) as [out issues].
  injection Hparse as <- _.
  cbn [fst prop] in *. subst shape.
  repeat split.
  - rewrite Hlookup. cbn. destruct (lookup_field "limit" fs) as [| | | [| |] | | |]; reflexivity.
  - rewrite Hlookup. cbn. destruct (lookup_field "exclude_archived" fs); reflexivity.
  - rewrite Hlookup. cbn. destruct (lookup_field "types" fs); reflexivity.
  - rewrite Hlookup. cbn. destruct (lookup_field "cursor" fs); reflexivity.
  - intros k Hk. rewrite Hlookup. cbn [shape_lookup].
    repeat match goal with
           | |- context [if String.eqb k ?c then _ else _] =>
               let Heq := fresh "Heq" in
               destruct (String.eqb k c) eqn:Heq;
               [apply String.eqb_eq in Heq; subst k; exfalso; apply Hk; cbn; tauto |]
           end.
    reflexivity.
Qed.

End Forwarded.

(** ** What [sendMessage] sends *)

Section SendForwarded.
Context {printer : NumberPrinter}.
Import SlackService.

(** A string that the schema accepts is kept as it is. *)
Lemma parse_string_kept (bounds_min bounds_max : option (nat * string)) (v : JsVal) :
  fst (parse (ZString bounds_min bounds_max) v) = v.
Proof. destruct v; reflexivity. Qed.

Lemma sendMessage_validated (request validated : JsVal) :
  validateInput SendMessageSchema request = Ok validated ->
  nullish validated = false /\
  prop validated "channel" = prop request "channel" /\
  prop validated "text" = prop request "text".
Proof.
  intros Hvalid. unfold validateInput in Hvalid.
  destruct (parse SendMessageSchema request) as [v issues] eqn:Hparse.
  destruct issues; [| discriminate]. injection Hvalid as ->.
  destruct request as [| | | | | | fs]; try (cbn in Hparse; discriminate).
  unfold SendMessageSchema in Hparse. rewrite parse_object in Hparse.
  match type of Hparse with
  | context [parse_keys fs ?sh] => set (shape := sh) in *
  end.
  assert (NoDup (List.map fst shape)) as Hnodup
    by (apply (bool_decide_unpack _); vm_compute; exact I).
  pose proof (fun k => parse_keys_lookup fs shape k Hnodup) as Hlookup.
  destruct (parse_keys fs shape) as [out issues].
  injection Hparse as <- _.
  cbn [fst prop] in *. subst shape.
  split; [reflexivity |].
  split; rewrite Hlookup; cbn [shape_lookup String.eqb Ascii.eqb Bool.eqb];
    apply parse_string_kept.
Qed.

(** X26.  With a valid request on an initialized adapter, [sendMessage]
    issues exactly one call, whatever the SDK answers: the
    [send-message] action for the stored connection id, whose input has
    the [channel] and the [text] of the request and nothing else; the
    other members of the request ([thread_ts], [blocks], ...) are not
    sent. *)
Theorem sendMessage_forwards_channel_and_text (request authContext validated : JsVal)
    (w : World) :
  validateInput SendMessageSchema request = Ok validated ->
  truthy (this_config w) = true ->
  calls (snd (sendMessage request authContext w))
  = calls w ++
    [TriggerAction (JStr "slack") (prop (this_config w) "nangoConnectionId")
       (JStr "send-message")
       (JObj [("channel", prop request "channel"); ("text", prop request "text")])].
Proof.
  intros Hvalid Hconfig.
  destruct (sendMessage_validated _ _ Hvalid) as (Hobject & Hchannel & Htext).
  unfold sendMessage. rewrite run_try_catch, Hvalid, run_lift_ok.
  rewrite run_require_config by exact Hconfig.
  rewrite run_require_config by exact Hconfig.
  rewrite (get_prop_ok (this_config w)) by (apply truthy_not_nullish, Hconfig).
  rewrite run_lift_ok.
  rewrite (get_prop_ok validated), run_lift_ok by exact Hobject.
  rewrite (get_prop_ok validated), run_lift_ok by exact Hobject.
  rewrite Hchannel, Htext. rewrite run_external.
  match goal with
  | |- context [with_calls (calls w ++ [?c]) w] =>
      set (w1 := with_calls (calls w ++ [c]) w)
  end.
  destruct (nango w (calls w) _) as [response | e].
  - match goal with
    | |- context [match ?k w1 with _ => _ end] =>
        assert (walk w1 (fun _ => False) (fun e => nullish e = false) 0 k 0) as Hwalk
          by walk_auto;
        specialize (Hwalk w1 (issued_start _ w1));
        destruct (k w1) as [[r | e] w2]
    end.
    + apply issued_none in Hwalk. exact Hwalk.
    + destruct Hwalk as [Hwalk _]. apply issued_none in Hwalk.
      rewrite operation_catch_calls. exact Hwalk.
  - rewrite operation_catch_calls. reflexivity.
Qed.
End SendForwarded.

(* ===================================================================== *)
(** * Further properties of the registry *)
(* ===================================================================== *)

Section RegistryRoundTrip.
Import IntegrationRegistry.

(** X14.  Registering an adapter under a fresh identifier returns, and
    then [get] of the identifier is the adapter and [has] is true, the
    other identifiers are as before, and [unregister] of the identifier
    returns [true] and gives back the registry as it was. *)
Theorem register_round_trip (integration : BaseIntegration) (this : integrations) :
  this !! id integration = None ->
  let this' := snd (register integration this) in
  fst (register integration this) = Ok tt /\
  get (id integration) this' = Some integration /\
  has (id integration) this' = true /\
  (forall i, i <> id integration -> get i this' = get i this /\ has i this' = has i this) /\
  unregister (id integration) this' = (true, this).
Proof.
  intros Hfresh this'. subst this'. rewrite (register_fresh _ _ Hfresh). cbn [fst snd].
  unfold get, has, unregister.
  rewrite lookup_insert_eq.
  split; [reflexivity |]. split; [reflexivity |].
  split; [apply bool_decide_eq_true_2; eexists; reflexivity |].
  split.
  - intros i Hi. rewrite lookup_insert_ne by congruence. split; reflexivity.
  - rewrite bool_decide_eq_true_2 by (eexists; reflexivity).
    rewrite delete_insert_id by exact Hfresh. reflexivity.
Qed.

Lemma register_round_trip_witness :
  get "discord" (snd (register discord_adapter (snd (register slack_adapter ∅))))
    = Some discord_adapter /\
  get "slack" (snd (register discord_adapter (snd (register slack_adapter ∅))))
    = Some slack_adapter.
Proof.
  destruct (register_round_trip discord_adapter (snd (register slack_adapter ∅)))
    as (_ & Hget & _ & Hothers & _).
  - vm_compute. reflexivity.
  - split; [exact Hget |].
    rewrite (proj1 (Hothers "slack" ltac:(discriminate))). vm_compute. reflexivity.
Defined.

Lemma call_well_keyed {sdk : SlackService.Sdk} (c : RegistryCall) (this : integrations) :
  well_keyed this -> well_keyed (call c this).
Proof.
  intros Hk. destruct c as [integration | i | nangoSecretKey]; cbn [call].
  - unfold register. destruct (bool_decide _) eqn:Hdup; cbn [snd]; [exact Hk |].
    intros j a Hj. destruct (decide (j = id integration)) as [-> | Hne].
    + rewrite lookup_insert_eq in Hj. congruence.
    + rewrite lookup_insert_ne in Hj by congruence. exact (Hk _ _ Hj).
  - cbn [unregister snd]. intros j a Hj.
    apply lookup_delete_Some in Hj. exact (Hk _ _ (proj2 Hj)).
  - unfold SlackIndex.createSlackIntegration, SlackService.new_SlackService, register.
    destruct (truthy nangoSecretKey); [| exact Hk].
    destruct (bool_decide _) eqn:Hdup; cbn [snd]; [exact Hk |].
    intros j a Hj. cbn [id] in *. destruct (decide (j = "slack")) as [-> | Hne].
    + rewrite lookup_insert_eq in Hj. injection Hj as <-. reflexivity.
    + rewrite lookup_insert_ne in Hj by congruence. exact (Hk _ _ Hj).
Qed.

(** X15.  In a registry built from the empty one by any sequence of
    [register], [unregister] and [createSlackIntegration] calls, failed
    ones included, every adapter is stored under its own identifier:
    what [get(i)] returns has the identifier [i]. *)
Theorem registry_well_keyed {sdk : SlackService.Sdk} (cs : list RegistryCall)
    (i : string) (integration : BaseIntegration) :
  get i (calls_from ∅ cs) = Some integration -> id integration = i.
Proof.
  assert (forall this, well_keyed this -> well_keyed (calls_from this cs)) as Hall.
  { induction cs as [| c cs IH]; intros this Hk; [exact Hk |].
    cbn. apply IH, call_well_keyed, Hk. }
  apply Hall. intros j a Hj. rewrite lookup_empty in Hj. discriminate.
Qed.

Lemma registry_well_keyed_witness :
  let cs := [CallCreateSlackIntegration (JStr "secret"); CallRegister discord_adapter;
             CallRegister slack_adapter; CallUnregister "discord"] in
  get "slack" (calls_from (sdk := sample_sdk) ∅ cs) = Some slack_adapter /\
  id slack_adapter = "slack".
Proof.
  intros cs. split; [vm_compute; reflexivity |].
  apply (registry_well_keyed (sdk := sample_sdk) cs). vm_compute. reflexivity.
Defined.

(** X16.  With a missing key (a falsy one), [createSlackIntegration]
    throws what the constructor of the SDK throws, and registers
    nothing.  After a call with a key, whether it returned or threw, the
    registry has "slack", and a further call with a key throws
    "Integration slack is already registered" and leaves the registry as
    it is; once "slack" is unregistered, the factory returns the service
    again and registers it. *)
Theorem createSlackIntegration_once {sdk : SlackService.Sdk}
    (nangoSecretKey otherKey : JsVal) (registry : integrations) :
  (truthy nangoSecretKey = false ->
   SlackIndex.createSlackIntegration nangoSecretKey registry
     = (Throw SlackService.missing_secret_key, registry)) /\
  (truthy nangoSecretKey = true ->
   truthy otherKey = true ->
   let registry' := snd (SlackIndex.createSlackIntegration nangoSecretKey registry) in
   has "slack" registry' = true /\
   SlackIndex.createSlackIntegration otherKey registry'
     = (Throw (Error "Integration slack is already registered"), registry') /\
   exists slackService,
     SlackIndex.createSlackIntegration otherKey (snd (unregister "slack" registry'))
       = (Ok slackService,
          <["slack" := slackService]> (snd (unregister "slack" registry'))) /\
     id slackService = "slack").
Proof.
  split.
  - intros Hkey. unfold SlackIndex.createSlackIntegration, SlackService.new_SlackService.
    rewrite Hkey. reflexivity.
  - intros Hkey Hother registry'.
    assert (is_Some (registry' !! "slack")) as Hin.
    { subst registry'.
      unfold SlackIndex.createSlackIntegration, SlackService.new_SlackService, register.
      rewrite Hkey. cbn [id].
      destruct (bool_decide _) eqn:Hdup; cbn [snd].
      - apply bool_decide_eq_true_1 in Hdup. exact Hdup.
      - rewrite lookup_insert_eq. eexists; reflexivity. }
    split; [apply bool_decide_eq_true_2, Hin |]. split.
    + unfold SlackIndex.createSlackIntegration, SlackService.new_SlackService, register.
      rewrite Hother. cbn [id].
      rewrite bool_decide_eq_true_2 by exact Hin. reflexivity.
    + exists slack_adapter. split; [| reflexivity].
      unfold SlackIndex.createSlackIntegration, SlackService.new_SlackService,
        register, unregister.
      rewrite Hother. cbn [id snd].
      rewrite lookup_delete_eq.
      rewrite bool_decide_eq_false_2 by apply is_Some_None. reflexivity.
Qed.

(** The factory without a key, and twice with one. *)
Lemma createSlackIntegration_once_witness :
  SlackIndex.createSlackIntegration (sdk := sample_sdk) (JStr "") ∅
    = (Throw (Error "no secret key"), ∅) /\
  let registry' :=
    snd (SlackIndex.createSlackIntegration (sdk := sample_sdk) (JStr "secret") ∅) in
  has "slack" registry' = true /\
  SlackIndex.createSlackIntegration (sdk := sample_sdk) (JStr "other") registry'
    = (Throw (Error "Integration slack is already registered"), registry').
Proof.
  destruct (createSlackIntegration_once (sdk := sample_sdk) (JStr "") (JStr "other") ∅)
    as [Hmissing _].
  destruct (createSlackIntegration_once (sdk := sample_sdk) (JStr "secret") (JStr "other") ∅)
    as [_ Hgiven].
  split; [apply Hmissing; reflexivity |].
  destruct (Hgiven eq_refl eq_refl) as (Hhas & Hagain & _).
  split; [exact Hhas | exact Hagain].
Defined.

End RegistryRoundTrip.

(* ===================================================================== *)
(** * Properties of the message transformer *)
(* ===================================================================== *)

Section MessageFacts.
Import SlackTransformer.
Variable toISOString : JsVal -> Res JsVal.

Lemma toAttachment_value (file : JsVal) :
  nullish file = false -> toAttachment file = Ok (standard_attachment file).
Proof.
  intros Hfile. unfold toAttachment, standard_attachment, first_truthy, or_else.
  repeat (rewrite (get_prop_ok file) by exact Hfile; cbn [bind]).
  destruct (truthy (prop file "name")); cbn [bind];
    repeat (rewrite (get_prop_ok file) by exact Hfile; cbn [bind]);
    destruct (truthy (prop file "title")); cbn [bind];
    repeat (rewrite (get_prop_ok file) by exact Hfile; cbn [bind]);
    destruct (truthy (prop file "mimetype")); cbn [bind];
    repeat (rewrite (get_prop_ok file) by exact Hfile; cbn [bind]);
    destruct (truthy (prop file "filetype")); cbn [bind];
    repeat (rewrite (get_prop_ok file) by exact Hfile; cbn [bind]);
    destruct (truthy (prop file "url_private")); cbn [bind];
    repeat (rewrite (get_prop_ok file) by exact Hfile; cbn [bind]);
    destruct (truthy (prop file "permalink")); cbn [bind];
    repeat (rewrite (get_prop_ok file) by exact Hfile; cbn [bind]);
    reflexivity.
Qed.

Lemma each_toAttachment (files : list JsVal) :
  Forall (fun file => nullish file = false) files ->
  each toAttachment files = Ok (List.map standard_attachment files).
Proof.
  induction 1 as [| file files Hfile _ IH]; [reflexivity |].
  cbn [each List.map]. rewrite (toAttachment_value file Hfile). cbn [bind].
  rewrite IH. reflexivity.
Qed.

Lemma each_toAttachment_throws (files : list JsVal) :
  Exists (fun file => nullish file = true) files ->
  exists msg, each toAttachment files = Throw (TypeError msg).
Proof.
  induction files as [| file files IH]; intros Hsome; [inversion Hsome |].
  cbn [each]. destruct (nullish file) eqn:Hfile.
  - unfold toAttachment, get_prop. rewrite Hfile. cbn [bind]. eexists. reflexivity.
  - rewrite (toAttachment_value file Hfile). cbn [bind].
    destruct IH as (msg & ->); [| cbn [bind]; eexists; reflexivity].
    inversion Hsome as [? ? Hhead | ? ? Htail]; subst; [congruence | exact Htail].
Qed.

(** X21.  For a message that is an object, with a [files] member that
    is an array or falsy and a time stamp that the clock can print:
    when no file is [undefined] or [null], [toStandardMessage] returns a
    message whose [id] is the time stamp [ts], whose [content], [sender]
    and [channel] are the text and the arguments, and whose attachments
    are those of the files, one per file and in the same order, each
    with a truthy [name] ("Untitled" at worst) and a truthy [type]
    ("unknown" at worst); when a file is [undefined] or [null], it
    throws a TypeError. *)
Theorem toStandardMessage_attachments (slackMessage user channel timestamp : JsVal)
    (files : list JsVal) :
  nullish slackMessage = false ->
  files_of slackMessage = Some files ->
  toISOString (prop slackMessage "ts") = Ok timestamp ->
  (Forall (fun file => nullish file = false) files ->
   exists standard,
     toStandardMessage toISOString slackMessage user channel = Ok standard /\
     prop standard "id" = prop slackMessage "ts" /\
     prop standard "content" = prop slackMessage "text" /\
     prop standard "sender" = user /\
     prop standard "channel" = channel /\
     prop standard "timestamp" = timestamp /\
     prop standard "attachments" = JArr (List.map standard_attachment files) /\
     Forall (fun attachment =>
               truthy (prop attachment "name") = true /\
               truthy (prop attachment "type") = true)
            (List.map standard_attachment files)) /\
  (Exists (fun file => nullish file = true) files ->
   exists msg,
     toStandardMessage toISOString slackMessage user channel = Throw (TypeError msg)).
Proof.
  intros Hmessage Hfiles Hts.
  assert (forall r,
            (if truthy (prop slackMessage "files")
             then match prop slackMessage "files" with
                  | JArr items => each toAttachment items
                  | _ => Throw (TypeError "slackMessage.files.forEach is not a function")
                  end
             else Ok []) = r -> each toAttachment files = r) as Heach.
  { intros r <-. unfold files_of in Hfiles.
    destruct (prop slackMessage "files") as [| | b | n | s | items | fs] eqn:Hprop;
      try (injection Hfiles as <-; reflexivity);
      match type of Hfiles with
      | context [truthy ?v] =>
          destruct (truthy v); [discriminate | injection Hfiles as <-; reflexivity]
      end. }
  unfold toStandardMessage.
  rewrite (get_prop_ok slackMessage) by exact Hmessage. cbn [bind].
  rewrite <- (Heach _ eq_refl).
  split.
  - intros Hall. rewrite (each_toAttachment files Hall). cbn [bind].
    repeat (rewrite (get_prop_ok slackMessage) by exact Hmessage; cbn [bind]).
    rewrite Hts. cbn [bind].
    repeat (rewrite (get_prop_ok slackMessage) by exact Hmessage; cbn [bind]).
    eexists. split; [reflexivity |].
    do 6 (split; [reflexivity |]).
    apply List.Forall_forall. intros attachment Hin.
    apply List.in_map_iff in Hin. destruct Hin as (file & <- & _).
    unfold standard_attachment, first_truthy.
    cbn [prop lookup_field String.eqb Ascii.eqb Bool.eqb].
    split.
    + destruct (truthy (prop file "name")) eqn:H1; [exact H1 |].
      destruct (truthy (prop file "title")) eqn:H2; [exact H2 | reflexivity].
    + destruct (truthy (prop file "mimetype")) eqn:H1; [exact H1 |].
      destruct (truthy (prop file "filetype")) eqn:H2; [exact H2 | reflexivity].
  - intros Hsome. destruct (each_toAttachment_throws files Hsome) as (msg & ->).
    cbn [bind]. eexists. reflexivity.
Qed.

End MessageFacts.

(** A message with one file that has a title and nothing else. *)
Lemma toStandardMessage_attachments_witness :
  let file := JObj [("id", JStr "F1"); ("title", JStr "Report")] in
  let slackMessage :=
    JObj [("ts", JStr "1700000000.000100"); ("text", JStr "hello");
          ("files", JArr [file])] in
  exists standard,
    SlackTransformer.toStandardMessage sample_toISOString slackMessage JNull JNull
      = Ok standard /\
    prop standard "attachments"
      = JArr [JObj [("id", JStr "F1"); ("name", JStr "Report"); ("type", JStr "unknown");
                    ("url", JStr ""); ("size", JUndefined);
                    ("metadata", JObj [("prettyType", JUndefined); ("thumb64", JUndefined);
                                       ("thumb360", JUndefined)])]].
Proof.
  intros file slackMessage.
  destruct (toStandardMessage_attachments sample_toISOString slackMessage JNull JNull
              (JStr "2023-11-14T22:13:20.000Z") [file])
    as [Hreturns _]; try reflexivity.
  destruct Hreturns as (standard & Hrun & _ & _ & _ & _ & _ & Hattachments & _).
  - repeat constructor.
  - exists standard. split; [exact Hrun | exact Hattachments].
Defined.

(* ===================================================================== *)
(** * Properties of the retry manager *)
(* ===================================================================== *)

Section WithRetryFacts.
Import RetryManager.
Context {math : Double.MathLibrary} {St T : Type}.
Variable fn : St -> Res T * St.
Variable options : Options.

Lemma withRetry_from_step (fuel : nat) (a : JsNumber) (lastError : JsVal) (s : St)
    (trace : list Event) :
  withRetry_from fn options (S fuel) a lastError s trace =
    if Double.le a (max_attempts (backoff_options options)) then
      match fn s with
      | (Ok v, s') => Some (Ok v, s', trace ++ [Invoke])
      | (Throw e, s') =>
          if Double.eq a (max_attempts (backoff_options options))
          then Some (Throw e, s', trace ++ [Invoke])
          else match should_retry options e with
               | Throw e' => Some (Throw e', s', trace ++ [Invoke])
               | Ok false => Some (Throw e, s', trace ++ [Invoke])
               | Ok true =>
                   withRetry_from fn options fuel (Double.add a (Double.of_Z 1)) e s'
                     (trace ++ [Invoke; Sleep (backoff (backoff_options options) a)])
               end
      end
    else Some (Throw lastError, s, trace).
Proof. reflexivity. Qed.

Lemma withRetry_from_done (fuel : nat) (a : JsNumber) (lastError : JsVal) (s : St)
    (trace : list Event) :
  Double.le a (max_attempts (backoff_options options)) = false ->
  withRetry_from fn options fuel a lastError s trace = Some (Throw lastError, s, trace).
Proof. intros Hdone. destruct fuel; cbn [withRetry_from]; rewrite Hdone; reflexivity. Qed.

(** The loop entered at attempt [a] with [m] attempts left: it stops at
    the first attempt that is not retryable, or else at the last one. *)
Lemma withRetry_from_runs (n : Z) (m : nat) :
  whole_attempts (backoff_options options) n ->
  forall (fuel : nat) (a : Z) (lastError : JsVal) (s : St) (trace : list Event),
    (1 <= m <= fuel)%nat ->
    1 <= a ->
    n = a + Z.of_nat m - 1 ->
    n < 2 ^ 53 ->
    exists k : nat,
      (1 <= k <= m)%nat /\
      withRetry_from fn options fuel (Double.of_Z a) lastError s trace
        = Some (verdict options (k =? m)%nat (attempt fn k s), after fn k s,
                trace ++ schedule (rounded_delay (backoff_options options)) a k) /\
      (forall j, (1 <= j < k)%nat -> retryable options (attempt fn j s)) /\
      ((k < m)%nat -> ~ retryable options (attempt fn k s)).
Proof.
  intros Hwhole.
  induction m as [| m IH]; intros fuel a lastError s trace Hm Ha Hn Hsmall; [lia |].
  destruct fuel as [| fuel]; [lia |].
  rewrite withRetry_from_step.
  rewrite (counter_le (backoff_options options) n Hwhole).
  rewrite (counter_eq (backoff_options options) n Hwhole).
  destruct (Z.leb_spec a n) as [_ | Hgt]; [| lia].
  destruct (fn s) as [[v | e] s'] eqn:Hfn.
  - exists 1%nat. unfold attempt. cbn [Nat.pred after]. rewrite Hfn.
    cbn [fst snd verdict schedule].
    split; [lia |]. split; [reflexivity |]. split; [intros j Hj; lia |].
    intros _ (e & He & _). discriminate.
  - destruct (Z.eqb_spec a n) as [Hlast | Hmore].
    + assert (m = 0%nat) as -> by lia.
      exists 1%nat. unfold attempt. cbn [Nat.pred after]. rewrite Hfn.
      cbn [fst snd verdict schedule Nat.eqb].
      split; [lia |]. split; [reflexivity |]. split; intros; lia.
    + assert (1 <= m)%nat as Hm' by lia.
      destruct (should_retry options e) as [[|] | e'] eqn:Hshould.
      * rewrite add_integers, backoff_rounded by lia.
        destruct (IH fuel (a + 1) e s'
                    (trace ++ [Invoke; Sleep (rounded_delay (backoff_options options) a)]))
          as (k & Hk & Hrun & Hbefore & Hstop); [lia | lia | lia | lia |].
        exists (S k). split; [lia |]. split; [| split].
        -- rewrite Hrun, attempt_shift by lia. cbn [after]. rewrite Hfn. cbn [snd].
           rewrite <- app_assoc, schedule_extend by lia. reflexivity.
        -- intros j Hj. destruct (decide (j = 1%nat)) as [-> | Hj1].
           ++ unfold attempt. cbn [Nat.pred after]. rewrite Hfn.
              exists e. split; [reflexivity | exact Hshould].
           ++ destruct j as [| j]; [lia |].
              rewrite attempt_shift by lia. rewrite Hfn. apply Hbefore. lia.
        -- rewrite attempt_shift by lia. rewrite Hfn. cbn [snd].
           intros Hlt. apply Hstop. lia.
      * exists 1%nat. unfold attempt. cbn [Nat.pred after]. rewrite Hfn.
        cbn [fst snd verdict schedule].
        replace (1 =? S m)%nat with false by (symmetry; apply Nat.eqb_neq; lia).
        rewrite Hshould.
        split; [lia |]. split; [reflexivity |]. split; [intros; lia |].
        intros _ (e0 & [= <-] & Hyes). congruence.
      * exists 1%nat. unfold attempt. cbn [Nat.pred after]. rewrite Hfn.
        cbn [fst snd verdict schedule].
        replace (1 =? S m)%nat with false by (symmetry; apply Nat.eqb_neq; lia).
        rewrite Hshould.
        split; [lia |]. split; [reflexivity |]. split; [intros; lia |].
        intros _ (e0 & [= <-] & Hyes). congruence.
Qed.

Lemma withRetry_from_always :
  shouldRetry options = Some (fun _ => Ok true) ->
  forall (fuel : nat) (a : JsNumber) (lastError : JsVal) (s : St) (trace : list Event),
    withRetry_from fn options fuel a lastError s trace
    = retry_from fn (backoff_options options) fuel a lastError s trace.
Proof.
  intros Halways. induction fuel as [| fuel IH]; intros a lastError s trace;
    [reflexivity |].
  rewrite withRetry_from_step, retry_from_step.
  destruct (Double.le a (max_attempts (backoff_options options))); [| reflexivity].
  destruct (fn s) as [[v | e] s']; [reflexivity |].
  destruct (Double.eq a (max_attempts (backoff_options options))); [reflexivity |].
  unfold should_retry. rewrite Halways. cbn [default]. apply IH.
Qed.

End WithRetryFacts.

(** X17.  With a [maxAttempts] that is a whole number from 1 up (below
    [2^53]), [withRetry] returns or throws after [k] invocations of the
    operation in a row, [1 <= k <= maxAttempts], with the sleep of
    [retry] between two invocations, [Math.min(baseDelay *
    Math.pow(backoffFactor, a - 1), maxDelay)] in double precision:
    every attempt before the [k]-th threw an error that [shouldRetry]
    accepted, and the [k]-th is the last one allowed or is not of that
    kind.  The result is the value of the [k]-th attempt, or its error;
    but when [shouldRetry] itself throws, on an attempt that is not the
    last, [withRetry] throws that instead. *)
Theorem withRetry_contract {math : Double.MathLibrary} {St T : Type}
    (fn : St -> Res T * St) (options : RetryManager.Options) (n : Z) (s : St)
    (fuel : nat) :
  whole_attempts (RetryManager.backoff_options options) n ->
  1 <= n < 2 ^ 53 ->
  (Z.to_nat n <= fuel)%nat ->
  exists k : nat,
    (1 <= k <= Z.to_nat n)%nat /\
    RetryManager.withRetry fn options fuel s
      = Some (verdict options (k =? Z.to_nat n)%nat (attempt fn k s), after fn k s,
              schedule (rounded_delay (RetryManager.backoff_options options)) 1 k) /\
    (forall j, (1 <= j < k)%nat -> retryable options (attempt fn j s)) /\
    ((k < Z.to_nat n)%nat -> ~ retryable options (attempt fn k s)).
Proof.
  intros Hwhole Hn Hfuel. unfold RetryManager.withRetry.
  destruct (withRetry_from_runs fn options n (Z.to_nat n) Hwhole fuel 1 JUndefined s [])
    as (k & Hk & Hrun & Hbefore & Hstop); [lia | lia | lia | lia |].
  exists k. split; [exact Hk |]. split; [exact Hrun |]. split; assumption.
Qed.

(** With the policy of the class: an operation that is always rate
    limited is invoked as often as two attempts allow, half a second
    apart; one that is rate limited once is invoked twice of the four
    times allowed, and its second error is thrown. *)
Lemma withRetry_contract_witness :
  RetryManager.withRetry (math := sample_math) rate_limited_always
      (class_policy two_attempts) 2 0%nat
    = Some (Throw rate_limited, 2%nat, [Invoke; Sleep (Double.of_Z 1000); Invoke]) /\
  RetryManager.withRetry (math := sample_math) rate_limited_once
      (class_policy four_attempts) 4 0%nat
    = Some (Throw (Error "channel_not_found"), 2%nat,
            [Invoke; Sleep (Double.of_Z 500); Invoke]) /\
  exists k : nat,
    (1 <= k <= 4)%nat /\
    RetryManager.withRetry (math := sample_math) rate_limited_once
        (class_policy four_attempts) 4 0%nat
      = Some (verdict (class_policy four_attempts) (k =? 4)%nat
                (attempt rate_limited_once k 0%nat),
              after rate_limited_once k 0%nat,
              schedule (rounded_delay (math := sample_math) four_attempts) 1 k).
Proof.
  split; [reflexivity |]. split; [reflexivity |].
  destruct (withRetry_contract (math := sample_math) rate_limited_once
              (class_policy four_attempts) 4 0%nat 4)
    as (k & Hk & Hrun & _).
  - vm_compute. reflexivity.
  - lia.
  - vm_compute. lia.
  - exists k. split; [exact Hk | exact Hrun].
Defined.

(** X18.  With a [shouldRetry] that accepts every error, [withRetry] is
    [IntegrationUtils.retry]: the same result, the same final state, the
    same invocations and sleeps, for all options. *)
Theorem withRetry_always_is_retry {math : Double.MathLibrary} {St T : Type}
    (fn : St -> Res T * St) (options : RetryManager.Options) (fuel : nat) (s : St) :
  RetryManager.shouldRetry options = Some (fun _ => Ok true) ->
  RetryManager.withRetry fn options fuel s
  = retry fn (RetryManager.backoff_options options) fuel s.
Proof.
  intros Halways. unfold RetryManager.withRetry, retry.
  apply withRetry_from_always. exact Halways.
Qed.

Lemma withRetry_always_is_retry_witness :
  RetryManager.withRetry (math := sample_math) fails_twice (always_policy quick_retries)
      3 0%nat
    = Some (Ok 2%nat, 3%nat,
            [Invoke; Sleep (Double.of_Z 500); Invoke; Sleep (Double.of_Z 1200); Invoke]).
Proof.
  rewrite (withRetry_always_is_retry (math := sample_math) fails_twice
             (always_policy quick_retries) 3 0%nat eq_refl).
  reflexivity.
Defined.

(** X19.  With the default [shouldRetry], [withRetry] never retries: it
    invokes the operation once and does not sleep.  The default is the
    method [SlackErrorHandler.shouldRetry] taken off its class, so that
    calling it throws a TypeError on [this.getErrorCode]: when the
    attempt fails and [maxAttempts] is not 1, [withRetry] throws that
    TypeError instead of the error of the operation. *)
Theorem withRetry_default_policy {math : Double.MathLibrary} {St T : Type}
    (fn : St -> Res T * St) (options : RetryManager.Options) (fuel : nat) (s : St) :
  RetryManager.shouldRetry options = None ->
  Double.le (Double.of_Z 1) (attempts_of (RetryManager.backoff_options options)) = true ->
  RetryManager.withRetry fn options (S fuel) s
  = Some (match fst (fn s) with
          | Ok v => Ok v
          | Throw e =>
              if Double.eq (Double.of_Z 1)
                   (attempts_of (RetryManager.backoff_options options))
              then Throw e
              else Throw (TypeError
                            "Cannot read properties of undefined (reading 'getErrorCode')")
          end, snd (fn s), [Invoke]).
Proof.
  intros Hdefault Hmax. unfold RetryManager.withRetry. rewrite withRetry_from_step.
  unfold attempts_of in *. unfold max_attempts. rewrite Hmax.
  destruct (fn s) as [[v | e] s']; cbn [fst snd app]; [reflexivity |].
  destruct (Double.eq _ _); [reflexivity |].
  unfold RetryManager.should_retry. rewrite Hdefault. reflexivity.
Qed.

(** A rate-limited operation under the default policy, with four
    attempts allowed: one invocation, and the TypeError. *)
Lemma withRetry_default_policy_witness :
  RetryManager.withRetry (math := sample_math) rate_limited_once
      (default_policy four_attempts) 4 0%nat
  = Some (Throw (TypeError "Cannot read properties of undefined (reading 'getErrorCode')"),
          1%nat, [Invoke]).
Proof.
  rewrite (withRetry_default_policy (math := sample_math) rate_limited_once
             (default_policy four_attempts) 3 0%nat eq_refl).
  - reflexivity.
  - vm_compute. reflexivity.
Defined.

(** X20.  With a [maxAttempts] that 1 does not reach ([maxAttempts < 1],
    or [NaN]), neither [retry] nor [withRetry] invokes the operation:
    both throw [undefined], the initial value of [lastError]. *)
Theorem retry_without_attempts {math : Double.MathLibrary} {St T : Type}
    (fn : St -> Res T * St) (options : RetryManager.Options) (fuel : nat) (s : St) :
  Double.le (Double.of_Z 1) (attempts_of (RetryManager.backoff_options options)) = false ->
  retry fn (RetryManager.backoff_options options) fuel s = Some (Throw JUndefined, s, []) /\
  RetryManager.withRetry fn options fuel s = Some (Throw JUndefined, s, []).
Proof.
  intros Hnone. unfold retry, RetryManager.withRetry. split.
  - apply retry_from_done. exact Hnone.
  - apply withRetry_from_done. exact Hnone.
Qed.

Lemma retry_without_attempts_witness :
  retry (math := sample_math) fails_twice no_attempts 5 0%nat
    = Some (Throw JUndefined, 0%nat, []) /\
  RetryManager.withRetry (math := sample_math) fails_twice (default_policy no_attempts)
      5 0%nat
    = Some (Throw JUndefined, 0%nat, []).
Proof.
  apply (retry_without_attempts (math := sample_math) fails_twice
           (default_policy no_attempts) 5 0%nat).
  vm_compute. reflexivity.
Defined.

(* ===================================================================== *)
(** * Properties of the routes *)
(* ===================================================================== *)

Section RouteFacts.
Context {printer : NumberPrinter} {sdk : SlackService.Sdk}.
Import Routes SlackService.

Lemma destructure_ok (body : JsVal) (k : string) :
  nullish body = false -> destructure body k = Ok (prop body k).
Proof. intros Hbody. unfold destructure. rewrite Hbody. reflexivity. Qed.


Lemma post_bind {A B} (m : M A) (k : A -> M B) (P : A -> Prop) (Q : B -> Prop) :
  post m P -> (forall a, P a -> post (k a) Q) -> post (mbind m k) Q.
Proof.
  intros Hm Hk w b w'. unfold mbind.
  destruct (m w) as [[a | e] w1] eqn:Hrun; [| discriminate].
  apply Hk. exact (Hm _ _ _ Hrun).
Qed.

Lemma internal_error_answers (failure : string) (e : JsVal) (w : World) :
  nullish e = false ->
  exists details,
    internal_error failure e w
      = (Ok {| http_status := 500; http_body := Failure API_ERROR failure details |}, w) /\
    (is_string (NODE_ENV w) "development" = false -> details = JObj []).
Proof.
  intros He. unfold internal_error. rewrite (get_prop_ok e) by exact He.
  destruct (is_string (NODE_ENV w) "development"); eexists; split;
    first [reflexivity | discriminate].
Qed.

Lemma internal_error_status (failure : string) (e : JsVal) (Q : HttpResponse -> Prop) :
  (forall details,
     Q {| http_status := 500; http_body := Failure API_ERROR failure details |}) ->
  post (internal_error failure e) Q.
Proof.
  intros HQ w r w'. unfold internal_error.
  destruct (is_string (NODE_ENV w) "development").
  - destruct (get_prop e "message"); intros [= <- _]; apply HQ.
  - intros [= <- _]. apply HQ.
Qed.

Lemma configuration_valid (s : string) :
  s <> "" ->
  validateInput configSchema (JObj [("nangoConnectionId", JStr s)])
  = Ok (JObj [("nangoConnectionId", JStr s)]).
Proof.
  intros Hs. destruct s as [| c s]; [congruence |]. reflexivity.
Qed.

(** The configuration that a handler builds, with a connection id that
    the schema refuses. *)
Lemma initialize_refused (connectionId : JsVal) (w : World) :
  ~ connection_id connectionId ->
  exists msg,
    initialize (JObj [("nangoConnectionId", connectionId)]) w = (Throw (Error msg), w).
Proof.
  intros Hid.
  destruct connectionId as [| | b | [| negative | q] | s | items | fs];
    try (eexists; reflexivity).
  destruct s as [| c s]; [eexists; reflexivity |].
  exfalso. apply Hid. eexists. split; [reflexivity | discriminate].
Qed.

(** The three operations behind the routes always hand an envelope to
    the handler. *)
Lemma adapter_answers (op : Operation) (request authContext : JsVal) (w : World) :
  op <> SendMessage ->
  exists result w', run op request authContext w = (Ok result, w').
Proof.
  intros Hop.
  destruct (run op request authContext w) as [[result | e] w'] eqn:Hrun; [eauto |].
  pose proof (operation_walk w op request authContext w (issued_start _ w)) as Hwalk.
  rewrite Hrun in Hwalk. destruct Hwalk as [_ (e0 & Hobject & Hnullish)].
  destruct op; congruence.
Qed.

(** Past the checks of the required fields: the service is created and
    initialized, or the handler fails without a call. *)
Lemma service_ready {A} (key connectionId : JsVal) (k : M A) (w : World) :
  truthy key = true -> connection_id connectionId ->
  exists w1,
    mbind (getSlackService key)
      (fun _ => mbind (initialize (JObj [("nangoConnectionId", connectionId)]))
                  (fun _ => k)) w = k w1.
Proof.
  intros Hkey (s & -> & Hs). unfold getSlackService, new_SlackService.
  rewrite Hkey. cbn [negb].
  unfold mbind at 1. rewrite run_lift_ok. unfold set_config at 1. cbv beta iota.
  destruct (initialize_resolves _ _ (with_config JUndefined w) (configuration_valid s Hs))
    as (w1 & Hrun & _).
  exists w1. unfold mbind. rewrite Hrun. reflexivity.
Qed.

Lemma service_fault {A} (key connectionId : JsVal) (k : M A) (w : World) :
  truthy key = false \/ ~ connection_id connectionId ->
  exists msg w1,
    mbind (getSlackService key)
      (fun _ => mbind (initialize (JObj [("nangoConnectionId", connectionId)]))
                  (fun _ => k)) w = (Throw (Error msg), w1) /\
    calls w1 = calls w /\ NODE_ENV w1 = NODE_ENV w.
Proof.
  intros Hfault. unfold getSlackService, new_SlackService.
  destruct (truthy key) eqn:Hkey; cbn [negb].
  - destruct Hfault as [| Hid]; [discriminate |].
    unfold mbind at 1. rewrite run_lift_ok. unfold set_config at 1. cbv beta iota.
    destruct (initialize_refused connectionId (with_config JUndefined w) Hid)
      as (issues & Hrun).
    unfold mbind. rewrite Hrun. eexists. eexists. split; [reflexivity |]. split; reflexivity.
  - eexists. eexists. split; [reflexivity |]. split; reflexivity.
Qed.

Lemma connection_id_dec (v : JsVal) : connection_id v \/ ~ connection_id v.
Proof.
  destruct v as [| | | | s | |]; try solve [right; intros (s' & [=] & _)].
  destruct s as [| c s].
  - right. intros (s' & [= <-] & Hs). congruence.
  - left. eexists. split; [reflexivity | discriminate].
Qed.

Lemma connection_id_truthy (v : JsVal) : connection_id v -> truthy v = true.
Proof. intros (s & -> & Hs). destruct s; [congruence | reflexivity]. Qed.

(** The head of every handler: the body is read and the connection id
    is taken from it. *)
Lemma run_handler_head {A} (request_json : Res JsVal) (k : JsVal -> JsVal -> M A)
    (w : World) :
  mbind (lift request_json)
    (fun body => mbind (lift (destructure body "nangoConnectionId")) (k body)) w
  = match request_json with
    | Ok body =>
        if nullish body then
          (Throw (TypeError ("Cannot destructure property 'nangoConnectionId' of 'body' as it is "
                               +:+ describe body +:+ ".")), w)
        else k body (prop body "nangoConnectionId") w
    | Throw e => (Throw e, w)
    end.
Proof.
  destruct request_json as [body | e]; [| reflexivity].
  rewrite run_lift_ok. unfold destructure. destruct (nullish body); reflexivity.
Qed.

(** X22.  A handler answers a body without a truthy [nangoConnectionId]
    with status 400 and the code [MISSING_REQUIRED_FIELD], and the
    user-info handler does the same for a body without a truthy [user]:
    before the secret key is read and the service created, with no call
    and no other effect.  The body is any JSON value but [null]. *)
Theorem route_requires_fields (route : Route) (key body : JsVal) (w : World) :
  nullish body = false ->
  (truthy (prop body "nangoConnectionId") = false ->
   POST route key (Ok body) w = (Ok (missing_field "nangoConnectionId is required"), w)) /\
  (truthy (prop body "nangoConnectionId") = true ->
   truthy (prop body "user") = false ->
   POST UserInfo key (Ok body) w = (Ok (missing_field "user ID is required"), w)).
Proof.
  intros Hbody. split.
  - intros Hid.
    destruct route; cbn [POST];
      unfold users_POST, channels_POST, user_info_POST, health_POST;
      rewrite run_try_catch, run_handler_head, Hbody; cbv zeta;
      try (rewrite (destructure_ok body) by exact Hbody; rewrite run_lift_ok);
      rewrite Hid; reflexivity.
  - intros Hid Huser. cbn [POST]. unfold user_info_POST.
    rewrite run_try_catch, run_handler_head, Hbody; cbv zeta.
    rewrite (destructure_ok body) by exact Hbody. rewrite run_lift_ok.
    rewrite Hid, Huser. reflexivity.
Qed.

Lemma reports_not_authentication (op : Operation) (result : IntegrationResponse) :
  reports op result -> success result = false ->
  error_code_is result AUTHENTICATION_FAILED = false /\
  (error_code_is result RESOURCE_NOT_FOUND = true -> op = GetUserInfo).
Proof.
  intros Hreports Hfailed. destruct (Hreports Hfailed) as (e & He & Hcode).
  unfold error_code_is. rewrite He.
  destruct Hcode as [-> | [-> ->]]; split; first [reflexivity | discriminate].
Qed.

(** X23.  Whatever the request, the secret key and the SDK, a response
    of a handler has the status 200, 400 or 500, or 404 from the
    user-info handler; the status is 200 exactly when the body says
    [success: true].  No handler ever answers 401: the adapter never
    reports [AUTHENTICATION_FAILED]. *)
Theorem route_status (route : Route) (key : JsVal) (request_json : Res JsVal)
    (w w' : World) (response : HttpResponse) :
  POST route key request_json w = (Ok response, w') ->
  (http_status response = 200 <-> body_success (http_body response) = true) /\
  (In (http_status response) [200; 400; 500] \/
   route = UserInfo /\ http_status response = 404).
Proof.
  revert w response w'.
  change (post (POST route key request_json)
            (fun response =>
               (http_status response = 200 <-> body_success (http_body response) = true) /\
               (In (http_status response) [200; 400; 500] \/
                route = UserInfo /\ http_status response = 404))).
  assert (forall route' failure details,
            (fun response =>
               (http_status response = 200 <-> body_success (http_body response) = true) /\
               (In (http_status response) [200; 400; 500] \/
                route' = UserInfo /\ http_status response = 404))
              {| http_status := 500; http_body := Failure API_ERROR failure details |})
    as Hfailure.
  { intros. cbn. split; [split; discriminate | left; tauto]. }
  assert (forall route' m,
            (fun response =>
               (http_status response = 200 <-> body_success (http_body response) = true) /\
               (In (http_status response) [200; 400; 500] \/
                route' = UserInfo /\ http_status response = 404))
              (missing_field m)) as Hmissing.
  { intros. cbn. split; [split; discriminate | left; tauto]. }
  destruct route; cbn [POST];
    unfold users_POST, channels_POST, user_info_POST, health_POST;
    (apply post_try_catch; [| intros e; apply internal_error_status; apply Hfailure]);
    apply post_bind_lift; intros body _;
    apply post_bind_lift; intros nangoConnectionId _.
  - cbv zeta. destruct (negb (truthy nangoConnectionId)); [apply post_ret, Hmissing |].
    apply post_bind_any; intros _. apply post_bind_any; intros _.
    apply (post_bind _ _ (reports GetUsers)); [apply getUsers_reports |].
    intros result Hreports. destruct (success result) eqn:Hsuccess; cbn [negb]; apply post_ret.
    + cbn. rewrite Hsuccess. split; [tauto | left; tauto].
    + destruct (reports_not_authentication _ _ Hreports Hsuccess) as [-> _].
      cbn. rewrite Hsuccess. split; [split; discriminate | left; tauto].
  - cbv zeta. destruct (negb (truthy nangoConnectionId)); [apply post_ret, Hmissing |].
    apply post_bind_any; intros _. apply post_bind_any; intros _.
    apply (post_bind _ _ (reports GetChannels)); [apply getChannels_reports |].
    intros result Hreports. destruct (success result) eqn:Hsuccess; cbn [negb]; apply post_ret.
    + cbn. rewrite Hsuccess. split; [tauto | left; tauto].
    + destruct (reports_not_authentication _ _ Hreports Hsuccess) as [-> _].
      cbn. rewrite Hsuccess. split; [split; discriminate | left; tauto].
  - apply post_bind_lift; intros user _.
    cbv zeta. destruct (negb (truthy nangoConnectionId)); [apply post_ret, Hmissing |].
    destruct (negb (truthy user)); [apply post_ret, Hmissing |].
    apply post_bind_any; intros _. apply post_bind_any; intros _.
    apply (post_bind _ _ (reports GetUserInfo)); [apply getUserInfo_reports |].
    intros result Hreports. destruct (success result) eqn:Hsuccess; cbn [negb]; apply post_ret.
    + cbn. rewrite Hsuccess. split; [tauto | left; tauto].
    + destruct (reports_not_authentication _ _ Hreports Hsuccess) as [-> _].
      cbn. rewrite Hsuccess.
      destruct (error_code_is result RESOURCE_NOT_FOUND);
        (split; [split; discriminate | tauto]).
  - destruct (negb (truthy nangoConnectionId)); [apply post_ret, Hmissing |].
    apply post_bind_any; intros _. apply post_bind_any; intros _.
    apply post_bind_any; intros healthCheck. apply post_bind_any; intros timestamp.
    apply post_ret. cbn. split; [tauto | left; tauto].
Qed.

(** X24.  With a secret key and a connection id that is a non-empty
    string, the health handler creates a service, initializes it with
    the connection id alone, and answers 200 with [success: true], the
    health check that [testConnection] of that service returns and the
    meta data of the route, stamped with the next reading of the clock:
    whatever the SDK does, the state of the integration is reported in
    the body, not by the status. *)
Theorem health_route_answers (key body : JsVal) (w : World) :
  truthy key = true ->
  connection_id (prop body "nangoConnectionId") ->
  exists (w1 : World) (healthCheck : IntegrationHealthCheck) (w2 : World),
    initialize (JObj [("nangoConnectionId", prop body "nangoConnectionId")])
      (with_config JUndefined w) = (Ok tt, w1) /\
    this_config w1 = JObj [("nangoConnectionId", prop body "nangoConnectionId")] /\
    testConnection w1 = (Ok healthCheck, w2) /\
    POST Health key (Ok body) w
    = (Ok {| http_status := 200;
             http_body := HealthResult healthCheck
                            (Build_ResponseMeta (clock w2 (ticks w2)) "slack" "1.0.0") |},
       with_ticks (S (ticks w2)) w2).
Proof.
  intros Hkey Hid.
  assert (nullish body = false) as Hbody.
  { destruct Hid as (s & Hs & _). destruct body; try discriminate; reflexivity. }
  destruct Hid as (id & Hid & Hne).
  destruct (initialize_resolves _ _ (with_config JUndefined w) (configuration_valid id Hne))
    as (w1 & Hinit & Hconfig).
  destruct (testConnection_cases w1) as (hc & w2 & Hprobe & _).
  exists w1, hc, w2. rewrite Hid.
  split; [exact Hinit |]. split; [exact Hconfig |]. split; [exact Hprobe |].
  cbn [POST]. unfold health_POST.
  rewrite run_try_catch, run_handler_head, Hbody, Hid.
  cbn [truthy negb]. destruct id as [| c id]; [congruence |]. cbn [String.eqb negb].
  unfold getSlackService, new_SlackService. rewrite Hkey. cbn [negb].
  unfold mbind at 1. rewrite run_lift_ok. unfold set_config at 1. cbv beta iota.
  rewrite (run_bind _ _ _ _ _ Hinit).
  rewrite (run_bind _ _ _ _ _ Hprobe).
  reflexivity.
Qed.

Ltac open_route :=
  cbn [POST]; unfold users_POST, channels_POST, user_info_POST, health_POST;
  rewrite run_try_catch, run_handler_head.

Ltac serve Hkey Hcid :=
  match goal with
  | |- context [mbind (getSlackService ?key)
                  (fun _ => mbind (initialize (JObj [("nangoConnectionId", ?c)]))
                              (fun _ => ?K)) ?w0] =>
      let w1 := fresh "w1" in
      destruct (service_ready key c K w0 Hkey Hcid) as (w1 & ->)
  end.

Ltac adapter_returns op :=
  match goal with
  | |- context [mbind (?f ?q ?a) _ ?w1] =>
      let Hop := fresh "Hop" in
      destruct (adapter_answers op q a w1 ltac:(discriminate))
        as (result & w2 & Hop);
      cbn [run] in Hop; rewrite (run_bind _ _ _ _ _ Hop)
  end.

Ltac fail_service Hfault_of :=
  match goal with
  | Hcaught : forall e w1, nullish e = false -> _
    |- context [mbind (getSlackService ?key)
                  (fun _ => mbind (initialize (JObj [("nangoConnectionId", ?c)]))
                              (fun _ => ?K)) ?w0] =>
      let msg := fresh "msg" in
      let w1 := fresh "w1" in
      let Hrun := fresh "Hrun" in
      destruct (service_fault key c K w0 Hfault_of) as (msg & w1 & Hrun & Hcalls & Henv);
      rewrite Hrun;
      destruct (Hcaught (Error msg) w1 eq_refl Hcalls Henv)
        as (response & w' & Hanswer & Hfault & _);
      exists response, w'; split; [exact Hanswer |]
  end.

(** X25.  When reading the body does not reject with [undefined] or
    [null], a handler always returns a response, and its status is 500
    exactly in these cases: the body cannot be read or is [null]; or,
    past the checks of the required fields, the secret key is missing or
    the connection id is not a non-empty string.  The response is then
    the failure [API_ERROR] with the handler's message, with empty
    details unless [NODE_ENV] is "development", and no call is
    issued. *)
Theorem route_internal_error (route : Route) (key : JsVal) (request_json : Res JsVal)
    (w : World) :
  (forall e, request_json = Throw e -> nullish e = false) ->
  exists response w',
    POST route key request_json w = (Ok response, w') /\
    (server_fault route key request_json ->
     calls w' = calls w /\
     exists details,
       response = {| http_status := 500;
                     http_body := Failure API_ERROR (failure_message route) details |} /\
       (is_string (NODE_ENV w) "development" = false -> details = JObj [])) /\
    (~ server_fault route key request_json -> http_status response <> 500).
Proof.
  intros Hthrown.
  assert (forall e w1, nullish e = false -> calls w1 = calls w -> NODE_ENV w1 = NODE_ENV w ->
            exists response w',
              internal_error (failure_message route) e w1 = (Ok response, w') /\
              (server_fault route key request_json ->
               calls w' = calls w /\
               exists details,
                 response = {| http_status := 500;
                               http_body := Failure API_ERROR (failure_message route) details |} /\
                 (is_string (NODE_ENV w) "development" = false -> details = JObj [])) /\
              (server_fault route key request_json -> ~ http_status response <> 500))
    as Hcaught.
  { intros e w1 He Hcalls Henv.
    destruct (internal_error_answers (failure_message route) e w1 He) as (details & Hrun & Hprod).
    eexists. eexists. split; [exact Hrun |]. split.
    - intros _. split; [exact Hcalls |]. exists details. split; [reflexivity |].
      rewrite <- Henv. exact Hprod.
    - intros _ Hne. apply Hne. reflexivity. }
  destruct request_json as [body | e].
  2: { specialize (Hthrown e eq_refl).
       destruct (Hcaught e w Hthrown eq_refl eq_refl) as (response & w' & Hrun & Hfault & _).
       exists response, w'. split.
       - destruct route; open_route; exact Hrun.
       - split; [exact Hfault | intros Hn; exfalso; apply Hn; exact I]. }
  clear Hthrown. destruct (nullish body) eqn:Hbody.
  { destruct (Hcaught (TypeError ("Cannot destructure property 'nangoConnectionId' of 'body' as it is "
                                    +:+ describe body +:+ ".")) w
                eq_refl eq_refl eq_refl) as (response & w' & Hrun & Hfault & _).
    exists response, w'. split.
    - destruct route; open_route; rewrite Hbody; exact Hrun.
    - split; [exact Hfault | intros Hn; exfalso; apply Hn; left; exact Hbody]. }
  destruct (truthy (prop body "nangoConnectionId")) eqn:Hid.
  2: { exists (missing_field "nangoConnectionId is required"), w. split.
       - destruct route; open_route; rewrite Hbody; cbv zeta;
           try (rewrite (destructure_ok body) by exact Hbody; rewrite run_lift_ok);
           rewrite Hid; reflexivity.
       - split; [intros [Hnull | (Htrue & _)]; congruence | intros _; discriminate]. }
  assert (route = UserInfo -> truthy (prop body "user") = false ->
          exists response w',
            POST route key (Ok body) w = (Ok response, w') /\
            (server_fault route key (Ok body) ->
             calls w' = calls w /\
             exists details,
               response = {| http_status := 500;
                             http_body := Failure API_ERROR (failure_message route) details |} /\
               (is_string (NODE_ENV w) "development" = false -> details = JObj [])) /\
            (~ server_fault route key (Ok body) -> http_status response <> 500)) as Hno_user.
  { intros -> Huser. exists (missing_field "user ID is required"), w. split.
    - open_route. rewrite Hbody. cbv zeta.
      rewrite (destructure_ok body) by exact Hbody. rewrite run_lift_ok.
      rewrite Hid, Huser. reflexivity.
    - split; [| intros _; discriminate].
      intros [Hnull | (_ & Hgiven & _)]; [congruence |].
      rewrite (Hgiven eq_refl) in Huser. discriminate. }
  destruct (truthy key) eqn:Hkey;
    [destruct (connection_id_dec (prop body "nangoConnectionId")) as [Hcid | Hcid] |].
  - (* the adapter is called *)
    assert (~ server_fault route key (Ok body)) as Hserved.
    { intros [Hnull | (_ & _ & [Hnone | Hbad])]; [congruence | congruence | tauto]. }
    destruct route.
    + open_route. rewrite Hbody. cbv zeta. rewrite Hid. cbn [negb].
      serve Hkey Hcid. adapter_returns GetUsers.
      destruct (success result); cbn [negb];
        (eexists; eexists; split; [reflexivity |]; split; [tauto | intros _]);
        cbn; repeat case_match; discriminate.
    + open_route. rewrite Hbody. cbv zeta. rewrite Hid. cbn [negb].
      serve Hkey Hcid. adapter_returns GetChannels.
      destruct (success result); cbn [negb];
        (eexists; eexists; split; [reflexivity |]; split; [tauto | intros _]);
        cbn; repeat case_match; discriminate.
    + destruct (truthy (prop body "user")) eqn:Huser; [| apply Hno_user; reflexivity].
      open_route. rewrite Hbody. cbv zeta.
      rewrite (destructure_ok body) by exact Hbody. rewrite run_lift_ok.
      rewrite Hid, Huser. cbn [negb].
      serve Hkey Hcid. adapter_returns GetUserInfo.
      destruct (success result); cbn [negb];
        (eexists; eexists; split; [reflexivity |]; split; [tauto | intros _]);
        cbn; repeat case_match; discriminate.
    + open_route. rewrite Hbody. rewrite Hid. cbn [negb].
      serve Hkey Hcid.
      match goal with
      | |- context [mbind testConnection _ ?w1] =>
          destruct (testConnection_cases w1) as (hc & w2 & Hprobe & _);
          rewrite (run_bind _ _ _ _ _ Hprobe)
      end.
      unfold mbind, now, read_clock, ret.
      eexists. eexists. split; [reflexivity |]. split; [tauto | intros _; discriminate].
  - (* the connection id is not a non-empty string *)
    destruct route;
      try (destruct (truthy (prop body "user")) eqn:Huser; [| apply Hno_user; reflexivity]);
      open_route; rewrite Hbody; cbv zeta;
      try (rewrite (destructure_ok body) by exact Hbody; rewrite run_lift_ok);
      rewrite Hid, ?Huser; cbn [negb];
      fail_service (@or_intror (truthy key = false) _ Hcid);
      (split; [exact Hfault |]); intros Hn; exfalso; apply Hn; right;
      (split; [exact Hid |]); (split; [intros Hroute; first [exact Huser | discriminate Hroute] |]);
      right; exact Hcid.
  - (* the secret key is missing *)
    destruct route;
      try (destruct (truthy (prop body "user")) eqn:Huser; [| apply Hno_user; reflexivity]);
      open_route; rewrite Hbody; cbv zeta;
      try (rewrite (destructure_ok body) by exact Hbody; rewrite run_lift_ok);
      rewrite Hid, ?Huser; cbn [negb];
      fail_service (@or_introl _ (~ connection_id (prop body "nangoConnectionId")) Hkey);
      (split; [exact Hfault |]); intros Hn; exfalso; apply Hn; right;
      (split; [exact Hid |]); (split; [intros Hroute; first [exact Huser | discriminate Hroute] |]);
      left; exact Hkey.
Qed.

End RouteFacts.

(* ===================================================================== *)
(** * Scenarios of the further properties *)
(* ===================================================================== *)

Section FurtherScenarios.
Import SlackService.

(** [getChannels({})] against an SDK that rejects with [undefined]. *)
Lemma proxy_operations_never_throw_witness :
  GetChannels <> SendMessage /\
  exists r w',
    @run sample_printer GetChannels (JObj []) JUndefined
      (world (fun _ _ => Throw JUndefined) sample_config) = (Ok r, w').
Proof.
  split; [discriminate |].
  apply (@proxy_operations_never_throw sample_printer GetChannels). discriminate.
Defined.


(** [getUserInfo] of a user that the provider does not know. *)
Lemma operation_failure_codes_witness :
  let w := world (sdk_answers (JObj [("ok", JBool false); ("error", JStr "user_not_found")]))
             sample_config in
  exists r w' e,
    @run sample_printer GetUserInfo (JObj [("user", JStr "U404")]) JUndefined w = (Ok r, w') /\
    success r = false /\ error r = Some e /\
    (code e = API_ERROR \/ (GetUserInfo = GetUserInfo /\ code e = RESOURCE_NOT_FOUND)).
Proof.
  intros w.
  destruct (@run sample_printer GetUserInfo (JObj [("user", JStr "U404")]) JUndefined w)
    as [[r | e] w'] eqn:Hrun; [| vm_compute in Hrun; discriminate].
  assert (success r = false) as Hfailed.
  { vm_compute in Hrun. injection Hrun as <- _. reflexivity. }
  destruct (@operation_failure_codes sample_printer _ _ _ _ _ _ Hrun Hfailed)
    as (e & He & Hcode).
  exists r, w', e. repeat split; assumption.
Defined.




(** [getUsers({})] on an adapter without configuration. *)
Lemma operation_needs_configuration_witness :
  exists r w' e,
    @run sample_printer GetUsers (JObj []) JUndefined
      (world (sdk_answers JNull) JUndefined) = (Ok r, w') /\
    success r = false /\ error r = Some e /\
    message e = "Failed to fetch users: Integration not initialized" /\
    calls w' = [].
Proof.
  destruct (@operation_needs_configuration sample_printer GetUsers (JObj []) JUndefined
              (world (sdk_answers JNull) JUndefined) eq_refl)
    as (r & w' & e & Hrun & Hfailed & _ & He & _ & Hcalls & Hmessage).
  exists r, w', e. repeat split; try assumption.
  apply Hmessage. reflexivity.
Defined.


(** [initialize({nangoConnectionId: ''})] *)
Lemma initialize_rejects_configuration_witness :
  exists issues,
    @initialize sample_printer (JObj [("nangoConnectionId", JStr "")])
      (world (sdk_answers JNull) sample_config)
    = (Throw (Error ("Failed to initialize Slack integration: Validation failed: "
                       +:+ issues)),
       world (sdk_answers JNull) sample_config).
Proof.
  apply (@initialize_rejects_configuration sample_printer).
  intros (s & Hs & Hne). injection Hs as <-. apply Hne. reflexivity.
Defined.

(** [getUsers({limit: 5})]: the validated request is what is sent. *)
Lemma valid_request_is_forwarded_witness :
  let w := world (sdk_rejects 429) sample_config in
  calls (snd (@run sample_printer GetUsers (JObj [("limit", num 5); ("extra", JNull)])
                JUndefined w))
  = [proxy_call "/users.list" (JObj [("limit", num 5)]) w].
Proof.
  intros w.
  apply (@valid_request_is_forwarded sample_printer GetUsers "/users.list"
           (JObj [("limit", num 5); ("extra", JNull)]) JUndefined
           (JObj [("limit", num 5)]) w); reflexivity.
Defined.

(** [{limit: 5}] as a request of [getChannels]. *)
Lemma getChannels_request_defaults_witness :
  let validated :=
    JObj [("limit", num 5); ("exclude_archived", JBool true);
          ("types", JStr "public_channel,private_channel")] in
  validateInput GetChannelsSchema (JObj [("limit", num 5)]) = Ok validated /\
  prop validated "types" = JStr "public_channel,private_channel".
Proof.
  intros validated. split; [reflexivity |].
  destruct (getChannels_request_defaults (JObj [("limit", num 5)]) validated eq_refl)
    as (_ & _ & Htypes & _).
  exact Htypes.
Defined.

(** A reply in a thread: the thread is not part of the call. *)
Lemma sendMessage_forwards_channel_and_text_witness :
  let request := JObj [("channel", JStr "#general"); ("text", JStr "hi");
                       ("thread_ts", JStr "1700000000.000100")] in
  let w := world (sdk_rejects 429) sample_config in
  calls (snd (@sendMessage sample_printer request JUndefined w))
  = [TriggerAction (JStr "slack") (JStr "conn-1") (JStr "send-message")
       (JObj [("channel", JStr "#general"); ("text", JStr "hi")])].
Proof.
  intros request w.
  apply (@sendMessage_forwards_channel_and_text sample_printer request JUndefined
           request w); reflexivity.
Defined.

(** ** The routes *)

(** A body without connection id, on the channels route. *)
Lemma route_requires_fields_witness :
  let w := world (sdk_answers JNull) JUndefined in
  @POST sample_printer sample_sdk Channels JUndefined (Ok (JObj [("limit", num 5)])) w
  = (Ok (Routes.missing_field "nangoConnectionId is required"), w).
Proof.
  intros w.
  apply (proj1 (@route_requires_fields sample_printer sample_sdk Channels JUndefined
                  (JObj [("limit", num 5)]) w eq_refl)).
  reflexivity.
Defined.

(** The users route against an SDK that rejects every call with status
    401: the answer is 400. *)
Lemma route_status_witness :
  exists response w',
    @POST sample_printer sample_sdk Users (JStr "secret")
      (Ok (JObj [("nangoConnectionId", JStr "conn-1")]))
      (world (sdk_rejects 401) JUndefined) = (Ok response, w') /\
    Routes.http_status response = 400 /\
    (Routes.http_status response = 200 <-> body_success (Routes.http_body response) = true).
Proof.
  destruct (@POST sample_printer sample_sdk Users (JStr "secret")
              (Ok (JObj [("nangoConnectionId", JStr "conn-1")]))
              (world (sdk_rejects 401) JUndefined)) as [[response | e] w'] eqn:Hrun;
    [| vm_compute in Hrun; discriminate].
  exists response, w'. split; [reflexivity |]. split.
  - vm_compute in Hrun. injection Hrun as <- _. reflexivity.
  - exact (proj1 (@route_status sample_printer sample_sdk _ _ _ _ _ _ Hrun)).
Defined.

(** The health route against an SDK that rejects every call: status
    200, with an unhealthy check in the body. *)
Lemma health_route_answers_witness :
  exists healthCheck w',
    @POST sample_printer sample_sdk Health (JStr "secret")
      (Ok (JObj [("nangoConnectionId", JStr "conn-1")]))
      (world (sdk_rejects 401) JUndefined)
    = (Ok {| Routes.http_status := 200;
             Routes.http_body :=
               Routes.HealthResult healthCheck
                 (Build_ResponseMeta "2024-01-01T00:00:00.000Z" "slack" "1.0.0") |}, w') /\
    status healthCheck = unhealthy /\
    checks healthCheck = no_checks /\
    health_details healthCheck
      = JObj [("error", JStr "Authentication failed - token may be expired")].
Proof.
  destruct (@health_route_answers sample_printer sample_sdk (JStr "secret")
              (JObj [("nangoConnectionId", JStr "conn-1")])
              (world (sdk_rejects 401) JUndefined) eq_refl)
    as (w1 & healthCheck & w2 & Hinit & _ & Hprobe & Hrun).
  - exists "conn-1". split; [reflexivity | discriminate].
  - vm_compute in Hinit. injection Hinit as <-.
    vm_compute in Hprobe. injection Hprobe as <- <-.
    eexists. eexists. split; [exact Hrun |]. repeat split.
Defined.

(** The users route without secret key. *)
Lemma route_internal_error_witness :
  exists response w',
    @POST sample_printer sample_sdk Users JUndefined
      (Ok (JObj [("nangoConnectionId", JStr "conn-1")]))
      (world (sdk_rejects 401) JUndefined) = (Ok response, w') /\
    response = {| Routes.http_status := 500;
                  Routes.http_body :=
                    Routes.Failure API_ERROR "Internal server error" (JObj []) |} /\
    calls w' = [].
Proof.
  destruct (@route_internal_error sample_printer sample_sdk Users JUndefined
              (Ok (JObj [("nangoConnectionId", JStr "conn-1")]))
              (world (sdk_rejects 401) JUndefined))
    as (response & w' & Hrun & Hfault & _); [discriminate |].
  exists response, w'. split; [exact Hrun |].
  destruct Hfault as (Hcalls & details & -> & Hproduction).
  - right. split; [reflexivity |]. split; [discriminate |]. left. reflexivity.
  - rewrite (Hproduction eq_refl). split; [reflexivity | exact Hcalls].
Defined.

End FurtherScenarios.
